(** * faucet-terminal: admission pipeline and address checksumming

    A shallow embedding of the request handlers of [internal/api/handlers.go]
    and of the EIP-55 helpers of [pkg/cli/commands/request.go], with the
    properties stated about them; and, after these, of the request command
    of the command line ([pkg/cli/commands]), of the server's start
    ([cmd/server/main.go], the handler constructors), of the loading of
    the configuration ([internal/config/config.go]) and of the reporting
    handlers [GetInfo] and [GetQuota].

    Conventions.
    - Go [string]s are byte strings: [String.string] (a list of 8-bit
      [ascii]).
    - Go [int] and [int64] values are [Z]; the handlers only add small
      constants to them, so no wrap-around is reachable and none is written.
    - Go [float64] is Rocq's primitive [float] (IEEE 754 binary64, round to
      nearest even), so the balance guard is evaluated bit for bit; the
      value of a finite [float] as a rational is [Reading.float_value].
    - A handler runs a request from its first call to its answer;
      [Overlap] has the same handler call by call, for two requests whose
      calls take turns.
    - Instants and durations are [Z] seconds. *)

From Stdlib Require Import ZArith List String Ascii Bool Lia Floats.
From Stdlib Require Import QArith Qpower.
From stdpp Require Import base option gmap strings list.

Local Open Scope string_scope.
Local Open Scope Z_scope.

(** ** Go's [strings] package, on ASCII *)

Module Strings.

Definition isUpperAZ (c : ascii) : bool :=
  let n := Z.of_N (N_of_ascii c) in (65 <=? n) && (n <=? 90).

Definition isLowerAZ (c : ascii) : bool :=
  let n := Z.of_N (N_of_ascii c) in (97 <=? n) && (n <=? 122).

Definition toLowerChar (c : ascii) : ascii :=
  if isUpperAZ c then ascii_of_N (N_of_ascii c + 32) else c.

Definition toUpperChar (c : ascii) : ascii :=
  if isLowerAZ c then ascii_of_N (N_of_ascii c - 32) else c.

Fixpoint map_string (f : ascii -> ascii) (s : string) : string :=
  match s with
  | EmptyString => EmptyString
  | String c s' => String (f c) (map_string f s')
  end.

(** [strings.ToLower] and [strings.ToUpper]; bytes outside ASCII letters
    are left as they are. *)
Definition ToLower : string -> string := map_string toLowerChar.
Definition ToUpper : string -> string := map_string toUpperChar.

(** [strings.HasPrefix]. *)
Definition HasPrefix (s p : string) : bool := String.prefix p s.

(** The slice expression [s[n:]]; [None] is the run-time panic of a slice
    bound out of range. *)
Fixpoint slice_from (n : nat) (s : string) : option string :=
  match n, s with
  | O, _ => Some s
  | S n', String _ s' => slice_from n' s'
  | S _, EmptyString => None
  end.

(** The index expression [s[i]]; [None] is the panic of an index out of
    range. *)
Definition index (s : string) (i : nat) : option ascii := String.get i s.

End Strings.

(** ** Keccak-256 ([sha3.NewLegacyKeccak256]) and [hex.EncodeToString]

    The hash is a library the checksum calls; it is written out so that the
    checksum can be evaluated on real addresses. Lanes are 64-bit words held
    in [Z]; the state is the list of its 25 lanes, lane [(x, y)] at
    position [x + 5 * y]. *)

Module Keccak.

Definition mask64 : Z := Z.ones 64.

Definition rotl64 (w : Z) (n : Z) : Z :=
  Z.land (Z.lor (Z.shiftl w n) (Z.shiftr w (64 - n))) mask64.

Definition not64 (w : Z) : Z := Z.lxor w mask64.

Definition State := list Z.

Definition lane (st : State) (x y : nat) : Z :=
  nth ((x mod 5) + 5 * (y mod 5))%nat st 0.

Definition init_state (f : nat -> nat -> Z) : State :=
  map (fun i => f (i mod 5)%nat (i / 5)%nat) (seq 0 25).

Definition rotation_offsets : list Z :=
  [  0;  1; 62; 28; 27;
    36; 44;  6; 55; 20;
     3; 10; 43; 25; 39;
    41; 45; 15; 21;  8;
    18;  2; 61; 56; 14 ].

Definition rot_offset (x y : nat) : Z :=
  nth ((x mod 5) + 5 * (y mod 5))%nat rotation_offsets 0.

Definition round_constants : list Z :=
  [ 0x0000000000000001; 0x0000000000008082; 0x800000000000808A;
    0x8000000080008000; 0x000000000000808B; 0x0000000080000001;
    0x8000000080008081; 0x8000000000008009; 0x000000000000008A;
    0x0000000000000088; 0x0000000080008009; 0x000000008000000A;
    0x000000008000808B; 0x800000000000008B; 0x8000000000008089;
    0x8000000000008003; 0x8000000000008002; 0x8000000000000080;
    0x000000000000800A; 0x800000008000000A; 0x8000000080008081;
    0x8000000000008080; 0x0000000080000001; 0x8000000080008008 ].

Definition column_parity (st : State) (x : nat) : Z :=
  fold_left Z.lxor (map (lane st x) (seq 0 5)) 0.

Definition theta (st : State) : State :=
  init_state (fun x y =>
    Z.lxor (lane st x y)
           (Z.lxor (column_parity st (x + 4))
                   (rotl64 (column_parity st (x + 1)) 1))).

(** rho and pi together: lane [(x, y)] moves to [(y, 2x + 3y)], rotated. *)
Definition rho_pi (st : State) : State :=
  init_state (fun x y =>
    let x0 := ((x + 3 * y) mod 5)%nat in
    rotl64 (lane st x0 x) (rot_offset x0 x)).

Definition chi (st : State) : State :=
  init_state (fun x y =>
    Z.lxor (lane st x y)
           (Z.land (not64 (lane st (x + 1) y)) (lane st (x + 2) y))).

Definition iota (rc : Z) (st : State) : State :=
  match st with
  | [] => []
  | w :: rest => Z.lxor w rc :: rest
  end.

Definition round (st : State) (rc : Z) : State :=
  iota rc (chi (rho_pi (theta st))).

Definition keccak_f (st : State) : State :=
  fold_left round round_constants st.

(** Little-endian bytes of a lane and back. *)
Definition lane_bytes (w : Z) : list Z :=
  map (fun i => Z.land (Z.shiftr w (8 * Z.of_nat i)) 255) (seq 0 8).

Fixpoint bytes_lane (bs : list Z) : Z :=
  match bs with
  | [] => 0
  | b :: bs' => Z.lor b (Z.shiftl (bytes_lane bs') 8)
  end.

Fixpoint lanes_of_bytes (n : nat) (bs : list Z) : list Z :=
  match n with
  | O => []
  | S n' => bytes_lane (firstn 8 bs) :: lanes_of_bytes n' (skipn 8 bs)
  end.

Definition rate : nat := 136.

(** XOR one block of [rate] bytes into the first 17 lanes. *)
Definition absorb_block (st : State) (block : list Z) : State :=
  let ls := lanes_of_bytes 17 block in
  map (fun i => Z.lxor (nth i st 0) (nth i ls 0)) (seq 0 25).

Fixpoint absorb (fuel : nat) (st : State) (msg : list Z) : State :=
  match fuel, msg with
  | S fuel', _ :: _ =>
      absorb fuel' (keccak_f (absorb_block st (firstn rate msg))) (skipn rate msg)
  | _, _ => st
  end.

(** The legacy padding: [0x01], zeros, and [0x80] on the block's last
    byte. *)
Definition pad (msg : list Z) : list Z :=
  let q := (rate - length msg mod rate)%nat in
  if (q =? 1)%nat then msg ++ [0x81]
  else msg ++ [0x01] ++ repeat 0 (q - 2) ++ [0x80].

Definition keccak256 (msg : list Z) : list Z :=
  let p := pad msg in
  let st := absorb (length p) (repeat 0 25) p in
  flat_map lane_bytes (firstn 4 st).

Definition bytes_of_string (s : string) : list Z :=
  map (fun c => Z.of_N (N_of_ascii c)) (list_ascii_of_string s).

Definition hex_digit (n : Z) : ascii :=
  if n <? 10 then ascii_of_N (Z.to_N (48 + n)) else ascii_of_N (Z.to_N (87 + n)).

(** [hex.EncodeToString]: two lower-case digits per byte. *)
Definition EncodeToString (bs : list Z) : string :=
  string_of_list_ascii
    (flat_map (fun b => [hex_digit (Z.shiftr b 4); hex_digit (Z.land b 15)]) bs).

Definition keccak256_hex (s : string) : string :=
  EncodeToString (keccak256 (bytes_of_string s)).

End Keccak.

(** ** pkg/cli/commands/request.go: EIP-55 *)

Module Request.
Import Strings.

Definition isDigit (c : ascii) : bool :=
  let n := Z.of_N (N_of_ascii c) in (48 <=? n) && (n <=? 57).

Definition isHexChar (c : ascii) : bool :=
  let n := Z.of_N (N_of_ascii c) in
  ((48 <=? n) && (n <=? 57)) || ((97 <=? n) && (n <=? 102))
  || ((65 <=? n) && (n <=? 70)).

Fixpoint all_chars (p : ascii -> bool) (s : string) : bool :=
  match s with
  | EmptyString => true
  | String c s' => p c && all_chars p s'
  end.

Fixpoint any_char (p : ascii -> bool) (s : string) : bool :=
  match s with
  | EmptyString => false
  | String c s' => p c || any_char p s'
  end.

(** [hasMixedCase]: some letter in [A-F] and some letter in [a-f]. *)
Definition hasMixedCase (s : string) : bool :=
  any_char (fun c => let n := Z.of_N (N_of_ascii c) in (65 <=? n) && (n <=? 70)) s
  && any_char (fun c => let n := Z.of_N (N_of_ascii c) in (97 <=? n) && (n <=? 102)) s.

(** The loop of [toEIP55Checksum]: [i] is the index of the head of [addr]
    in the lower-cased address, [hashHex] the hex digest. A letter is
    upper-cased when the digest's character at its index is ['8'] or
    above. *)
Fixpoint checksum_loop (hashHex : string) (i : nat) (addr : string) : option string :=
  match addr with
  | EmptyString => Some EmptyString
  | String c rest =>
      c' ← (if isDigit c then Some c
            else hashNibble ← index hashHex i;
                 Some (if 56 <=? Z.of_N (N_of_ascii hashNibble)
                       then toUpperChar c else c));
      rest' ← checksum_loop hashHex (S i) rest;
      Some (String c' rest')
  end.

(** [toEIP55Checksum]; [None] is a run-time panic ([address[2:]] on a
    string shorter than two bytes, or [hashHex[i]] past the digest). *)
Definition toEIP55Checksum (address : string) : option string :=
  tail ← slice_from 2 address;
  let addr := ToLower tail in
  let hashHex := Keccak.keccak256_hex addr in
  body ← checksum_loop hashHex 0 addr;
  Some (String.append "0x" body).

(** [isValidEIP55Checksum]: [address == toEIP55Checksum(address)]. *)
Definition isValidEIP55Checksum (address : string) : option bool :=
  c ← toEIP55Checksum address;
  Some (bool_decide (address = c)).

(** The shape the claim is about: [0x] and 40 hex characters. *)
Definition isEthereumAddress (address : string) : bool :=
  HasPrefix address "0x"
  && match slice_from 2 address with
     | Some hexPart => (String.length hexPart =? 40)%nat && all_chars isHexChar hexPart
     | None => false
     end.

End Request.

(** ** internal/config/config.go *)

Module Config.

Record ServerConfig := { port : Z; log_level : string }.
Record PoWConfig := { difficulty : Z; challenge_ttl_seconds : Z }.
Record RateLimitConfig :=
  { max_requests_per_day_ip : Z; max_challenges_per_hour : Z }.

(** Fields carry their JSON names; the accessor methods below carry the
    Go names. *)
Record Config := {
  Server : ServerConfig;
  PoW : PoWConfig;
  RateLimits : RateLimitConfig;
  RedisURL : string
}.

Record ConfigError := { Field : string; Message : string }.

(** [Validate]: the store's URL is required, and a zero setting takes its
    default. *)
Definition Validate (c : Config) : ConfigError + Config :=
  if bool_decide (RedisURL c = EmptyString)
  then inl {| Field := "REDIS_URL"; Message := "is required (set in .env)" |}
  else
    let dflt (v d : Z) := if v =? 0 then d else v in
    inr {| Server := {| port := dflt (port (Server c)) 8080;
                        log_level := log_level (Server c) |};
           PoW := {| difficulty := dflt (difficulty (PoW c)) 4;
                     challenge_ttl_seconds :=
                       dflt (challenge_ttl_seconds (PoW c)) 300 |};
           RateLimits :=
             {| max_requests_per_day_ip :=
                  dflt (max_requests_per_day_ip (RateLimits c)) 5;
                max_challenges_per_hour :=
                  dflt (max_challenges_per_hour (RateLimits c)) 10 |};
           RedisURL := RedisURL c |}.

Definition PoWDifficulty (c : Config) : Z := difficulty (PoW c).
Definition ChallengeTTL (c : Config) : Z := challenge_ttl_seconds (PoW c).
Definition MaxRequestsPerDayIP (c : Config) : Z :=
  max_requests_per_day_ip (RateLimits c).
Definition MaxChallengesPerHour (c : Config) : Z :=
  max_challenges_per_hour (RateLimits c).

End Config.

(** ** internal/cache: the counter store

    The package is not among the sources; the handlers call it through the
    methods below. Each is written from the specification's description of
    the counters (sections 3, 4.2 and 4.3). An entry that carries a TTL is
    stored with the instant it expires at, and is read only before that
    instant. *)

Module Cache.

Record RedisClient := {
  maxRequestsPerDayIP : Z;
  maxChallengesPerHour : Z;
  ip_daily : gmap string (Z * Z);
  ip_cooldown : gmap string Z;
  token_throttle : gmap (string * string * string) Z;
  challenges : gmap string (string * Z);
  global_hourly : gmap string (float * Z);
  global_daily : gmap string (float * Z)
}.

Definition set_ip_daily (f : gmap string (Z * Z) -> gmap string (Z * Z))
    (r : RedisClient) : RedisClient :=
  {| maxRequestsPerDayIP := maxRequestsPerDayIP r;
     maxChallengesPerHour := maxChallengesPerHour r;
     ip_daily := f (ip_daily r); ip_cooldown := ip_cooldown r;
     token_throttle := token_throttle r; challenges := challenges r;
     global_hourly := global_hourly r; global_daily := global_daily r |}.

Definition set_ip_cooldown (f : gmap string Z -> gmap string Z)
    (r : RedisClient) : RedisClient :=
  {| maxRequestsPerDayIP := maxRequestsPerDayIP r;
     maxChallengesPerHour := maxChallengesPerHour r;
     ip_daily := ip_daily r; ip_cooldown := f (ip_cooldown r);
     token_throttle := token_throttle r; challenges := challenges r;
     global_hourly := global_hourly r; global_daily := global_daily r |}.

Definition set_token_throttle
    (f : gmap (string * string * string) Z -> gmap (string * string * string) Z)
    (r : RedisClient) : RedisClient :=
  {| maxRequestsPerDayIP := maxRequestsPerDayIP r;
     maxChallengesPerHour := maxChallengesPerHour r;
     ip_daily := ip_daily r; ip_cooldown := ip_cooldown r;
     token_throttle := f (token_throttle r); challenges := challenges r;
     global_hourly := global_hourly r; global_daily := global_daily r |}.

Definition set_challenges
    (f : gmap string (string * Z) -> gmap string (string * Z))
    (r : RedisClient) : RedisClient :=
  {| maxRequestsPerDayIP := maxRequestsPerDayIP r;
     maxChallengesPerHour := maxChallengesPerHour r;
     ip_daily := ip_daily r; ip_cooldown := ip_cooldown r;
     token_throttle := token_throttle r; challenges := f (challenges r);
     global_hourly := global_hourly r; global_daily := global_daily r |}.

Definition set_global
    (fh fd : gmap string (float * Z) -> gmap string (float * Z))
    (r : RedisClient) : RedisClient :=
  {| maxRequestsPerDayIP := maxRequestsPerDayIP r;
     maxChallengesPerHour := maxChallengesPerHour r;
     ip_daily := ip_daily r; ip_cooldown := ip_cooldown r;
     token_throttle := token_throttle r; challenges := challenges r;
     global_hourly := fh (global_hourly r);
     global_daily := fd (global_daily r) |}.

Definition hour : Z := 3600.
Definition day : Z := 86400.

(** A marker (a key whose value is its expiry) read at [now]. *)
Definition live_marker (now : Z) (e : option Z) : option Z :=
  match e with
  | Some expiry => if now <? expiry then Some expiry else None
  | None => None
  end.

(** A counter or value with a TTL, read at [now]. *)
Definition live_entry {A} (now : Z) (e : option (A * Z)) : option (A * Z) :=
  match e with
  | Some (v, expiry) => if now <? expiry then Some (v, expiry) else None
  | None => None
  end.

Definition daily_used (now : Z) (ip : string) (r : RedisClient) : Z :=
  match live_entry now (ip_daily r !! ip) with
  | Some (n, _) => n
  | None => 0
  end.

Definition cooldown_end (now : Z) (ip : string) (r : RedisClient) : option Z :=
  live_marker now (ip_cooldown r !! ip).

(** Modelled from the spec: [CheckIPDailyLimit] of internal/cache is
    missing. "Reads the daily counter and cooldown marker. If a cooldown
    marker is present, denies regardless of counter value and reports
    remaining cooldown time." Without a marker it reports whether the
    counter is still under the cap the client was built with. Result:
    (canRequest, currentCount, cooldownEnd). *)
Definition CheckIPDailyLimit (now : Z) (ip : string) (r : RedisClient)
    : bool * Z * option Z :=
  let used := daily_used now ip r in
  match cooldown_end now ip r with
  | Some t => (false, used, Some t)
  | None => (used <? maxRequestsPerDayIP r, used, None)
  end.

(** Modelled from the spec: [GetIPDailyQuota] of internal/cache is missing.
    The same two reads, reported as (used, remaining, cooldownEnd). *)
Definition GetIPDailyQuota (now : Z) (ip : string) (r : RedisClient)
    : Z * Z * option Z :=
  let used := daily_used now ip r in
  (used, Z.max 0 (maxRequestsPerDayIP r - used), cooldown_end now ip r).

(** Modelled from the spec: [IncrementIPDailyLimit] of internal/cache is
    missing. "Commit: increments the daily counter by requested_units; if
    the post-increment value reaches the cap, sets the cooldown marker with
    a fixed 24-hour TTL." The counter lives in the UTC-aligned day it was
    created in. *)
Definition IncrementIPDailyLimit (now : Z) (ip : string) (n : Z)
    (r : RedisClient) : RedisClient :=
  let entry :=
    match live_entry now (ip_daily r !! ip) with
    | Some (used, expiry) => (used + n, expiry)
    | None => (n, (now / day + 1) * day)
    end in
  let r' := set_ip_daily (fun m => <[ip := entry]> m) r in
  if maxRequestsPerDayIP r <=? fst entry
  then set_ip_cooldown (fun m => <[ip := now + day]> m) r'
  else r'.

(** Modelled from the spec: [CheckTokenHourlyThrottle] of internal/cache is
    missing. "Allowed iff no throttle marker exists for that exact key."
    Result: (canRequest, nextTime). *)
Definition CheckTokenHourlyThrottle (now : Z) (ip network token : string)
    (r : RedisClient) : bool * option Z :=
  match live_marker now (token_throttle r !! (ip, network, token)) with
  | Some t => (false, Some t)
  | None => (true, None)
  end.

(** Modelled from the spec: [SetTokenHourlyThrottle] of internal/cache is
    missing. "Commit: sets the throttle marker with a 1-hour TTL." *)
Definition SetTokenHourlyThrottle (now : Z) (ip network token : string)
    (r : RedisClient) : RedisClient :=
  set_token_throttle (fun m => <[(ip, network, token) := now + hour]> m) r.

(** Modelled from the spec: [StoreChallenge], [GetChallenge] and
    [DeleteChallenge] of internal/cache are missing. A challenge is "stored
    in the Counter Store with a TTL equal to its expiry window; deleted
    immediately upon successful verification". [GetChallenge] answers
    [None] (an error) for an id that is absent or expired. *)
Definition StoreChallenge (now : Z) (id challenge : string) (ttl : Z)
    (r : RedisClient) : RedisClient :=
  set_challenges (fun m => <[id := (challenge, now + ttl)]> m) r.

(** Modelled from the spec: [GetChallenge] of internal/cache is missing;
    "the referenced challenge must exist (not yet expired/consumed)". *)
Definition GetChallenge (now : Z) (id : string) (r : RedisClient)
    : option string :=
  fst <$> live_entry now (challenges r !! id).

(** Modelled from the spec: [DeleteChallenge] of internal/cache is missing;
    the primitive "delete(key)". *)
Definition DeleteChallenge (id : string) (r : RedisClient) : RedisClient :=
  set_challenges (fun m => delete id m) r.

Definition global_total (now : Z) (m : gmap string (float * Z))
    (token : string) : float :=
  match live_entry now (m !! token) with
  | Some (v, _) => v
  | None => 0%float
  end.

Definition global_bump (now ttl : Z) (token : string) (amount : float)
    (m : gmap string (float * Z)) : gmap string (float * Z) :=
  match live_entry now (m !! token) with
  | Some (v, expiry) => <[token := ((v + amount)%float, expiry)]> m
  | None => <[token := (amount, now + ttl)]> m
  end.

(** Modelled from the spec: [TrackGlobalDistribution] of internal/cache is
    missing. "Reads hourly and daily global counters for the resource;
    allowed iff adding amount to each does not exceed the resource's
    configured hourly and daily caps. Commit happens atomically with the
    check." *)
Definition TrackGlobalDistribution (now : Z) (token : string)
    (amount maxHourly maxDaily : float) (r : RedisClient)
    : bool * RedisClient :=
  if ((global_total now (global_hourly r) token + amount <=? maxHourly)
      && (global_total now (global_daily r) token + amount <=? maxDaily))%float
  then (true, set_global (global_bump now hour token amount)
                         (global_bump now day token amount) r)
  else (false, r).

(** [NewRedisClient]: an empty store that remembers the two caps. *)
Definition NewRedisClient (maxPerDayIP maxChallenges : Z) : RedisClient :=
  {| maxRequestsPerDayIP := maxPerDayIP;
     maxChallengesPerHour := maxChallenges;
     ip_daily := ∅; ip_cooldown := ∅; token_throttle := ∅;
     challenges := ∅; global_hourly := ∅; global_daily := ∅ |}.

End Cache.

(** ** internal/models and the chain interfaces

    The declarations of internal/models and of [chains.Chain] are not among
    the sources; the records carry the fields and methods the handlers and
    the CLI use. *)

Module Models.

Record FaucetRequest := {
  Address : string;
  Token : string;
  Network : string;
  ChallengeID : string;
  Nonce : Z
}.

Definition with_Token (req : FaucetRequest) (t : string) : FaucetRequest :=
  {| Address := Address req; Token := t; Network := Network req;
     ChallengeID := ChallengeID req; Nonce := Nonce req |}.

Record TransactionInfo := {
  tx_Token : string;
  tx_Amount : string;
  tx_TxHash : string;
  tx_ExplorerURL : string
}.

(** The [Message] of a [FaucetResponse], with the values its format
    string is filled with. *)
Inductive ResponseMessage :=
| MsgTokensSent                     (* "Tokens sent successfully" *)
| MsgBothSent                       (* "Both tokens sent successfully" *)
| MsgPartial (sent : nat) (failedToken : string).
    (* "Sent %d token(s) successfully, but %s failed" *)

Record FaucetResponse := {
  resp_Success : bool;
  resp_TxHash : string;
  resp_Amount : string;
  resp_Token : string;
  resp_ExplorerURL : string;
  resp_Transactions : list TransactionInfo;
  resp_Message : ResponseMessage
}.

Record StatusResponse := {
  status_Address : string;
  status_CanRequest : bool;
  status_NextRequestTime : option Z;
  status_RemainingHours : option float
}.

(** [getChain]'s two errors. *)
Inductive ChainLookupError :=
| UnsupportedNetwork (network : string)   (* "unsupported network: %s (available: %s)" *)
| ProviderNotFound (network : string).    (* "provider not found for network: %s" *)

(** The [Error] text of a [models.ErrorResponse], with the values its
    format string is filled with. *)
Inductive ErrorText :=
| ErrInvalidBody                       (* "Invalid request body" *)
| ErrChain (e : ChainLookupError)      (* err.Error() of getChain *)
| ErrInvalidAddress (e : string)       (* "Invalid address: %s" *)
| ErrToken (e : string)                (* err.Error() of ValidateToken *)
| ErrCheckRateLimit                    (* "Failed to check rate limit" *)
| ErrDailyCooldown (hours : option Z) (minutes : Z)
    (* "[DAILY LIMIT] You've used all 5 daily requests. 24-hour cooldown:
       %s remaining.", with "%dh %dm" or "%dm" *)
| ErrDailyExceeded (used max : Z)
    (* "[DAILY LIMIT] Request would exceed daily limit (%d/%d used). Wait
       for quota reset." *)
| ErrHourlyLimit (token network : string) (minutesRemaining : Z)
    (* "[HOURLY LIMIT] %s on %s: 1 request per hour. Try again in %d
       minutes." *)
| ErrInvalidChallenge                  (* "Invalid or expired challenge" *)
| ErrInvalidPoW                        (* "Invalid proof of work solution" *)
| ErrProcessRequest                    (* "Failed to process request" *)
| ErrFaucetLimit
    (* "[FAUCET LIMIT] Faucet has temporarily reached its distribution
       limit. Please try again in an hour." *)
| ErrCheckBalance                      (* "Failed to check faucet balance" *)
| ErrLowBalance (token : string) (currentBalance : float)
    (* "[LOW BALANCE] Faucet %s balance too low (%.4f). Please try again
       later." *)
| ErrSendTokens                        (* "Failed to send tokens. Please try again later." *)
| ErrSendBoth (failedToken : string)   (* "Failed to send %s tokens. Please try again later." *)
| ErrCheckStatus.                      (* "Failed to check status" *)

(** What a handler answers: a status code with an error body, one of the
    two success bodies, or a run-time panic. *)
Inductive Response :=
| ErrorResponse (status : Z) (e : ErrorText)
| FaucetOK (r : FaucetResponse)
| StatusOK (r : StatusResponse)
| Panic.

Definition StatusBadRequest : Z := 400.
Definition StatusTooManyRequests : Z := 429.
Definition StatusInternalServerError : Z := 500.
Definition StatusServiceUnavailable : Z := 503.

End Models.

Module Chains.

(** [chains.Chain]. A method that returns [error] returns [Some e] for the
    error [e]; a method that returns a value and an error returns [None]
    for the error. [GetBalance] and [TransferTokens] go to the chain's RPC:
    the record holds what the RPC answers during the request. *)
Record Chain := {
  ValidateAddress : string -> option string;
  ValidateToken : string -> option string;
  GetSupportedTokens : list string;
  GetBalance : string -> string -> option Z;
  TransferTokens : string -> string -> Z -> option string;
  GetExplorerURL : string -> string;
  GetChainName : string;
  GetNetworkName : string
}.

End Chains.

(** ** internal/api/handlers.go *)

Module Api.
Import Models Chains Cache.

(** [ChainProvider]. *)
Record ChainProvider := {
  GetDripAmount : string -> string;
  GetMaxTokensPerHour : string -> float;
  GetMaxTokensPerDay : string -> float;
  GetMinBalanceProtectPct : Z;
  GetFaucetAddress : string
}.

(** [pow.Generator], of which the handlers use [VerifyPoW]. *)
Record Generator := { VerifyPoW : string -> Z -> Z -> bool }.

(** [Handler]; the store's contents are the state the handlers run in. *)
Record Handler := {
  config : Config.Config;
  chains : gmap string Chain;
  providers : gmap string ChainProvider;
  powGenerator : Generator;
  defaultNetwork : string
}.

(** The calls a handler makes to its collaborators, in the order of the
    log. *)
Inductive Call :=
| CValidateAddress
| CValidateToken
| CCheckIPDailyLimit
| CGetIPDailyQuota
| CCheckTokenHourlyThrottle (token : string)
| CGetChallenge
| CVerifyPoW
| CDeleteChallenge
| CTrackGlobalDistribution (token : string)
| CGetBalance (token : string)
| CTransferTokens (token : string)
| CIncrementIPDailyLimit (n : Z)
| CSetTokenHourlyThrottle (token : string).

#[global] Instance Call_eq_dec : EqDecision Call.
Proof. solve_decision. Defined.

(** What surrounds one request: the clock, the store calls that fail with
    an error, and the library functions the handlers call
    ([strconv.ParseFloat] with its error dropped, [chains.AmountToWei],
    [chains.WeiToAmount]). *)
Record Env := {
  now : Z;
  redis_fails : Call -> bool;
  ParseFloat : string -> float;
  AmountToWei : float -> Z;
  WeiToAmount : Z -> float
}.

(** The state a handler runs in: the store, the log of calls made so far,
    and the transfers the chain accepted, as (token, amount in wei). *)
Record St := {
  redis : RedisClient;
  calls : list Call;
  sent : list (string * Z)
}.

Definition initial (r : RedisClient) : St :=
  {| redis := r; calls := []; sent := [] |}.

(** A step either goes on with a value or leaves early with an [E]: for
    a handler, the response it has answered
    ([return c.Status(..).JSON(..)]); for a loop body, its [break]. *)
Definition Step (E A : Type) : Type := St -> St * (E + A).

#[global] Instance Step_ret {E} : MRet (Step E) := fun A a st => (st, inr a).
#[global] Instance Step_bind {E} : MBind (Step E) := fun A B f m st =>
  match m st with
  | (st', inl e) => (st', inl e)
  | (st', inr a) => f a st'
  end.

Definition leave {E A} (e : E) : Step E A := fun st => (st, inl e).

Abbreviation M := (Step Response).

Definition reject {A} (status : Z) (e : ErrorText) : M A :=
  leave (ErrorResponse status e).

Definition run (m : M Response) (st : St) : St * Response :=
  match m st with
  | (st', inl resp) => (st', resp)
  | (st', inr resp) => (st', resp)
  end.

Definition log {E} (c : Call) : Step E unit := fun st =>
  ({| redis := redis st; calls := calls st ++ [c]; sent := sent st |}, inr ()).

(** A store call that reads: [None] when the call fails. *)
Definition redis_get {E A} (env : Env) (c : Call) (f : RedisClient -> A)
    : Step E (option A) := fun st =>
  ({| redis := redis st; calls := calls st ++ [c]; sent := sent st |},
   inr (if redis_fails env c then None else Some (f (redis st)))).

(** A store call that writes: a call that fails leaves the store as it
    was and answers [false]. *)
Definition redis_set {E} (env : Env) (c : Call)
    (f : RedisClient -> RedisClient) : Step E bool := fun st =>
  if redis_fails env c
  then ({| redis := redis st; calls := calls st ++ [c]; sent := sent st |},
        inr false)
  else ({| redis := f (redis st); calls := calls st ++ [c]; sent := sent st |},
        inr true).

(** A store call that reads and writes in one step. *)
Definition redis_update {E A} (env : Env) (c : Call)
    (f : RedisClient -> A * RedisClient) : Step E (option A) := fun st =>
  if redis_fails env c
  then ({| redis := redis st; calls := calls st ++ [c]; sent := sent st |},
        inr None)
  else ({| redis := snd (f (redis st)); calls := calls st ++ [c];
           sent := sent st |},
        inr (Some (fst (f (redis st))))).

(** [chain.TransferTokens]; a transfer the chain accepts is recorded. *)
Definition transfer {E} (chain : Chain) (recipient token : string)
    (amountWei : Z) : Step E (option string) := fun st =>
  match TransferTokens chain recipient token amountWei with
  | Some txHash =>
      ({| redis := redis st; calls := calls st ++ [CTransferTokens token];
          sent := sent st ++ [(token, amountWei)] |}, inr (Some txHash))
  | None =>
      ({| redis := redis st; calls := calls st ++ [CTransferTokens token];
          sent := sent st |}, inr None)
  end.

(** [getChain]. *)
Definition getChain (h : Handler) (network : string)
    : ChainLookupError + (Chain * ChainProvider) :=
  let network :=
    if bool_decide (network = EmptyString) then defaultNetwork h else network in
  match chains h !! network with
  | None => inl (UnsupportedNetwork network)
  | Some chain =>
      match providers h !! network with
      | None => inl (ProviderNotFound network)
      | Some provider => inr (chain, provider)
      end
  end.

(** [float64(n)] for a Go [int]. *)
Definition float_of_int (n : Z) : float :=
  if n <? 0 then (- of_uint63 (Uint63.of_Z (- n)))%float
  else of_uint63 (Uint63.of_Z n).

(** One hourly-throttle check, the body shared by the loop over the
    supported tokens and by the single-token branch. *)
Definition check_throttle (env : Env) (ip network token : string) : M unit :=
  res ← redis_get env (CCheckTokenHourlyThrottle token)
          (CheckTokenHourlyThrottle (now env) ip network token);
  match res with
  | None => reject StatusInternalServerError ErrCheckRateLimit
  | Some (canRequestToken, nextTime) =>
      if negb canRequestToken then
        match nextTime with
        | None => leave Panic
        | Some next =>
            let minutesRemaining := Z.quot (next - now env) 60 + 1 in
            reject StatusTooManyRequests
                   (ErrHourlyLimit token network minutesRemaining)
        end
      else mret ()
  end.

Fixpoint check_throttles (env : Env) (ip network : string)
    (tokens : list string) : M unit :=
  match tokens with
  | [] => mret ()
  | token :: rest =>
      check_throttle env ip network token;;
      check_throttles env ip network rest
  end.

(** The body of the loop of [handleBothTokensRequest] for one token; it
    leaves early where the source sets [failedToken] and breaks. *)
Definition both_iteration (env : Env) (req : FaucetRequest)
    (chain : Chain) (chainProvider : ChainProvider) (token : string)
    : Step unit TransactionInfo :=
  let amountStr := GetDripAmount chainProvider token in
  let amountFloat := ParseFloat env amountStr in
  let maxHourly := GetMaxTokensPerHour chainProvider token in
  let maxDaily := GetMaxTokensPerDay chainProvider token in
  canDistribute ← redis_update env (CTrackGlobalDistribution token)
    (TrackGlobalDistribution (now env) token amountFloat maxHourly maxDaily);
  match canDistribute with
  | None => leave ()
  | Some false => leave ()
  | Some true =>
      log (CGetBalance token);;
      match GetBalance chain (GetFaucetAddress chainProvider) token with
      | None => leave ()
      | Some currentBalance =>
          let amountWei := AmountToWei env amountFloat in
          let minBalancePct :=
            (float_of_int (GetMinBalanceProtectPct chainProvider) / 100)%float in
          let currentBalanceFloat := WeiToAmount env currentBalance in
          let minBalanceRequired := (currentBalanceFloat * minBalancePct)%float in
          let balanceAfterTransfer := (currentBalanceFloat - amountFloat)%float in
          if (balanceAfterTransfer <? minBalanceRequired)%float then leave ()
          else
            tx ← transfer chain (Address req) token amountWei;
            match tx with
            | None => leave ()
            | Some txHash =>
                mret {| tx_Token := token; tx_Amount := amountStr;
                        tx_TxHash := txHash;
                        tx_ExplorerURL := GetExplorerURL chain txHash |}
            end
      end
  end.

(** The loop itself: it ends with the transactions made and
    [failedToken], empty when no token failed. *)
Fixpoint both_loop (env : Env) (req : FaucetRequest) (chain : Chain)
    (chainProvider : ChainProvider) (tokens : list string)
    (transactions : list TransactionInfo) (st : St)
    : St * (list TransactionInfo * string) :=
  match tokens with
  | [] => (st, (transactions, EmptyString))
  | token :: rest =>
      match both_iteration env req chain chainProvider token st with
      | (st', inl _) => (st', (transactions, token))
      | (st', inr tx) =>
          both_loop env req chain chainProvider rest (transactions ++ [tx]) st'
      end
  end.

Fixpoint set_throttles (env : Env) (ip network : string)
    (transactions : list TransactionInfo) : M unit :=
  match transactions with
  | [] => mret ()
  | tx :: rest =>
      redis_set env (CSetTokenHourlyThrottle (tx_Token tx))
        (SetTokenHourlyThrottle (now env) ip network (tx_Token tx));;
      set_throttles env ip network rest
  end.

(** [handleBothTokensRequest]. *)
Definition handleBothTokensRequest (h : Handler) (env : Env)
    (req : FaucetRequest) (ip : string) (chain : Chain)
    (chainProvider : ChainProvider) : M Response :=
  let tokens := GetSupportedTokens chain in
  '(transactions, failedToken) ←
    (fun st => let '(st', out) :=
                 both_loop env req chain chainProvider tokens [] st in
               (st', inr out));
  if (0 <? length transactions)%nat then
    redis_set env (CIncrementIPDailyLimit 2)
      (IncrementIPDailyLimit (now env) ip 2);;
    let network :=
      if bool_decide (Network req = EmptyString) then defaultNetwork h
      else Network req in
    set_throttles env ip network transactions;;
    let message :=
      if bool_decide (failedToken ≠ EmptyString)
      then MsgPartial (length transactions) failedToken
      else MsgBothSent in
    mret (FaucetOK {| resp_Success := true;
                      resp_TxHash := EmptyString;
                      resp_Amount := EmptyString;
                      resp_Token := EmptyString;
                      resp_ExplorerURL := EmptyString;
                      resp_Transactions := transactions;
                      resp_Message := message |})
  else
    reject StatusInternalServerError (ErrSendBoth failedToken).

(** [RequestTokens]. [body] is the request as [c.BodyParser] read it,
    [None] when it could not; [ip] is [c.IP()]. *)
Definition RequestTokens (h : Handler) (env : Env) (ip : string)
    (body : option FaucetRequest) : M Response :=
  req ← match body with
        | None => reject StatusBadRequest ErrInvalidBody
        | Some req => mret req
        end;
  '(chain, chainProvider) ←
    match getChain h (Network req) with
    | inl err => reject StatusBadRequest (ErrChain err)
    | inr found => mret found
    end;
  log CValidateAddress;;
  match ValidateAddress chain (Address req) with
  | Some err => reject StatusBadRequest (ErrInvalidAddress err)
  | None => mret ()
  end;;
  let req := with_Token req (Strings.ToUpper (Token req)) in
  (if bool_decide (Token req ≠ "BOTH") then
     log CValidateToken;;
     match ValidateToken chain (Token req) with
     | Some err => reject StatusBadRequest (ErrToken err)
     | None => mret ()
     end
   else mret ());;
  (* 1. IP daily limit and 24h cooldown *)
  daily ← redis_get env CCheckIPDailyLimit (CheckIPDailyLimit (now env) ip);
  '(canRequest, currentCount, cooldownEnd) ←
    match daily with
    | None => reject StatusInternalServerError ErrCheckRateLimit
    | Some d => mret d
    end;
  match cooldownEnd with
  | Some cooldownEnd =>
      if negb canRequest then
        let remaining := cooldownEnd - now env in
        let hours := Z.quot remaining 3600 in
        let minutes := Z.rem (Z.quot remaining 60) 60 in
        reject StatusTooManyRequests
          (ErrDailyCooldown (if 0 <? hours then Some hours else None) minutes)
      else mret ()
  | None => mret ()
  end;;
  let requestCost := if bool_decide (Token req = "BOTH") then 2 else 1 in
  (if negb canRequest
      || (Config.MaxRequestsPerDayIP (config h) <? currentCount + requestCost)
   then
     quota ← redis_get env CGetIPDailyQuota (GetIPDailyQuota (now env) ip);
     let used := match quota with Some (used, _, _) => used | None => 0 end in
     reject StatusTooManyRequests
       (ErrDailyExceeded used (Config.MaxRequestsPerDayIP (config h)))
   else mret ());;
  (* 2. per-token hourly throttle, per network *)
  let network :=
    if bool_decide (Network req = EmptyString) then defaultNetwork h
    else Network req in
  (if bool_decide (Token req = "BOTH")
   then check_throttles env ip network (GetSupportedTokens chain)
   else check_throttle env ip network (Token req));;
  (* the challenge must exist *)
  stored ← redis_get env CGetChallenge
             (GetChallenge (now env) (ChallengeID req));
  storedChallenge ←
    match stored with
    | Some (Some challenge) => mret challenge
    | _ => reject StatusBadRequest ErrInvalidChallenge
    end;
  log CVerifyPoW;;
  (if negb (VerifyPoW (powGenerator h) storedChallenge (Nonce req)
              (Config.PoWDifficulty (config h)))
   then reject StatusBadRequest ErrInvalidPoW
   else mret ());;
  (* delete the challenge to prevent reuse; an error is only logged *)
  redis_set env CDeleteChallenge (DeleteChallenge (ChallengeID req));;
  if bool_decide (Token req = "BOTH") then
    handleBothTokensRequest h env req ip chain chainProvider
  else
    let amountStr := GetDripAmount chainProvider (Token req) in
    let amountFloat := ParseFloat env amountStr in
    let maxHourly := GetMaxTokensPerHour chainProvider (Token req) in
    let maxDaily := GetMaxTokensPerDay chainProvider (Token req) in
    (* global distribution limits *)
    canDistribute ← redis_update env (CTrackGlobalDistribution (Token req))
      (TrackGlobalDistribution (now env) (Token req) amountFloat
         maxHourly maxDaily);
    match canDistribute with
    | None => reject StatusInternalServerError ErrProcessRequest
    | Some false => reject StatusServiceUnavailable ErrFaucetLimit
    | Some true => mret ()
    end;;
    (* minimum balance protection *)
    log (CGetBalance (Token req));;
    currentBalance ←
      match GetBalance chain (GetFaucetAddress chainProvider) (Token req) with
      | None => reject StatusInternalServerError ErrCheckBalance
      | Some balance => mret balance
      end;
    let amountWei := AmountToWei env amountFloat in
    let minBalancePct :=
      (float_of_int (GetMinBalanceProtectPct chainProvider) / 100)%float in
    let currentBalanceFloat := WeiToAmount env currentBalance in
    let minBalanceRequired := (currentBalanceFloat * minBalancePct)%float in
    let balanceAfterTransfer := (currentBalanceFloat - amountFloat)%float in
    (if (balanceAfterTransfer <? minBalanceRequired)%float
     then reject StatusServiceUnavailable
            (ErrLowBalance (Token req) currentBalanceFloat)
     else mret ());;
    tx ← transfer chain (Address req) (Token req) amountWei;
    txHash ←
      match tx with
      | None => reject StatusInternalServerError ErrSendTokens
      | Some txHash => mret txHash
      end;
    (* commits; an error is only logged *)
    redis_set env (CIncrementIPDailyLimit 1)
      (IncrementIPDailyLimit (now env) ip 1);;
    redis_set env (CSetTokenHourlyThrottle (Token req))
      (SetTokenHourlyThrottle (now env) ip network (Token req));;
    mret (FaucetOK {| resp_Success := true;
                      resp_TxHash := txHash;
                      resp_Amount := amountStr;
                      resp_Token := Token req;
                      resp_ExplorerURL := GetExplorerURL chain txHash;
                      resp_Transactions := [];
                      resp_Message := MsgTokensSent |}).

(** [GetStatus]. [address] is [c.Params("address")], [networkQuery] the
    [network] query parameter, empty when the request carries none. *)
Definition GetStatus (h : Handler) (env : Env) (ip : string)
    (address networkQuery : string) : M Response :=
  let network :=
    if bool_decide (networkQuery = EmptyString) then defaultNetwork h
    else networkQuery in
  '(chain, _) ←
    match getChain h network with
    | inl err => reject StatusBadRequest (ErrChain err)
    | inr found => mret found
    end;
  log CValidateAddress;;
  match ValidateAddress chain address with
  | Some err => reject StatusBadRequest (ErrInvalidAddress err)
  | None => mret ()
  end;;
  quota ← redis_get env CGetIPDailyQuota (GetIPDailyQuota (now env) ip);
  '(used, remaining, cooldownEnd) ←
    match quota with
    | None => reject StatusInternalServerError ErrCheckStatus
    | Some q => mret q
    end;
  let canRequest := (0 <? remaining) && bool_decide (cooldownEnd = None) in
  mret (StatusOK {| status_Address := address;
                    status_CanRequest := canRequest;
                    status_NextRequestTime := None;
                    status_RemainingHours := None |}).

End Api.

(** ** chains/ethereum-sepolia *)

Module Ethereum.
Import Strings Chains.

(** [ValidateAddress] (config.go); the regular expression is
    [^0x[0-9a-fA-F]{40}$]. *)
Definition ValidateAddress (address : string) : option string :=
  if bool_decide (address = EmptyString) then Some "address cannot be empty"
  else if negb (HasPrefix address "0x") then Some "address must start with 0x"
  else if negb (Request.isEthereumAddress address)
  then Some "invalid Ethereum address format: must be 0x followed by 40 hex characters"
  else None.

(** [ValidateToken] (config.go). *)
Definition ValidateToken (token : string) : option string :=
  if bool_decide (ToUpper token ≠ "ETH")
  then Some "invalid token: Ethereum faucet only supports ETH"
  else None.

(** [Client] (client.go) as a [Chain]: [balanceAt] and [sendTransaction]
    are what the RPC node answers, [None] for an error. *)
Definition Client (explorerURL : string) (balanceAt : string -> option Z)
    (sendTransaction : string -> Z -> option string) : Chain :=
  {| Chains.ValidateAddress := ValidateAddress;
     Chains.ValidateToken := ValidateToken;
     GetSupportedTokens := ["ETH"];
     GetBalance := fun address token =>
       if bool_decide (token ≠ "ETH") then None else balanceAt address;
     TransferTokens := fun recipient token amount =>
       if bool_decide (token ≠ "ETH") then None
       else sendTransaction recipient amount;
     GetExplorerURL := fun txHash =>
       if bool_decide (explorerURL ≠ EmptyString)
       then String.append explorerURL txHash
       else String.append "https://sepolia.etherscan.io/tx/" txHash;
     GetChainName := "ethereum";
     GetNetworkName := "sepolia" |}.

End Ethereum.

(** ** Reading the handlers' logs and answers *)

Module Reading.
Import Models Chains Cache Api.
Local Open Scope nat_scope.

(** The gate a call belongs to, in the pipeline's order: validation,
    daily quota, hourly throttle, proof of work, distribution cap and
    balance guard, transfer, commit. *)
Definition stage (c : Call) : nat :=
  match c with
  | CValidateAddress | CValidateToken => 0
  | CCheckIPDailyLimit | CGetIPDailyQuota => 1
  | CCheckTokenHourlyThrottle _ => 2
  | CGetChallenge | CVerifyPoW | CDeleteChallenge => 3
  | CTrackGlobalDistribution _ | CGetBalance _ => 4
  | CTransferTokens _ => 5
  | CIncrementIPDailyLimit _ | CSetTokenHourlyThrottle _ => 6
  end.

(** The gate an error text belongs to; [None] for the two answers given
    before any gate (unreadable body, unknown network). *)
Definition error_stage (e : ErrorText) : option nat :=
  match e with
  | ErrInvalidBody | ErrChain _ => None
  | ErrInvalidAddress _ | ErrToken _ => Some 0
  | ErrDailyCooldown _ _ | ErrDailyExceeded _ _ => Some 1
  | ErrCheckRateLimit => Some 1
  | ErrHourlyLimit _ _ _ => Some 2
  | ErrInvalidChallenge | ErrInvalidPoW => Some 3
  | ErrProcessRequest | ErrFaucetLimit | ErrCheckBalance
  | ErrLowBalance _ _ => Some 4
  | ErrSendTokens => Some 5
  | ErrSendBoth _ => Some 4
  | ErrCheckStatus => Some 1
  end.







Definition is_commit (c : Call) : bool :=
  match c with
  | CIncrementIPDailyLimit _ | CSetTokenHourlyThrottle _ => true
  | _ => false
  end.

Definition succeeded (resp : Response) : bool :=
  match resp with
  | FaucetOK _ => true
  | _ => false
  end.

(** The request's token after [strings.ToUpper], and the network its
    throttle keys are built with. *)
Definition token_of (req : FaucetRequest) : string := Strings.ToUpper (Token req).

Definition network_of (h : Handler) (req : FaucetRequest) : string :=
  if bool_decide (Network req = EmptyString) then defaultNetwork h
  else Network req.











(** The three calls the loop of a combined request makes for one token. *)
Definition token_block (token : string) : list Call :=
  [CTrackGlobalDistribution token; CGetBalance token; CTransferTokens token].

(** The amount, in wei, a request transfers of a token. *)
Definition wei_of (env : Env) (provider : ChainProvider) (token : string) : Z :=
  AmountToWei env (ParseFloat env (GetDripAmount provider token)).





(** The store after the throttle commits for [tokens], each written
    unless its call fails. *)
Definition commit_throttles (env : Env) (ip network : string)
    (tokens : list string) (r : RedisClient) : RedisClient :=
  fold_left (fun r token =>
               if redis_fails env (CSetTokenHourlyThrottle token) then r
               else SetTokenHourlyThrottle (now env) ip network token r)
            tokens r.

(** The store after the daily-counter commit of [n] units. *)
Definition commit_daily (env : Env) (ip : string) (n : Z) (r : RedisClient)
    : RedisClient :=
  if redis_fails env (CIncrementIPDailyLimit n) then r
  else IncrementIPDailyLimit (now env) ip n r.

(** How the throttle checks of a request end: every token passes, or the
    first token that does not is a store error or a live marker. *)
Inductive throttle_outcome (env : Env) (ip network : string) (r : RedisClient)
    : list string -> list string -> Response + unit -> Prop :=
| throttle_pass tokens :
    Forall (fun t => redis_fails env (CCheckTokenHourlyThrottle t) = false
                     /\ live_marker (now env)
                          (token_throttle r !! (ip, network, t)) = None) tokens ->
    throttle_outcome env ip network r tokens tokens (inr ())
| throttle_error pre t rest :
    Forall (fun t => redis_fails env (CCheckTokenHourlyThrottle t) = false
                     /\ live_marker (now env)
                          (token_throttle r !! (ip, network, t)) = None) pre ->
    redis_fails env (CCheckTokenHourlyThrottle t) = true ->
    throttle_outcome env ip network r (pre ++ t :: rest) (pre ++ [t])
      (inl (ErrorResponse StatusInternalServerError ErrCheckRateLimit))
| throttle_deny pre t rest next :
    Forall (fun t => redis_fails env (CCheckTokenHourlyThrottle t) = false
                     /\ live_marker (now env)
                          (token_throttle r !! (ip, network, t)) = None) pre ->
    redis_fails env (CCheckTokenHourlyThrottle t) = false ->
    live_marker (now env) (token_throttle r !! (ip, network, t)) = Some next ->
    throttle_outcome env ip network r (pre ++ t :: rest) (pre ++ [t])
      (inl (ErrorResponse StatusTooManyRequests
              (ErrHourlyLimit t network (Z.quot (next - now env) 60 + 1)))).


(** One request as the server receives it, and a run of requests served
    one after the other against the same store. *)
Record Submission := {
  sub_handler : Handler;
  sub_env : Env;
  sub_ip : string;
  sub_body : option FaucetRequest
}.

Definition submit (s : Submission) (r : RedisClient) : St * Response :=
  run (RequestTokens (sub_handler s) (sub_env s) (sub_ip s) (sub_body s))
      (initial r).

Fixpoint serve (subs : list Submission) (r : RedisClient) : RedisClient :=
  match subs with
  | [] => r
  | s :: rest => serve rest (redis (fst (submit s r)))
  end.


(** The store calls a request is decided by. *)
Definition is_check (c : Call) : bool :=
  match c with
  | CCheckIPDailyLimit | CCheckTokenHourlyThrottle _ | CGetChallenge
  | CTrackGlobalDistribution _ => true
  | _ => false
  end.

(** The answers that tell the caller to try again: status 500 with one
    of the handlers' "Failed to ..." texts. *)
Definition is_retry_error (resp : Response) : bool :=
  match resp with
  | ErrorResponse status
      (ErrCheckRateLimit | ErrProcessRequest | ErrCheckBalance
       | ErrSendTokens | ErrSendBoth _ | ErrCheckStatus) =>
      (status =? StatusInternalServerError)%Z
  | _ => false
  end.

(** What the handler answers when a check fails in the store or on the
    chain's node. *)
Definition fault_answer (c : Call) : option Response :=
  match c with
  | CCheckIPDailyLimit | CCheckTokenHourlyThrottle _ =>
      Some (ErrorResponse StatusInternalServerError ErrCheckRateLimit)
  | CGetChallenge => Some (ErrorResponse StatusBadRequest ErrInvalidChallenge)
  | CTrackGlobalDistribution _ =>
      Some (ErrorResponse StatusInternalServerError ErrProcessRequest)
  | CGetBalance _ =>
      Some (ErrorResponse StatusInternalServerError ErrCheckBalance)
  | CTransferTokens _ =>
      Some (ErrorResponse StatusInternalServerError ErrSendTokens)
  | _ => None
  end.

(** The reading of the failure semantics under which a store error during
    any check of a request is answered with a try-again error. *)
Definition store_faults_are_retry_errors : Prop :=
  forall (h : Handler) (env : Env) (ip : string) (req : FaucetRequest)
         (r : RedisClient) (c : Call),
    In c (calls (fst (run (RequestTokens h env ip (Some req)) (initial r)))) ->
    is_check c = true ->
    redis_fails env c = true ->
    is_retry_error (snd (run (RequestTokens h env ip (Some req)) (initial r)))
    = true.

(** A log in which a gate after the hourly throttle was evaluated. *)
Definition passed_throttle_gate (log : list Call) : bool :=
  existsb (fun c => 3 <=? stage c) log.

(** The tokens whose throttle a request is checked against. *)
Definition throttle_tokens (chain : Chain) (req : FaucetRequest) : list string :=
  if bool_decide (token_of req = "BOTH") then GetSupportedTokens chain
  else [token_of req].

(** The marker of (caller, network, token), read at [now]. *)
Definition throttle_marker (now : Z) (ip network token : string)
    (r : RedisClient) : option Z :=
  live_marker now (token_throttle r !! (ip, network, token)).

(** A request of [ip] on [network] that transfers [token]. *)
Definition disburses (s : Submission) (r : RedisClient)
    (ip network token : string) : Prop :=
  sub_ip s = ip
  /\ (exists req, sub_body s = Some req
                  /\ network_of (sub_handler s) req = network)
  /\ In token (map fst (sent (fst (submit s r)))).

(** The reading of the hourly throttle under which two requests of the
    same caller on the same network that both transfer the same token, the
    second served right after the first, are at least one hour apart. *)
Definition disbursements_an_hour_apart : Prop :=
  forall (first again : Submission) (r : RedisClient)
         (ip network token : string),
    disburses first r ip network token ->
    disburses again (redis (fst (submit first r))) ip network token ->
    (now (sub_env first) + hour <= now (sub_env again))%Z.

(** The reading of partial-success charging under which the daily
    counter of the caller grows by one unit per token transferred. *)
Definition partial_success_charges_per_transfer : Prop :=
  forall (h : Handler) (env : Env) (ip : string) (req : FaucetRequest)
         (r : RedisClient) (fr : FaucetResponse) (n : nat) (failed : string),
    token_of req = "BOTH" ->
    snd (run (RequestTokens h env ip (Some req)) (initial r)) = FaucetOK fr ->
    resp_Message fr = MsgPartial n failed ->
    redis_fails env (CIncrementIPDailyLimit 2) = false ->
    daily_used (now env) ip
      (redis (fst (run (RequestTokens h env ip (Some req)) (initial r))))
    = (daily_used (now env) ip r
       + Z.of_nat (length (sent (fst (run (RequestTokens h env ip (Some req))
                                        (initial r))))))%Z.


(** [wp m st Q]: running [m] from [st] ends in a state and an outcome that
    satisfy [Q]. *)
Definition wp {E A} (m : Step E A) (st : St) (Q : St -> E + A -> Prop) : Prop :=
  Q (fst (m st)) (snd (m st)).

(** Two stores that differ in the global distribution counters at most. *)
Definition only_global_changed (r r' : RedisClient) : Prop :=
  maxRequestsPerDayIP r' = maxRequestsPerDayIP r
  /\ ip_daily r' = ip_daily r
  /\ ip_cooldown r' = ip_cooldown r
  /\ token_throttle r' = token_throttle r
  /\ challenges r' = challenges r.

(** The answer of a combined request in which [done] were transferred and
    [failedToken] is what the loop ended with. *)
Definition both_answer (txs : list TransactionInfo) (failedToken : string)
    : Response :=
  if (0 <? length txs)%nat then
    FaucetOK {| resp_Success := true; resp_TxHash := EmptyString;
                resp_Amount := EmptyString; resp_Token := EmptyString;
                resp_ExplorerURL := EmptyString; resp_Transactions := txs;
                resp_Message :=
                  if bool_decide (failedToken ≠ EmptyString)
                  then MsgPartial (length txs) failedToken else MsgBothSent |}
  else ErrorResponse StatusInternalServerError (ErrSendBoth failedToken).

End Reading.

(** ** Requests that overlap

    The handlers of [Api] run a request from its first call to its answer.
    The server runs each request on its own, and the calls of two requests
    on the same store can take turns. Here [RequestTokens] is written
    once more, call by call, so that a request can be left after any call
    and taken up again; [follows] relates the two. *)

Module Overlap.
Import Models Chains Cache Api Reading.

(** A request between two of its calls: it has been answered, or it is
    about to make a call, which changes the state, and to go on from what
    the call found. *)
Inductive Task : Type :=
| Answered (resp : Response)
| Calling (step : St -> St) (next : St -> Task).

(** A handler that can be left after any of its calls and taken up again:
    it is given what to do with its result. *)
Definition Resumable (A : Type) : Type := (A -> Task) -> Task.

#[local] Instance Resumable_ret : MRet Resumable := fun A a k => k a.
#[local] Instance Resumable_bind : MBind Resumable :=
  fun A B f m k => m (fun a => f a k).

(** Leaving for [t]: an answer, or the [break] of a loop. *)
Definition stop {A} (t : Task) : Resumable A := fun _ => t.

Definition reject {A} (status : Z) (e : ErrorText) : Resumable A :=
  stop (Answered (ErrorResponse status e)).

(** One call of [Api], made in one step. *)
Definition call {A} (m : Step Response A) : Resumable A := fun k =>
  Calling (fun st => fst (m st))
          (fun st => match snd (m st) with
                     | inl resp => Answered resp
                     | inr a => k a
                     end).

Definition check_throttle (env : Env) (ip network token : string)
    : Resumable unit :=
  res ← call (redis_get env (CCheckTokenHourlyThrottle token)
                (CheckTokenHourlyThrottle (now env) ip network token));
  match res with
  | None => reject StatusInternalServerError ErrCheckRateLimit
  | Some (canRequestToken, nextTime) =>
      if negb canRequestToken then
        match nextTime with
        | None => stop (Answered Panic)
        | Some next =>
            let minutesRemaining := Z.quot (next - now env) 60 + 1 in
            reject StatusTooManyRequests
                   (ErrHourlyLimit token network minutesRemaining)
        end
      else mret ()
  end.

Fixpoint check_throttles (env : Env) (ip network : string)
    (tokens : list string) : Resumable unit :=
  match tokens with
  | [] => mret ()
  | token :: rest =>
      check_throttle env ip network token;;
      check_throttles env ip network rest
  end.

(** The body of the loop of [handleBothTokensRequest] for one token;
    [break] is what follows the loop. *)
Definition both_iteration (env : Env) (req : FaucetRequest)
    (chain : Chain) (chainProvider : ChainProvider) (token : string)
    (break : Task) : Resumable TransactionInfo :=
  let amountStr := GetDripAmount chainProvider token in
  let amountFloat := ParseFloat env amountStr in
  let maxHourly := GetMaxTokensPerHour chainProvider token in
  let maxDaily := GetMaxTokensPerDay chainProvider token in
  canDistribute ← call (redis_update env (CTrackGlobalDistribution token)
    (TrackGlobalDistribution (now env) token amountFloat maxHourly maxDaily));
  match canDistribute with
  | None => stop break
  | Some false => stop break
  | Some true =>
      call (log (CGetBalance token));;
      match GetBalance chain (GetFaucetAddress chainProvider) token with
      | None => stop break
      | Some currentBalance =>
          let amountWei := AmountToWei env amountFloat in
          let minBalancePct :=
            (float_of_int (GetMinBalanceProtectPct chainProvider) / 100)%float in
          let currentBalanceFloat := WeiToAmount env currentBalance in
          let minBalanceRequired := (currentBalanceFloat * minBalancePct)%float in
          let balanceAfterTransfer := (currentBalanceFloat - amountFloat)%float in
          if (balanceAfterTransfer <? minBalanceRequired)%float then stop break
          else
            tx ← call (transfer chain (Address req) token amountWei);
            match tx with
            | None => stop break
            | Some txHash =>
                mret {| tx_Token := token; tx_Amount := amountStr;
                        tx_TxHash := txHash;
                        tx_ExplorerURL := GetExplorerURL chain txHash |}
            end
      end
  end.

Fixpoint both_loop (env : Env) (req : FaucetRequest) (chain : Chain)
    (chainProvider : ChainProvider) (tokens : list string)
    (transactions : list TransactionInfo)
    : Resumable (list TransactionInfo * string) :=
  match tokens with
  | [] => mret (transactions, EmptyString)
  | token :: rest => fun k =>
      both_iteration env req chain chainProvider token (k (transactions, token))
        (fun tx =>
           both_loop env req chain chainProvider rest (transactions ++ [tx]) k)
  end.

Fixpoint set_throttles (env : Env) (ip network : string)
    (transactions : list TransactionInfo) : Resumable unit :=
  match transactions with
  | [] => mret ()
  | tx :: rest =>
      call (redis_set env (CSetTokenHourlyThrottle (tx_Token tx))
              (SetTokenHourlyThrottle (now env) ip network (tx_Token tx)));;
      set_throttles env ip network rest
  end.

Definition handleBothTokensRequest (h : Handler) (env : Env)
    (req : FaucetRequest) (ip : string) (chain : Chain)
    (chainProvider : ChainProvider) : Resumable Response :=
  let tokens := GetSupportedTokens chain in
  '(transactions, failedToken) ←
    both_loop env req chain chainProvider tokens [];
  if (0 <? length transactions)%nat then
    call (redis_set env (CIncrementIPDailyLimit 2)
            (IncrementIPDailyLimit (now env) ip 2));;
    let network :=
      if bool_decide (Network req = EmptyString) then defaultNetwork h
      else Network req in
    set_throttles env ip network transactions;;
    let message :=
      if bool_decide (failedToken ≠ EmptyString)
      then MsgPartial (length transactions) failedToken
      else MsgBothSent in
    mret (FaucetOK {| resp_Success := true;
                      resp_TxHash := EmptyString;
                      resp_Amount := EmptyString;
                      resp_Token := EmptyString;
                      resp_ExplorerURL := EmptyString;
                      resp_Transactions := transactions;
                      resp_Message := message |})
  else
    reject StatusInternalServerError (ErrSendBoth failedToken).

(** [RequestTokens], call by call. *)
Definition RequestTokens (h : Handler) (env : Env) (ip : string)
    (body : option FaucetRequest) : Resumable Response :=
  req ← match body with
        | None => reject StatusBadRequest ErrInvalidBody
        | Some req => mret req
        end;
  '(chain, chainProvider) ←
    match getChain h (Network req) with
    | inl err => reject StatusBadRequest (ErrChain err)
    | inr found => mret found
    end;
  call (log CValidateAddress);;
  match ValidateAddress chain (Address req) with
  | Some err => reject StatusBadRequest (ErrInvalidAddress err)
  | None => mret ()
  end;;
  let req := with_Token req (Strings.ToUpper (Token req)) in
  (if bool_decide (Token req ≠ "BOTH") then
     call (log CValidateToken);;
     match ValidateToken chain (Token req) with
     | Some err => reject StatusBadRequest (ErrToken err)
     | None => mret ()
     end
   else mret ());;
  daily ← call (redis_get env CCheckIPDailyLimit
                  (CheckIPDailyLimit (now env) ip));
  '(canRequest, currentCount, cooldownEnd) ←
    match daily with
    | None => reject StatusInternalServerError ErrCheckRateLimit
    | Some d => mret d
    end;
  match cooldownEnd with
  | Some cooldownEnd =>
      if negb canRequest then
        let remaining := cooldownEnd - now env in
        let hours := Z.quot remaining 3600 in
        let minutes := Z.rem (Z.quot remaining 60) 60 in
        reject StatusTooManyRequests
          (ErrDailyCooldown (if 0 <? hours then Some hours else None) minutes)
      else mret ()
  | None => mret ()
  end;;
  let requestCost := if bool_decide (Token req = "BOTH") then 2 else 1 in
  (if negb canRequest
      || (Config.MaxRequestsPerDayIP (config h) <? currentCount + requestCost)
   then
     quota ← call (redis_get env CGetIPDailyQuota
                     (GetIPDailyQuota (now env) ip));
     let used := match quota with Some (used, _, _) => used | None => 0 end in
     reject StatusTooManyRequests
       (ErrDailyExceeded used (Config.MaxRequestsPerDayIP (config h)))
   else mret ());;
  let network :=
    if bool_decide (Network req = EmptyString) then defaultNetwork h
    else Network req in
  (if bool_decide (Token req = "BOTH")
   then check_throttles env ip network (GetSupportedTokens chain)
   else check_throttle env ip network (Token req));;
  stored ← call (redis_get env CGetChallenge
                   (GetChallenge (now env) (ChallengeID req)));
  storedChallenge ←
    match stored with
    | Some (Some challenge) => mret challenge
    | _ => reject StatusBadRequest ErrInvalidChallenge
    end;
  call (log CVerifyPoW);;
  (if negb (VerifyPoW (powGenerator h) storedChallenge (Nonce req)
              (Config.PoWDifficulty (config h)))
   then reject StatusBadRequest ErrInvalidPoW
   else mret ());;
  call (redis_set env CDeleteChallenge (DeleteChallenge (ChallengeID req)));;
  if bool_decide (Token req = "BOTH") then
    handleBothTokensRequest h env req ip chain chainProvider
  else
    let amountStr := GetDripAmount chainProvider (Token req) in
    let amountFloat := ParseFloat env amountStr in
    let maxHourly := GetMaxTokensPerHour chainProvider (Token req) in
    let maxDaily := GetMaxTokensPerDay chainProvider (Token req) in
    canDistribute ← call (redis_update env (CTrackGlobalDistribution (Token req))
      (TrackGlobalDistribution (now env) (Token req) amountFloat
         maxHourly maxDaily));
    match canDistribute with
    | None => reject StatusInternalServerError ErrProcessRequest
    | Some false => reject StatusServiceUnavailable ErrFaucetLimit
    | Some true => mret ()
    end;;
    call (log (CGetBalance (Token req)));;
    currentBalance ←
      match GetBalance chain (GetFaucetAddress chainProvider) (Token req) with
      | None => reject StatusInternalServerError ErrCheckBalance
      | Some balance => mret balance
      end;
    let amountWei := AmountToWei env amountFloat in
    let minBalancePct :=
      (float_of_int (GetMinBalanceProtectPct chainProvider) / 100)%float in
    let currentBalanceFloat := WeiToAmount env currentBalance in
    let minBalanceRequired := (currentBalanceFloat * minBalancePct)%float in
    let balanceAfterTransfer := (currentBalanceFloat - amountFloat)%float in
    (if (balanceAfterTransfer <? minBalanceRequired)%float
     then reject StatusServiceUnavailable
            (ErrLowBalance (Token req) currentBalanceFloat)
     else mret ());;
    tx ← call (transfer chain (Address req) (Token req) amountWei);
    txHash ←
      match tx with
      | None => reject StatusInternalServerError ErrSendTokens
      | Some txHash => mret txHash
      end;
    call (redis_set env (CIncrementIPDailyLimit 1)
            (IncrementIPDailyLimit (now env) ip 1));;
    call (redis_set env (CSetTokenHourlyThrottle (Token req))
            (SetTokenHourlyThrottle (now env) ip network (Token req)));;
    mret (FaucetOK {| resp_Success := true;
                      resp_TxHash := txHash;
                      resp_Amount := amountStr;
                      resp_Token := Token req;
                      resp_ExplorerURL := GetExplorerURL chain txHash;
                      resp_Transactions := [];
                      resp_Message := MsgTokensSent |}).

(** A request as the server takes it up: answering ends it. *)
Definition request (h : Handler) (env : Env) (ip : string)
    (body : option FaucetRequest) : Task :=
  RequestTokens h env ip body Answered.

(** A request served without a pause. *)
Fixpoint finish (t : Task) (st : St) : St * Response :=
  match t with
  | Answered resp => (st, resp)
  | Calling step next => finish (next st) (step st)
  end.

(** Two requests on one store, making their calls in turns: [true] lets
    the first make its next call, [false] the second. *)
Fixpoint overlap (turns : list bool) (t1 t2 : Task) (st : St)
    : St * (Task * Task) :=
  match turns with
  | [] => (st, (t1, t2))
  | true :: turns =>
      match t1 with
      | Answered _ => overlap turns t1 t2 st
      | Calling step next => overlap turns (next st) t2 (step st)
      end
  | false :: turns =>
      match t2 with
      | Answered _ => overlap turns t1 t2 st
      | Calling step next => overlap turns t1 (next st) (step st)
      end
  end.

(** [follows m' m]: the resumable [m'], when it is not paused, does what
    the step [m] does. *)
Definition follows {A} (m' : Resumable A) (m : Step Response A) : Prop :=
  forall (k : A -> Task) (st : St),
    finish (m' k) st
    = match m st with
      | (st', inl resp) => (st', resp)
      | (st', inr a) => finish (k a) st'
      end.

(** Twelve calls each, in lockstep. *)
Definition lockstep : list bool := concat (repeat [true; false] 12).

(** The reading of the hourly throttle under which two single-token
    requests of one caller for the same token on the same network, less
    than one hour apart, are never both served, in whatever turns they make
    their calls on a store that does not fail. *)
Definition one_disbursement_per_hour : Prop :=
  forall (h : Handler) (env1 env2 : Env) (ip : string)
         (req1 req2 : FaucetRequest) (r : RedisClient) (turns : list bool)
         (st' : St) (resp1 resp2 : Response),
    redis_fails env1 = (fun _ => false) ->
    redis_fails env2 = (fun _ => false) ->
    network_of h req1 = network_of h req2 ->
    token_of req1 = token_of req2 ->
    token_of req1 ≠ "BOTH" ->
    (now env1 <= now env2 < now env1 + hour)%Z ->
    overlap turns (request h env1 ip (Some req1))
      (request h env2 ip (Some req2)) (initial r)
    = (st', (Answered resp1, Answered resp2)) ->
    succeeded resp1 && succeeded resp2 = false.

End Overlap.

(** ** The command line: [pkg/cli/commands/root.go] and [request.go]

    What the commands print is left out; errors carry the data their
    text is formatted from. *)

Module Cli.
Import Strings Request Models.

(** Strings of 7-bit characters. On these Go's [strings.ToLower] and
    [strings.ToUpper] are the functions of [Strings], and a [range] over
    the string visits its bytes. *)
Definition is_ascii (s : string) : bool :=
  all_chars (fun c => Z.of_N (N_of_ascii c) <? 128) s.

(** The flags, which the commands keep in package variables. *)
Record Flags := {
  apiURL : string;
  network : string;
  verbose : bool;
  jsonOut : bool;
  token : string;
  both : bool;
  skipVerification : bool
}.

Definition with_network (f : Flags) (n : string) : Flags :=
  {| apiURL := apiURL f; network := n; verbose := verbose f;
     jsonOut := jsonOut f; token := token f; both := both f;
     skipVerification := skipVerification f |}.

Definition with_token (f : Flags) (t : string) (b : bool) : Flags :=
  {| apiURL := apiURL f; network := network f; verbose := verbose f;
     jsonOut := jsonOut f; token := t; both := b;
     skipVerification := skipVerification f |}.

Definition networkURLs : gmap string string :=
  list_to_map
    [("starknet", "https://disgusted-melodee-aayushgiri-575fc666.koyeb.app");
     ("ethereum", "https://disgusted-melodee-aayushgiri-575fc666.koyeb.app")].

Definition networkAliases : gmap string string :=
  list_to_map
    [("sn", "starknet"); ("stark", "starknet"); ("sn-sep", "starknet");
     ("eth", "ethereum"); ("eth-sep", "ethereum")].

(** [resolveNetwork]. *)
Definition resolveNetwork (n : string) : string :=
  let n := ToLower n in
  match networkAliases !! n with
  | Some alias => alias
  | None => n
  end.

Inductive CliError :=
| ErrNetworkRequired
| ErrInvalidNetwork (network : string)
| ErrMismatch (address selected detected : string) (length : nat)
| ErrNoPrefix (address : string)
| ErrNonHex (position : nat) (address : string)
| ErrUnsupportedNetwork (network : string)
| ErrStarknetEmpty (address : string)
| ErrStarknetTooLong (length : nat) (address : string)
| ErrLooksLikeEthereum (address : string)
| ErrLooksLikeStarknet (length : nat) (address : string)
| ErrEthereumLength (length : nat) (address : string)
| ErrChecksum (address expected lower : string)
| ErrInvalidTokenStarknet (token : string)
| ErrInvalidTokenEthereum (token : string)
| ErrBothOnlyStarknet
| ErrVerification (cause : string)
| ErrVerificationFailed
| ErrApi (cause : string).

(** [ValidateNetwork]: the resolved name is written back to the flag
    before it is checked. *)
Definition ValidateNetwork (f : Flags) : Flags * option CliError :=
  if bool_decide (network f = EmptyString) then (f, Some ErrNetworkRequired)
  else
    let f := with_network f (resolveNetwork (network f)) in
    if existsb (fun valid => bool_decide (network f = valid))
               ["starknet"; "ethereum"]
    then (f, None)
    else (f, Some (ErrInvalidNetwork (network f))).

(** [GetAPIURL]; a missing key of a Go map reads as the empty string. *)
Definition GetAPIURL (f : Flags) : string :=
  if bool_decide (apiURL f ≠ EmptyString) then apiURL f
  else match networkURLs !! resolveNetwork (network f) with
       | Some url => url
       | None => default EmptyString (networkURLs !! "starknet")
       end.

Definition GetNetwork (f : Flags) : string := resolveNetwork (network f).

(** [detectAddressNetwork]; [None] is a run-time panic of [address[2:]].
    The loop ranges over runes: a rune that is not a single hex byte
    starts at the first byte that is not a hex digit. *)
Definition detectAddressNetwork (address : string) : option string :=
  if negb (HasPrefix address "0x") then Some EmptyString
  else
    hexPart ← slice_from 2 address;
    if negb (all_chars isHexChar hexPart) then Some EmptyString
    else if (String.length hexPart =? 40)%nat then Some "ethereum"
    else if (40 <? String.length hexPart)%nat
            && (String.length hexPart <=? 64)%nat then Some "starknet"
    else if (String.length hexPart <? 40)%nat then Some "starknet"
    else Some EmptyString.

(** The byte index of the first character that is not a hex digit. *)
Fixpoint first_non_hex (i : nat) (s : string) : option nat :=
  match s with
  | EmptyString => None
  | String c rest => if isHexChar c then first_non_hex (S i) rest else Some i
  end.

(** [validateStarknetAddress]. *)
Definition validateStarknetAddress (address hexPart : string) : option CliError :=
  if (String.length hexPart =? 0)%nat then Some (ErrStarknetEmpty address)
  else if (64 <? String.length hexPart)%nat
  then Some (ErrStarknetTooLong (String.length hexPart) address)
  else if (String.length hexPart =? 40)%nat then Some (ErrLooksLikeEthereum address)
  else None.

(** [validateEthereumAddress]; the outer [None] is a run-time panic inside
    [toEIP55Checksum]. *)
Definition validateEthereumAddress (address hexPart : string)
    : option (option CliError) :=
  if negb (String.length hexPart =? 40)%nat then
    if (40 <? String.length hexPart)%nat && (String.length hexPart <=? 64)%nat
    then Some (Some (ErrLooksLikeStarknet (String.length hexPart) address))
    else Some (Some (ErrEthereumLength (String.length hexPart) address))
  else if hasMixedCase hexPart then
    valid ← isValidEIP55Checksum address;
    if negb valid then
      correctChecksum ← toEIP55Checksum address;
      Some (Some (ErrChecksum address correctChecksum (ToLower address)))
    else Some None
  else Some None.

(** [validateAddress]; the outer [None] is a run-time panic. *)
Definition validateAddress (address network : string) : option (option CliError) :=
  if negb (HasPrefix address "0x") then Some (Some (ErrNoPrefix address))
  else
    hexPart ← slice_from 2 address;
    match first_non_hex 0 hexPart with
    | Some i => Some (Some (ErrNonHex (i + 2) address))
    | None =>
        if bool_decide (network = "starknet")
        then Some (validateStarknetAddress address hexPart)
        else if bool_decide (network = "ethereum")
        then validateEthereumAddress address hexPart
        else Some (Some (ErrUnsupportedNetwork network))
    end.

(** [validateToken]. *)
Definition validateToken (token network : string) : option CliError :=
  if bool_decide (network = "starknet") then
    if bool_decide (token ≠ "ETH") && bool_decide (token ≠ "STRK")
    then Some (ErrInvalidTokenStarknet token) else None
  else if bool_decide (network = "ethereum") then
    if bool_decide (token ≠ "ETH") then Some (ErrInvalidTokenEthereum token)
    else None
  else Some (ErrUnsupportedNetwork network).

(** The answer of [GET /challenge] as the client reads it. *)
Record ChallengeResponse := {
  cr_ChallengeID : string;
  cr_Challenge : string;
  cr_Difficulty : Z
}.

(** What a command talks to: the person at the terminal, the proof-of-work
    solver and the server behind a URL. Each call may change the world [W]
    and fails with an error text or returns a value. *)
Record World (W : Type) := {
  AskQuestionWithRetries : nat -> W -> W * (string + bool);
  GetChallenge : string -> W -> W * (string + ChallengeResponse);
  Solve : string -> Z -> W -> W * (string + Z);
  RequestTokens : string -> FaucetRequest -> W -> W * (string + FaucetResponse)
}.
Arguments AskQuestionWithRetries {W}.
Arguments GetChallenge {W}.
Arguments Solve {W}.
Arguments RequestTokens {W}.

(** The state of a run: the world, and the requests posted so far with the
    URL each went to. *)
Record Run (W : Type) := {
  world : W;
  posted : list (string * FaucetRequest)
}.
Arguments world {W}.
Arguments posted {W}.

(** [requestSingleToken]; [url] is the client's base URL. *)
Definition requestSingleToken {W} (env : World W) (f : Flags) (url : string)
    (address token : string) (st : Run W) : Run W * option CliError :=
  let '(w, challenge) := GetChallenge env url (world st) in
  match challenge with
  | inl err => ({| world := w; posted := posted st |}, Some (ErrApi err))
  | inr challengeResp =>
      let '(w, solved) :=
        if skipVerification f then (w, inr (-1))
        else Solve env (cr_Challenge challengeResp) (cr_Difficulty challengeResp) w in
      match solved with
      | inl err => ({| world := w; posted := posted st |}, Some (ErrApi err))
      | inr nonce =>
          let req := {| Address := address;
                        Token := token;
                        Network := GetNetwork f;
                        ChallengeID := cr_ChallengeID challengeResp;
                        Nonce := nonce |} in
          let '(w, answer) := RequestTokens env url req w in
          ({| world := w; posted := posted st ++ [(url, req)] |},
           match answer with
           | inl err => Some (ErrApi err)
           | inr _ => None
           end)
      end
  end.

(** [runRequest]; [address] is [args[0]]. The outer [None] of the result
    is a run-time panic. *)
Definition runRequest {W} (env : World W) (f : Flags) (address : string)
    (st : Run W) : option (Run W * option CliError) :=
  let '(f, err) := ValidateNetwork f in
  match err with
  | Some e => Some (st, Some e)
  | None =>
      let selectedNetwork := GetNetwork f in
      detectedNetwork ← detectAddressNetwork address;
      if bool_decide (detectedNetwork ≠ EmptyString)
         && bool_decide (detectedNetwork ≠ selectedNetwork)
      then Some (st, Some (ErrMismatch address selectedNetwork detectedNetwork
                             (String.length address)))
      else
        checked ← validateAddress address selectedNetwork;
        match checked with
        | Some e => Some (st, Some e)
        | None =>
            let f :=
              if bool_decide (token f = EmptyString) then
                with_token f
                  (if bool_decide (selectedNetwork = "starknet") then "STRK"
                   else "ETH")
                  (both f)
              else f in
            let f := with_token f (ToUpper (token f)) (both f) in
            let f :=
              if bool_decide (token f = "BOTH") then with_token f (token f) true
              else f in
            match (if negb (both f) then validateToken (token f) selectedNetwork
                   else None) with
            | Some e => Some (st, Some e)
            | None =>
                if both f && bool_decide (selectedNetwork ≠ "starknet")
                then Some (st, Some ErrBothOnlyStarknet)
                else
                  let url := GetAPIURL f in
                  let '(st, verified) :=
                    if negb (jsonOut f) && negb (skipVerification f) then
                      let '(w, answer) := AskQuestionWithRetries env 3 (world st) in
                      ({| world := w; posted := posted st |},
                       match answer with
                       | inl err => Some (ErrVerification err)
                       | inr correct =>
                           if negb correct then Some ErrVerificationFailed
                           else None
                       end)
                    else (st, None) in
                  match verified with
                  | Some e => Some (st, Some e)
                  | None =>
                      if both f then
                        let '(st, err) :=
                          requestSingleToken env f url address "STRK" st in
                        match err with
                        | Some e => Some (st, Some e)
                        | None =>
                            Some (requestSingleToken env f url address "ETH" st)
                        end
                      else Some (requestSingleToken env f url address (token f) st)
                  end
            end
        end
  end.

(** What [runRequest] may post for [address]: a request to the URL of
    [GetAPIURL], for that address on one of the two networks, with an
    address and a token that [validateAddress] and [validateToken] accept
    for the network, and with nonce -1 under [--skip-verification8922]. *)
Definition postable (f : Flags) (address : string)
    (entry : string * FaucetRequest) : Prop :=
  fst entry = GetAPIURL f
  /\ Address (snd entry) = address
  /\ (Network (snd entry) = "starknet" \/ Network (snd entry) = "ethereum")
  /\ validateAddress address (Network (snd entry)) = Some None
  /\ validateToken (Token (snd entry)) (Network (snd entry)) = None
  /\ (skipVerification f = true -> Nonce (snd entry) = -1).

(** The tokens of posted requests, in the order they were posted. *)
Definition posted_tokens (new : list (string * FaucetRequest)) : list string :=
  map (fun entry => Token (snd entry)) new.

(** The errors [runRequest] can end with: not the two "looks like an
    address of the other network" hints, not "unsupported network", and
    "wrong length" for more than 64 characters only. *)
Definition reportable (e : CliError) : Prop :=
  match e with
  | ErrLooksLikeEthereum _ | ErrLooksLikeStarknet _ _
  | ErrUnsupportedNetwork _ => False
  | ErrEthereumLength n _ => (64 < n)%nat
  | _ => True
  end.

(** The same collaborators with another person at the terminal, or with
    another solver. *)
Definition with_person {W} (env : World W)
    (ask : nat -> W -> W * (string + bool)) : World W :=
  {| AskQuestionWithRetries := ask; GetChallenge := GetChallenge env;
     Solve := Solve env; RequestTokens := RequestTokens env |}.

Definition with_solver {W} (env : World W)
    (solve : string -> Z -> W -> W * (string + Z)) : World W :=
  {| AskQuestionWithRetries := AskQuestionWithRetries env;
     GetChallenge := GetChallenge env;
     Solve := solve; RequestTokens := RequestTokens env |}.

End Cli.

(** ** The server's start: [main] and the handler constructors
    ([cmd/server/main.go], [internal/api/handlers.go]) *)

Module Server.
Import Models Chains Api.

(** [NewMultiChainHandler]. [range_order] is the order in which [range]
    visits the names of [chainRegistry], which Go leaves open. *)
Definition NewMultiChainHandler (cfg : Config.Config)
    (chainRegistry : gmap string Chain)
    (providerRegistry : gmap string ChainProvider)
    (powGenerator : Generator) (range_order : list string) : Handler :=
  let defaultNetwork :=
    match chainRegistry !! "starknet" with
    | Some _ => "starknet"
    | None =>
        match chainRegistry !! "ethereum" with
        | Some _ => "ethereum"
        | None =>
            match range_order with
            | name :: _ => name
            | [] => EmptyString
            end
        end
    end in
  {| config := cfg;
     chains := chainRegistry;
     providers := providerRegistry;
     powGenerator := powGenerator;
     defaultNetwork := defaultNetwork |}.

(** [NewHandler], the constructor for a single chain. *)
Definition NewHandler (cfg : Config.Config) (chain : Chain)
    (chainProvider : ChainProvider) (powGenerator : Generator) : Handler :=
  let chainName := GetChainName chain in
  {| config := cfg;
     chains := {[ chainName := chain ]};
     providers := {[ chainName := chainProvider ]};
     powGenerator := powGenerator;
     defaultNetwork := chainName |}.

(** The two registries as [main] fills them: [starknet] and [ethereum]
    are the client and the configuration of a chain whose [LoadConfig] and
    [NewClient] both succeeded, [None] otherwise. *)
Definition registries (starknet ethereum : option (Chain * ChainProvider))
    : gmap string Chain * gmap string ChainProvider :=
  let registry := (∅, ∅) in
  let registry :=
    match starknet with
    | Some (starknetClient, starknetCfg) =>
        (<["starknet" := starknetClient]> (fst registry),
         <["starknet" := starknetCfg]> (snd registry))
    | None => registry
    end in
  match ethereum with
  | Some (ethereumClient, ethereumCfg) =>
      (<["ethereum" := ethereumClient]> (fst registry),
       <["ethereum" := ethereumCfg]> (snd registry))
  | None => registry
  end.

(** [main] up to the handler it serves; [None] is the fatal exit when no
    chain is configured. The configuration is taken to be loaded and the
    store to be reachable: [main] exits otherwise. *)
Definition main (cfg : Config.Config)
    (starknet ethereum : option (Chain * ChainProvider))
    (powGenerator : Generator) (range_order : list string) : option Handler :=
  let '(chainRegistry, providerRegistry) := registries starknet ethereum in
  if (size chainRegistry =? 0)%nat then None
  else Some (NewMultiChainHandler cfg chainRegistry providerRegistry
               powGenerator range_order).

(** A request with its network field set. *)
Definition with_Network (req : FaucetRequest) (n : string) : FaucetRequest :=
  {| Address := Address req; Token := Token req; Network := n;
     ChallengeID := ChallengeID req; Nonce := Nonce req |}.

End Server.

(** ** Loading the configuration: [internal/config/config.go] *)

Module ConfigLoad.
Import Config.

(** The process environment and the file system as [Load] meets them:
    [Getenv] after [godotenv.Load], [Stat] true for a path that exists,
    [Executable] and [Getwd] with [None] for an error, the library
    functions [filepath.Join] and [filepath.Dir], and [ReadFile] and
    [json.Unmarshal] into an empty [Config] with their error text on the
    left. *)
Record Os := {
  Getenv : string -> string;
  Stat : string -> bool;
  Executable : option string;
  Getwd : option string;
  Join : list string -> string;
  Dir : string -> string;
  ReadFile : string -> string + string;
  Unmarshal : string -> string + Config
}.

Inductive LoadError :=
| ErrFindConfigFile (configFileName : string)
    (* "failed to find config file: %s not found in config/ directory" *)
| ErrReadFile (configPath cause : string)       (* "failed to read %s: %w" *)
| ErrParse (configPath cause : string)          (* "failed to parse %s: %w" *)
| ErrValidate (e : ConfigError).

(** [getEnv]. *)
Definition getEnv (os : Os) (key defaultValue : string) : string :=
  if bool_decide (Getenv os key ≠ EmptyString) then Getenv os key
  else defaultValue.

(** [FindConfigFile]; on the left, the file name of the error text. *)
Definition FindConfigFile (os : Os) (isTestMode : bool) : string + string :=
  let configFileName := if isTestMode then "config.test.json" else "config.json" in
  let configPath := Join os ["config"; configFileName] in
  if Stat os configPath then inr configPath
  else
    let atExecutable :=
      match Executable os with
      | Some execPath =>
          let configPath := Join os [Dir os execPath; "config"; configFileName] in
          if Stat os configPath then Some configPath else None
      | None => None
      end in
    match atExecutable with
    | Some configPath => inr configPath
    | None =>
        let atWorkingDirectory :=
          match Getwd os with
          | Some wd =>
              let configPath := Join os [wd; "config"; configFileName] in
              if Stat os configPath then Some configPath else None
          | None => None
          end in
        match atWorkingDirectory with
        | Some configPath => inr configPath
        | None =>
            if negb isTestMode && Stat os "config.json" then inr "config.json"
            else inl configFileName
        end
    end.

Definition with_RedisURL (c : Config) (url : string) : Config :=
  {| Server := Server c; PoW := PoW c; RateLimits := RateLimits c;
     RedisURL := url |}.

(** [Load]. *)
Definition Load (os : Os) : LoadError + Config :=
  let isTestMode := bool_decide (getEnv os "FAUCET_TEST_MODE" "false" = "true") in
  match FindConfigFile os isTestMode with
  | inl configFileName => inl (ErrFindConfigFile configFileName)
  | inr configPath =>
      match ReadFile os configPath with
      | inl cause => inl (ErrReadFile configPath cause)
      | inr data =>
          match Unmarshal os data with
          | inl cause => inl (ErrParse configPath cause)
          | inr config =>
              let config :=
                with_RedisURL config
                  (getEnv os "REDIS_URL" "redis://localhost:6379") in
              match Validate config with
              | inl e => inl (ErrValidate e)
              | inr config => inr config
              end
          end
      end
  end.

End ConfigLoad.

(** ** chains/ethereum-sepolia: what [Module Ethereum] leaves out *)

Module EthereumSepolia.
Import Strings.

(** [NormalizeAddress] (config.go). *)
Definition NormalizeAddress (address : string) : string := ToLower address.

End EthereumSepolia.

(** ** The reporting handlers: [GetInfo] and [GetQuota]
    ([internal/api/handlers.go]) *)

Module Reports.
Import Strings Models Chains Cache Api.

Record BalanceInfo := { balance_STRK : string; balance_ETH : string }.

Record LimitInfo := {
  StrkPerRequest : string;
  EthPerRequest : string;
  DailyRequestsPerIP : Z;
  TokenThrottleHours : Z
}.

Record PoWInfo := { Enabled : bool; Difficulty : Z }.

Record InfoResponse := {
  info_Network : string;
  info_Limits : LimitInfo;
  info_PoW : PoWInfo;
  info_FaucetBalance : BalanceInfo;
  info_AvailableNetworks : list string
}.

(** The loop of [GetInfo] over the supported tokens. [sprintf n x] is
    [fmt.Sprintf] with the format [%.nf]. *)
Definition info_balances (env : Env) (sprintf : nat -> float -> string)
    (chain : Chain) (chainProvider : ChainProvider)
    (supportedTokens : list string) : gmap string string :=
  fold_left
    (fun balances token =>
       match GetBalance chain (GetFaucetAddress chainProvider) token with
       | None => <[token := "0"]> balances
       | Some balance =>
           if bool_decide (token = "ETH")
           then <[token := sprintf 4%nat (WeiToAmount env balance)]> balances
           else <[token := sprintf 2%nat (WeiToAmount env balance)]> balances
       end)
    supportedTokens ∅.

(** What the loop leaves for a token the chain lists. *)
Definition found_balance (env : Env) (sprintf : nat -> float -> string)
    (chain : Chain) (chainProvider : ChainProvider) (token : string) : string :=
  match GetBalance chain (GetFaucetAddress chainProvider) token with
  | None => "0"
  | Some balance =>
      if bool_decide (token = "ETH")
      then sprintf 4%nat (WeiToAmount env balance)
      else sprintf 2%nat (WeiToAmount env balance)
  end.

(** [GetInfo]. [networkQuery] is the [network] query parameter, empty
    when the request carries none; [range_order] is the order in which
    [range] visits the names of the handler's chains. An error of
    [getChain] is answered with status 400. *)
Definition GetInfo (h : Handler) (env : Env)
    (sprintf : nat -> float -> string) (range_order : list string)
    (networkQuery : string) : ChainLookupError + InfoResponse :=
  let network :=
    if bool_decide (networkQuery = EmptyString) then defaultNetwork h
    else networkQuery in
  match getChain h network with
  | inl err => inl err
  | inr (chain, chainProvider) =>
      let supportedTokens := GetSupportedTokens chain in
      let balances := info_balances env sprintf chain chainProvider supportedTokens in
      let strk := default EmptyString (balances !! "STRK") in
      let eth := default EmptyString (balances !! "ETH") in
      inr {| info_Network := GetNetworkName chain;
             info_Limits :=
               {| StrkPerRequest := GetDripAmount chainProvider "STRK";
                  EthPerRequest := GetDripAmount chainProvider "ETH";
                  DailyRequestsPerIP := Config.MaxRequestsPerDayIP (config h);
                  TokenThrottleHours := 1 |};
             info_PoW := {| Enabled := true;
                            Difficulty := Config.PoWDifficulty (config h) |};
             info_FaucetBalance :=
               {| balance_STRK :=
                    if bool_decide (strk = EmptyString) then "0" else strk;
                  balance_ETH :=
                    if bool_decide (eth = EmptyString) then "0" else eth |};
             info_AvailableNetworks := range_order |}
  end.

(** One entry of [hourly_throttle_by_network]. *)
Record TokenThrottle := {
  available : bool;
  next_request_at : option Z
}.

Record QuotaResponse := {
  quota_total : Z;
  quota_used : Z;
  quota_remaining : Z;
  quota_cooldown_end : option Z;
  quota_in_cooldown : bool;
  hourly_throttle_by_network : gmap string (gmap string TokenThrottle)
}.

(** The inner loop of [GetQuota]: a token whose check fails is left out
    ([continue]). *)
Fixpoint quota_tokens (env : Env) (ip networkName : string)
    (tokens : list string) (tokenThrottles : gmap string TokenThrottle)
    : Step Z (gmap string TokenThrottle) :=
  match tokens with
  | [] => mret tokenThrottles
  | token :: rest =>
      res ← redis_get env (CCheckTokenHourlyThrottle token)
              (CheckTokenHourlyThrottle (now env) ip networkName token);
      match res with
      | None => quota_tokens env ip networkName rest tokenThrottles
      | Some (canRequest, nextTime) =>
          quota_tokens env ip networkName rest
            (<[ToLower token := {| available := canRequest;
                                   next_request_at := nextTime |}]>
               tokenThrottles)
      end
  end.

(** The outer loop, over the handler's chains in the order [range] visits
    them; a name that is not registered is not visited. *)
Fixpoint quota_networks (h : Handler) (env : Env) (ip : string)
    (names : list string)
    (networkThrottles : gmap string (gmap string TokenThrottle))
    : Step Z (gmap string (gmap string TokenThrottle)) :=
  match names with
  | [] => mret networkThrottles
  | networkName :: rest =>
      match chains h !! networkName with
      | None => quota_networks h env ip rest networkThrottles
      | Some chain =>
          tokenThrottles ←
            quota_tokens env ip networkName (GetSupportedTokens chain) ∅;
          quota_networks h env ip rest
            (<[networkName := tokenThrottles]> networkThrottles)
      end
  end.

(** The entry of [hourly_throttle_by_network] for a token of a network,
    under the token's lower-case name. *)
Definition shown_throttle (q : QuotaResponse) (network token : string)
    : option TokenThrottle :=
  tokenThrottles ← hourly_throttle_by_network q !! network;
  tokenThrottles !! ToLower token.

(** What a check of the hourly throttle is shown as. *)
Definition throttle_entry (check : bool * option Z) : TokenThrottle :=
  {| available := fst check; next_request_at := snd check |}.

(** [GetQuota]; it leaves with the status of its one error answer,
    "Failed to get quota". *)
Definition GetQuota (h : Handler) (env : Env) (ip : string)
    (range_order : list string) : Step Z QuotaResponse :=
  quota ← redis_get env CGetIPDailyQuota (GetIPDailyQuota (now env) ip);
  '(used, remaining, cooldownEnd) ←
    match quota with
    | None => leave StatusInternalServerError
    | Some q => mret q
    end;
  networkThrottles ← quota_networks h env ip range_order ∅;
  mret {| quota_total := Config.MaxRequestsPerDayIP (config h);
          quota_used := used;
          quota_remaining := remaining;
          quota_cooldown_end := cooldownEnd;
          quota_in_cooldown := bool_decide (cooldownEnd ≠ None);
          hourly_throttle_by_network := networkThrottles |}.

End Reports.

(** ** Sample deployments *)

Module Sample.
Import Models Chains Cache Api.

Definition cfg : Config.Config :=
  {| Config.Server := {| Config.port := 8080; Config.log_level := "info" |};
     Config.PoW := {| Config.difficulty := 4;
                      Config.challenge_ttl_seconds := 300 |};
     Config.RateLimits := {| Config.max_requests_per_day_ip := 5;
                             Config.max_challenges_per_hour := 8 |};
     Config.RedisURL := "redis://localhost:6379" |}.

Definition faucet : string := "0x742d35cc6634c0532925a3b844bc9e7595f8fe21".
Definition alice : string := "0x5aaeb6053f3e94c9b9a09f33669435e7ef1beaed".

Definition eth_provider : ChainProvider :=
  {| GetDripAmount := fun token =>
       if bool_decide (token = "ETH") then "0.01" else "0";
     GetMaxTokensPerHour := fun token =>
       if bool_decide (token = "ETH") then 1%float else 0%float;
     GetMaxTokensPerDay := fun token =>
       if bool_decide (token = "ETH") then 5%float else 0%float;
     GetMinBalanceProtectPct := 5;
     GetFaucetAddress := faucet |}.

(** A chain with the two tokens the README lists for Starknet; every
    address and both tokens are valid, the RPC answers as given. *)
Definition two_token_chain (balance : string -> option Z)
    (send : string -> option string) : Chain :=
  {| ValidateAddress := fun _ => None;
     ValidateToken := fun token =>
       if bool_decide (token = "STRK") || bool_decide (token = "ETH")
       then None else Some "invalid token";
     GetSupportedTokens := ["STRK"; "ETH"];
     GetBalance := fun _ token => balance token;
     TransferTokens := fun _ token _ => send token;
     GetExplorerURL := fun txHash => String.append "https://sepolia.voyager.online/tx/" txHash;
     GetChainName := "starknet";
     GetNetworkName := "sepolia" |}.

Definition sn_provider : ChainProvider :=
  {| GetDripAmount := fun token =>
       if bool_decide (token = "STRK") then "10" else "0.01";
     GetMaxTokensPerHour := fun _ => 1000%float;
     GetMaxTokensPerDay := fun _ => 5000%float;
     GetMinBalanceProtectPct := 5;
     GetFaucetAddress := faucet |}.

(** A generator that accepts the nonce 7 on any challenge. *)
Definition pow7 : Generator := {| VerifyPoW := fun _ nonce _ => nonce =? 7 |}.

Definition handler (eth sn : Chain) : Handler :=
  {| config := cfg;
     chains := <["ethereum" := eth]> (<["starknet" := sn]> ∅);
     providers := <["ethereum" := eth_provider]> (<["starknet" := sn_provider]> ∅);
     powGenerator := pow7;
     defaultNetwork := "starknet" |}.

(** An RPC node with 100 ETH (in wei) on every account that accepts every
    transfer. *)
Definition eth_ok : Chain :=
  Ethereum.Client EmptyString (fun _ => Some (100 * 10 ^ 18))
                  (fun _ _ => Some "0xabc").

Definition sn_ok : Chain :=
  two_token_chain (fun _ => Some (100000 * 10 ^ 18)) (fun _ => Some "0xdef").

(** The same Starknet node, except that transfers of ETH fail. *)
Definition sn_eth_fails : Chain :=
  two_token_chain (fun _ => Some (100000 * 10 ^ 18))
    (fun token => if bool_decide (token = "ETH") then None else Some "0xdef").

(** Decimal amounts of the sample providers, and wei as 10^18 per unit. *)
Definition parse (s : string) : float :=
  if bool_decide (s = "0.01") then 0x1.47ae147ae147bp-7%float
  else if bool_decide (s = "10") then 10%float
  else 0%float.

Definition to_wei (amount : float) : Z :=
  if (amount =? 0x1.47ae147ae147bp-7)%float then 10 ^ 16
  else if (amount =? 10)%float then 10 ^ 19 else 0.

Definition of_wei (wei : Z) : float :=
  (of_uint63 (Uint63.of_Z (wei / 10 ^ 9)) / 1000000000)%float.

Definition env_at (t : Z) (fails : Call -> bool) : Env :=
  {| now := t; redis_fails := fails; ParseFloat := parse;
     AmountToWei := to_wei; WeiToAmount := of_wei |}.

Definition no_faults : Call -> bool := fun _ => false.

(** A store that fails at one call only. *)
Definition fails_at (c : Call) : Call -> bool := fun c' => bool_decide (c' = c).

Definition t0 : Z := 1700000000.

(** A store with one live challenge, ["c1"]. *)
Definition store : RedisClient :=
  StoreChallenge t0 "c1" "seed" 300
    (NewRedisClient (Config.MaxRequestsPerDayIP cfg)
                    (Config.MaxChallengesPerHour cfg)).

Definition req_eth : FaucetRequest :=
  {| Address := alice; Token := "eth"; Network := "ethereum";
     ChallengeID := "c1"; Nonce := 7 |}.

Definition req_both : FaucetRequest :=
  {| Address := alice; Token := "both"; Network := EmptyString;
     ChallengeID := "c1"; Nonce := 7 |}.

(** The same store with a second challenge, ["c2"], that lives for two
    hours, and a request that names it. *)
Definition store2 : RedisClient := StoreChallenge t0 "c2" "seed" 7200 store.

Definition req_eth2 : FaucetRequest :=
  {| Address := alice; Token := "ETH"; Network := "ethereum";
     ChallengeID := "c2"; Nonce := 7 |}.

Definition caller : string := "203.0.113.9".

(** A request of the sample caller at instant [t], served by healthy
    nodes. *)
Definition submission (t : Z) (fails : Call -> bool) (req : FaucetRequest)
    : Reading.Submission :=
  {| Reading.sub_handler := handler eth_ok sn_ok;
     Reading.sub_env := env_at t fails;
     Reading.sub_ip := caller;
     Reading.sub_body := Some req |}.

(** The sample request for ETH on Ethereum, served by healthy nodes at
    [t0] from the sample store. *)
Definition served_eth : St * Response :=
  run (RequestTokens (handler eth_ok sn_ok) (env_at t0 no_faults) caller
         (Some req_eth))
      (initial store).




End Sample.

(** ** A sample terminal session *)

Module Desk.
Import Models Cli.

(** A server that hands out challenge [c1], a solver that finds nonce 7,
    a person who answers the question, and a network that drops the
    request. *)
Definition offline : World unit :=
  {| AskQuestionWithRetries := fun _ w => (w, inr true);
     GetChallenge := fun _ w =>
       (w, inr {| cr_ChallengeID := "c1"; cr_Challenge := "seed";
                  cr_Difficulty := 4 |});
     Solve := fun _ _ w => (w, inr 7);
     RequestTokens := fun _ _ w => (w, inl "connection refused") |}.

(** [faucet-terminal req <address> -n ETH-Sep]. *)
Definition flags : Flags :=
  {| apiURL := EmptyString; network := "ETH-Sep"; verbose := false;
     jsonOut := false; token := EmptyString; both := false;
     skipVerification := false |}.

(** The same with [--json]. *)
Definition json_flags : Flags :=
  {| apiURL := EmptyString; network := "ETH-Sep"; verbose := false;
     jsonOut := true; token := EmptyString; both := false;
     skipVerification := false |}.

Definition start : Run unit := {| world := (); posted := [] |}.

(** An address in EIP-55 form, the same with its case damaged, and one of
    65 hex digits. *)
Definition checksummed : string := "0x5aAeb6053F3E94C9b9A09f33669435E7Ef1BeAed".
Definition damaged : string := "0x5AAeb6053F3E94C9b9A09f33669435E7Ef1BeAed".
Definition overlong : string :=
  "0x00000000000000000000000000000000000000000000000000000000000000001".

(** A person who fails the question. *)
Definition fails_question : nat -> unit -> unit * (string + bool) :=
  fun _ w => (w, inr false).

(** A request as [runRequest] posts it, with the URL it goes to. *)
Definition posted_entry : string * FaucetRequest :=
  ("https://disgusted-melodee-aayushgiri-575fc666.koyeb.app", Sample.req_eth2).

(** A request for both tokens that names the Ethereum chain, and one for
    ETH that names no chain. *)
Definition req_both_eth : FaucetRequest :=
  {| Address := Sample.alice; Token := "both"; Network := "ethereum";
     ChallengeID := "c1"; Nonce := 7 |}.

Definition req_unnamed : FaucetRequest :=
  {| Address := Sample.alice; Token := "ETH"; Network := EmptyString;
     ChallengeID := "c1"; Nonce := 7 |}.

(** The registries of a server on which the Ethereum chain alone was
    loaded. *)
Definition eth_chains : gmap string Chains.Chain :=
  <["ethereum" := Sample.eth_ok]> ∅.

Definition eth_providers : gmap string Api.ChainProvider :=
  <["ethereum" := Sample.eth_provider]> ∅.

End Desk.

Example keccak_empty :
  Keccak.keccak256_hex EmptyString
  = "c5d2460186f7233c927e7db2dcc703c0e500b653ca82273b7bfad8045d85a470".
Proof. vm_compute. reflexivity. Qed.

Example eip55_vector_1 :
  Request.toEIP55Checksum "0x5aaeb6053f3e94c9b9a09f33669435e7ef1beaed"
  = Some "0x5aAeb6053F3E94C9b9A09f33669435E7Ef1BeAed".
Proof. vm_compute. reflexivity. Qed.

Example eip55_vector_2 :
  Request.isValidEIP55Checksum "0xfB6916095ca1df60bB79Ce92cE3Ea74c37c5d359"
  = Some true.
Proof. vm_compute. reflexivity. Qed.

(** * Properties *)

Local Open Scope list_scope.

(** ** EIP-55 *)

Section Eip55.
Import Strings Request.

Lemma toLowerChar_idem (c : ascii) : toLowerChar (toLowerChar c) = toLowerChar c.
Proof. destruct c as [[] [] [] [] [] [] [] []]; reflexivity. Qed.

Lemma toLower_toUpper_lower (c : ascii) :
  toLowerChar (toUpperChar (toLowerChar c)) = toLowerChar c.
Proof. destruct c as [[] [] [] [] [] [] [] []]; reflexivity. Qed.

Lemma ToLower_idem (s : string) : ToLower (ToLower s) = ToLower s.
Proof.
  induction s as [|c s IH]; [reflexivity|].
  cbn. rewrite toLowerChar_idem. f_equal. exact IH.
Qed.

Lemma ToLower_length (s : string) : String.length (ToLower s) = String.length s.
Proof. induction s as [|c s IH]; cbn; [reflexivity | now rewrite IH]. Qed.

Lemma index_lt (s : string) (i : nat) :
  (i < String.length s)%nat -> exists c, index s i = Some c.
Proof.
  revert i. induction s as [|c s IH]; intros i Hi; cbn in Hi; [lia|].
  destruct i as [|i]; cbn; [eauto|]. apply IH. lia.
Qed.

(** Inside the digest the loop never panics, and what it builds differs
    from its input in letter case only. *)
Lemma checksum_loop_lower (hashHex : string) (tail : string) :
  forall i, (i + String.length tail <= String.length hashHex)%nat ->
  exists body,
    checksum_loop hashHex i (ToLower tail) = Some body
    /\ ToLower body = ToLower tail.
Proof.
  induction tail as [|c tail IH]; intros i Hlen.
  { exists EmptyString. split; reflexivity. }
  cbn in Hlen.
  destruct (IH (S i)) as (body & Hbody & Hlow); [lia|].
  destruct (index_lt hashHex i) as (nib & Hnib); [lia|].
  cbn [ToLower map_string checksum_loop]. fold (ToLower tail).
  rewrite Hbody, Hnib.
  destruct (isDigit (toLowerChar c)); cbn.
  - eexists; split; [reflexivity|]. cbn. fold (ToLower body).
    now rewrite toLowerChar_idem, Hlow.
  - eexists; split; [reflexivity|]. cbn. fold (ToLower body).
    rewrite Hlow. f_equal.
    destruct (_ <=? _); [apply toLower_toUpper_lower | apply toLowerChar_idem].
Qed.

Lemma init_state_length (f : nat -> nat -> Z) :
  length (Keccak.init_state f) = 25%nat.
Proof. unfold Keccak.init_state. now rewrite length_map, length_seq. Qed.

Lemma round_length (st : Keccak.State) (rc : Z) :
  length (Keccak.round st rc) = 25%nat.
Proof.
  unfold Keccak.round, Keccak.chi.
  pose proof (init_state_length
    (fun x y => Z.lxor (Keccak.lane (Keccak.rho_pi (Keccak.theta st)) x y)
       (Z.land (Keccak.not64 (Keccak.lane (Keccak.rho_pi (Keccak.theta st)) (x + 1) y))
               (Keccak.lane (Keccak.rho_pi (Keccak.theta st)) (x + 2) y)))) as H.
  destruct (Keccak.init_state _) as [|w rest]; [discriminate H | exact H].
Qed.

Lemma keccak_f_length (st : Keccak.State) :
  length st = 25%nat -> length (Keccak.keccak_f st) = 25%nat.
Proof.
  unfold Keccak.keccak_f. generalize Keccak.round_constants.
  intros rcs. revert st.
  induction rcs as [|rc rcs IH]; intros st Hst; cbn; [exact Hst|].
  apply IH, round_length.
Qed.

Lemma absorb_length (fuel : nat) :
  forall st msg, length st = 25%nat ->
  length (Keccak.absorb fuel st msg) = 25%nat.
Proof.
  induction fuel as [|fuel IH]; intros st msg Hst; [exact Hst|].
  destruct msg as [|b msg]; [exact Hst|].
  cbn [Keccak.absorb]. apply IH, keccak_f_length.
  unfold Keccak.absorb_block. now rewrite length_map, length_seq.
Qed.

Lemma keccak256_length (msg : list Z) : length (Keccak.keccak256 msg) = 32%nat.
Proof.
  unfold Keccak.keccak256.
  pose proof (absorb_length (length (Keccak.pad msg)) (repeat 0 25)
                (Keccak.pad msg) (repeat_length _ _)) as H.
  destruct (Keccak.absorb _ _ _) as [|w0 [|w1 [|w2 [|w3 rest]]]];
    try discriminate H.
  reflexivity.
Qed.

Lemma EncodeToString_length (bs : list Z) :
  String.length (Keccak.EncodeToString bs) = (2 * length bs)%nat.
Proof.
  unfold Keccak.EncodeToString.
  induction bs as [|b bs IH]; [reflexivity|].
  cbn [flat_map app string_of_list_ascii String.length length].
  rewrite IH. lia.
Qed.

Lemma keccak256_hex_length (s : string) :
  String.length (Keccak.keccak256_hex s) = 64%nat.
Proof.
  unfold Keccak.keccak256_hex.
  now rewrite EncodeToString_length, keccak256_length.
Qed.

Lemma slice_from_length (n : nat) :
  forall s tail, slice_from n s = Some tail ->
  String.length s = (n + String.length tail)%nat.
Proof.
  induction n as [|n IH]; intros s tail H; cbn in H.
  - now inversion H.
  - destruct s as [|c s]; [discriminate|]. cbn. f_equal. now apply IH.
Qed.

(** On an address whose part after the prefix fits the digest, the
    checksum is defined and is its own checksum. *)
Lemma toEIP55Checksum_fixed (a tail : string) :
  slice_from 2 a = Some tail ->
  (String.length tail <= 64)%nat ->
  exists c, toEIP55Checksum a = Some c /\ toEIP55Checksum c = Some c.
Proof.
  intros Htail Hlen.
  destruct (checksum_loop_lower (Keccak.keccak256_hex (ToLower tail)) tail 0%nat)
    as (body & Hbody & Hlow).
  { rewrite keccak256_hex_length. cbn. lia. }
  exists (String.append "0x" body). unfold toEIP55Checksum.
  rewrite Htail. cbn [mbind option_bind]. rewrite Hbody. cbn [mbind option_bind].
  split; [reflexivity|].
  change (String.append "0x" body) with (String "0" (String "x" body)).
  cbn [slice_from mbind option_bind].
  rewrite Hlow, Hbody. reflexivity.
Qed.

End Eip55.

(** C10. EIP-55 checksumming is idempotent: for every Ethereum address, [0x]
    followed by 40 hex characters, the checksum of the checksummed address
    is the checksummed address again, and so the checksummed address passes
    [isValidEIP55Checksum]. *)
Theorem toEIP55Checksum_idempotent (a : string) :
  Request.isEthereumAddress a = true ->
  exists c,
    Request.toEIP55Checksum a = Some c
    /\ Request.toEIP55Checksum c = Some c
    /\ Request.isValidEIP55Checksum c = Some true.
Proof.
  intros Ha. unfold Request.isEthereumAddress in Ha.
  apply andb_prop in Ha as [_ Ha].
  destruct (Strings.slice_from 2 a) as [tail|] eqn:Htail; [|discriminate].
  apply andb_prop in Ha as [Hlen _]. apply Nat.eqb_eq in Hlen.
  destruct (toEIP55Checksum_fixed a tail Htail) as (c & Hc & Hcc); [lia|].
  exists c. repeat split; try assumption.
  unfold Request.isValidEIP55Checksum. rewrite Hcc. cbn.
  now rewrite bool_decide_eq_true_2.
Qed.

Lemma toEIP55Checksum_idempotent_witness :
  exists c,
    Request.toEIP55Checksum Sample.alice = Some c
    /\ Request.toEIP55Checksum c = Some c
    /\ Request.isValidEIP55Checksum c = Some true.
Proof. apply toEIP55Checksum_idempotent. vm_compute. reflexivity. Defined.

(** ** Reasoning about handler steps *)

Import Models Chains Cache Api Reading.

Lemma wp_ret {E A} (a : A) st (Q : St -> E + A -> Prop) :
  Q st (inr a) -> wp (mret a) st Q.
Proof. exact (fun H => H). Qed.

Lemma wp_leave {E A} (e : E) st (Q : St -> E + A -> Prop) :
  Q st (inl e) -> wp (leave e) st Q.
Proof. exact (fun H => H). Qed.

Lemma wp_reject {A} status e st (Q : St -> Response + A -> Prop) :
  Q st (inl (ErrorResponse status e)) -> wp (reject status e) st Q.
Proof. exact (fun H => H). Qed.

Lemma wp_bind {E A B} (m : Step E A) (f : A -> Step E B) st
    (Q : St -> E + B -> Prop) :
  wp m st (fun st' r => match r with
                        | inl e => Q st' (inl e)
                        | inr a => wp (f a) st' Q
                        end) ->
  wp (m ≫= f) st Q.
Proof.
  unfold wp, mbind, Step_bind. destruct (m st) as [st' [e|a]]; exact (fun H => H).
Qed.

Lemma wp_mono {E A} (m : Step E A) st (Q1 Q2 : St -> E + A -> Prop) :
  wp m st Q1 -> (forall st' r, Q1 st' r -> Q2 st' r) -> wp m st Q2.
Proof. unfold wp. intros H HQ. now apply HQ. Qed.

Lemma wp_log {E} (c : Call) st (Q : St -> E + unit -> Prop) :
  Q {| redis := redis st; calls := calls st ++ [c]; sent := sent st |} (inr ()) ->
  wp (log c) st Q.
Proof. exact (fun H => H). Qed.

Lemma wp_redis_get {E A} env c (f : RedisClient -> A) st
    (Q : St -> E + option A -> Prop) :
  Q {| redis := redis st; calls := calls st ++ [c]; sent := sent st |}
    (inr (if redis_fails env c then None else Some (f (redis st)))) ->
  wp (redis_get env c f) st Q.
Proof. exact (fun H => H). Qed.

Lemma wp_redis_set {E} env c (f : RedisClient -> RedisClient) st
    (Q : St -> E + bool -> Prop) :
  Q {| redis := if redis_fails env c then redis st else f (redis st);
       calls := calls st ++ [c]; sent := sent st |}
    (inr (negb (redis_fails env c))) ->
  wp (redis_set env c f) st Q.
Proof. unfold wp, redis_set. now destruct (redis_fails env c). Qed.

Lemma wp_redis_update {E A} env c (f : RedisClient -> A * RedisClient) st
    (Q : St -> E + option A -> Prop) :
  Q {| redis := if redis_fails env c then redis st else snd (f (redis st));
       calls := calls st ++ [c]; sent := sent st |}
    (inr (if redis_fails env c then None else Some (fst (f (redis st))))) ->
  wp (redis_update env c f) st Q.
Proof. unfold wp, redis_update. now destruct (redis_fails env c). Qed.

Lemma wp_transfer {E} chain recipient token amountWei st
    (Q : St -> E + option string -> Prop) :
  Q {| redis := redis st; calls := calls st ++ [CTransferTokens token];
       sent := match TransferTokens chain recipient token amountWei with
               | Some _ => sent st ++ [(token, amountWei)]
               | None => sent st
               end |}
    (inr (TransferTokens chain recipient token amountWei)) ->
  wp (transfer chain recipient token amountWei) st Q.
Proof.
  unfold wp, transfer. now destruct (TransferTokens chain recipient token amountWei).
Qed.

(** What [run] gives, through [wp]. *)
Lemma run_wp (m : M Response) st (P : St -> Response -> Prop) :
  wp m st (fun st' r => match r with inl resp | inr resp => P st' resp end) ->
  P (fst (run m st)) (snd (run m st)).
Proof. unfold wp, run. destruct (m st) as [st' [resp|resp]]; exact (fun H => H). Qed.

(** Store facts: what each operation leaves alone. *)

Lemma only_global_changed_refl r : only_global_changed r r.
Proof. now repeat split. Qed.

Lemma only_global_changed_trans r1 r2 r3 :
  only_global_changed r1 r2 -> only_global_changed r2 r3 ->
  only_global_changed r1 r3.
Proof.
  intros (A1 & A2 & A3 & A4 & A5) (B1 & B2 & B3 & B4 & B5).
  repeat split; congruence.
Qed.

Lemma Track_frame now token amount maxHourly maxDaily r :
  only_global_changed r
    (snd (TrackGlobalDistribution now token amount maxHourly maxDaily r)).
Proof.
  unfold TrackGlobalDistribution. destruct (_ && _); now repeat split.
Qed.

Lemma Increment_throttle now ip n r :
  token_throttle (IncrementIPDailyLimit now ip n r) = token_throttle r.
Proof. unfold IncrementIPDailyLimit. now destruct (_ <=? _). Qed.

Lemma Increment_challenges now ip n r :
  challenges (IncrementIPDailyLimit now ip n r) = challenges r.
Proof. unfold IncrementIPDailyLimit. now destruct (_ <=? _). Qed.

Lemma Increment_cap now ip n r :
  maxRequestsPerDayIP (IncrementIPDailyLimit now ip n r) = maxRequestsPerDayIP r.
Proof. unfold IncrementIPDailyLimit. now destruct (_ <=? _). Qed.

(** Symbolic execution of a handler: one rule per step, a case split per
    branch, and the hypotheses kept in solved form. *)

Ltac tidy :=
  cbn [redis calls sent initial fst snd Address Token Network ChallengeID
       Nonce with_Token] in *;
  repeat match goal with
  | H : bool_decide _ = true |- _ => apply bool_decide_eq_true in H
  | H : bool_decide _ = false |- _ => apply bool_decide_eq_false in H
  | H : negb _ = true |- _ => apply negb_true_iff in H
  | H : negb _ = false |- _ => apply negb_false_iff in H
  end;
  simplify_eq.

Ltac wp_rule :=
  lazymatch goal with
  | |- wp (mbind _ _) _ _ => apply wp_bind
  | |- wp (mret _) _ _ => apply wp_ret
  | |- wp (leave _) _ _ => apply wp_leave
  | |- wp (reject _ _) _ _ => apply wp_reject
  | |- wp (log _) _ _ => apply wp_log
  | |- wp (redis_get ?env ?c _) _ _ =>
      apply wp_redis_get; destruct (redis_fails env c) eqn:?
  | |- wp (redis_set ?env ?c _) _ _ =>
      apply wp_redis_set; destruct (redis_fails env c) eqn:?
  | |- wp (redis_update ?env ?c _) _ _ =>
      apply wp_redis_update; destruct (redis_fails env c) eqn:?
  | |- wp (transfer ?chain ?recipient ?token ?amountWei) _ _ =>
      apply wp_transfer;
      destruct (TransferTokens chain recipient token amountWei) eqn:?
  | |- wp (check_throttle _ _ _ _) _ _ => unfold check_throttle
  | |- wp (match ?x with _ => _ end) _ _ => destruct x eqn:?
  | |- wp (let _ := _ in _) _ _ => cbv zeta
  end.

Ltac wp_run := repeat (wp_rule; cbv beta iota; tidy; try done).

(** Turns a goal about [run m st] into one about [wp m st]. *)
Ltac run_to_wp :=
  match goal with
  | |- context [run ?m ?st] =>
      pattern (fst (run m st)), (snd (run m st)); apply run_wp
  end.

(** ** Status queries *)

Lemma GetStatus_answer h env ip address networkQuery r s :
  snd (run (GetStatus h env ip address networkQuery) (initial r)) = StatusOK s ->
  status_Address s = address
  /\ (status_CanRequest s = true <->
      daily_used (now env) ip r < maxRequestsPerDayIP r
      /\ cooldown_end (now env) ip r = None)
  /\ status_NextRequestTime s = None
  /\ status_RemainingHours s = None.
Proof.
  revert s. run_to_wp. unfold GetStatus. wp_run.
  intros s [= <-]. cbn [status_Address status_CanRequest status_NextRequestTime
                        status_RemainingHours].
  match goal with H : GetIPDailyQuota _ _ _ = _ |- _ =>
    unfold GetIPDailyQuota in H; injection H as <- <- <- end.
  rewrite andb_true_iff, Z.ltb_lt, bool_decide_eq_true.
  split; [reflexivity|]. split; [|split; reflexivity].
  split; intros [H1 H2]; (split; [lia | assumption]).
Qed.

(** C9. The status handler computes eligibility from the requesting IP's
    daily quota, not from the queried address: whatever address is asked
    about, the answer's can-request flag is true exactly when the IP has
    quota left and no cooldown marker, so two queries from one IP about two
    addresses get the same flag; the handler never fills in the
    next-request time or the remaining hours. *)
Theorem GetStatus_reads_caller_quota h env ip address address' networkQuery r s s' :
  snd (run (GetStatus h env ip address networkQuery) (initial r)) = StatusOK s ->
  snd (run (GetStatus h env ip address' networkQuery) (initial r)) = StatusOK s' ->
  (status_CanRequest s = true <->
     daily_used (now env) ip r < maxRequestsPerDayIP r
     /\ cooldown_end (now env) ip r = None)
  /\ status_CanRequest s' = status_CanRequest s
  /\ status_NextRequestTime s = None
  /\ status_RemainingHours s = None.
Proof.
  intros H H'.
  apply GetStatus_answer in H as (_ & Hs & Hn & Hr).
  apply GetStatus_answer in H' as (_ & Hs' & _ & _).
  repeat split; try tauto.
  destruct (status_CanRequest s), (status_CanRequest s'); try reflexivity.
  - apply Hs'. now apply Hs.
  - symmetry. apply Hs. now apply Hs'.
Qed.

(** ** The loops *)

Lemma app_cons_single_l {A} (pre rest : list A) (x y : A) :
  pre ++ x :: rest = [y] -> pre = [] /\ x = y /\ rest = [].
Proof.
  destruct pre as [|p pre]; cbn; intros H.
  - now inversion H.
  - inversion H as [[Hp Hnil]]. now destruct pre.
Qed.

Lemma wp_check_throttle env ip network token st (Q : St -> Response + unit -> Prop) :
  (forall res, throttle_outcome env ip network (redis st) [token] [token] res ->
     Q {| redis := redis st;
          calls := calls st ++ [CCheckTokenHourlyThrottle token];
          sent := sent st |} res) ->
  wp (check_throttle env ip network token) st Q.
Proof.
  intros HQ. unfold check_throttle.
  apply wp_bind, wp_redis_get.
  destruct (redis_fails env (CCheckTokenHourlyThrottle token)) eqn:Hf; cbv beta iota.
  { apply wp_reject, HQ. now apply (throttle_error _ _ _ _ [] token []). }
  unfold CheckTokenHourlyThrottle.
  destruct (live_marker _ _) as [next|] eqn:Hm; cbn [negb redis]; cbv beta iota.
  - apply wp_reject, HQ. now eapply (throttle_deny _ _ _ _ [] token []).
  - apply wp_ret, HQ. apply throttle_pass. now repeat constructor.
Qed.

(** The same, with the three ways the check of one token ends spelled
    out. *)
Lemma wp_check_throttle_cases env ip network token st
    (Q : St -> Response + unit -> Prop) :
  let st' := {| redis := redis st;
                calls := calls st ++ [CCheckTokenHourlyThrottle token];
                sent := sent st |} in
  (redis_fails env (CCheckTokenHourlyThrottle token) = true ->
   Q st' (inl (ErrorResponse StatusInternalServerError ErrCheckRateLimit))) ->
  (forall next,
     redis_fails env (CCheckTokenHourlyThrottle token) = false ->
     live_marker (now env) (token_throttle (redis st) !! (ip, network, token))
       = Some next ->
     Q st' (inl (ErrorResponse StatusTooManyRequests
                   (ErrHourlyLimit token network (Z.quot (next - now env) 60 + 1))))) ->
  (redis_fails env (CCheckTokenHourlyThrottle token) = false ->
   live_marker (now env) (token_throttle (redis st) !! (ip, network, token))
     = None ->
   Q st' (inr ())) ->
  wp (check_throttle env ip network token) st Q.
Proof.
  intros st' Herr Hdeny Hpass. apply wp_check_throttle. intros res Hout.
  inversion Hout as [ts Hall| pre t rest Hpre Hfail Heq
                     | pre t rest next Hpre Hok Hlive Heq]; subst.
  - apply Forall_inv in Hall as [Hok Hnone]. now apply Hpass.
  - apply app_cons_single_l in Heq as (-> & -> & ->). now apply Herr.
  - apply app_cons_single_l in Heq as (-> & -> & ->). now apply Hdeny.
Qed.

Lemma wp_check_throttles env ip network tokens :
  forall st (Q : St -> Response + unit -> Prop),
  (forall checked res,
     throttle_outcome env ip network (redis st) tokens checked res ->
     Q {| redis := redis st;
          calls := calls st ++ map CCheckTokenHourlyThrottle checked;
          sent := sent st |} res) ->
  wp (check_throttles env ip network tokens) st Q.
Proof.
  induction tokens as [|t tokens IH]; intros st Q HQ.
  - cbn [check_throttles]. apply wp_ret.
    specialize (HQ [] (inr ()) (throttle_pass _ _ _ _ [] (List.Forall_nil _))).
    cbn [map] in HQ. rewrite app_nil_r in HQ. now destruct st.
  - cbn [check_throttles]. apply wp_bind, wp_check_throttle.
    intros res Hres. inversion Hres as [ts Hall| pre t' rest Hpre Hfail Heq
                                        | pre t' rest next Hpre Hok Hlive Heq]; subst.
    + apply IH. intros checked res' Hout. cbn [redis calls sent].
      rewrite <- app_assoc.
      change ([CCheckTokenHourlyThrottle t] ++ map CCheckTokenHourlyThrottle checked)
        with (map CCheckTokenHourlyThrottle (t :: checked)).
      apply HQ. apply Forall_inv in Hall.
      inversion Hout; subst; cbn [redis] in *.
      * apply throttle_pass. now constructor.
      * apply (throttle_error _ _ _ _ (t :: pre) t0 rest); [now constructor | assumption].
      * apply (throttle_deny _ _ _ _ (t :: pre) t0 rest next); try assumption.
        now constructor.
    + match goal with H : pre ++ t' :: rest = [t] |- _ =>
        apply app_cons_single_l in H as (-> & -> & ->) end.
      apply (HQ [t]). now apply (throttle_error _ _ _ _ [] t tokens).
    + match goal with H : pre ++ t' :: rest = [t] |- _ =>
        apply app_cons_single_l in H as (-> & -> & ->) end.
      apply (HQ [t]). now apply (throttle_deny _ _ _ _ [] t tokens next).
Qed.

(** One turn of the combined request's loop: only the global counters of
    the store may change; a turn that completes made the token's three calls
    and one transfer, a turn that breaks made a prefix of them and no
    transfer. *)
Lemma wp_both_iteration env req chain provider token st :
  wp (both_iteration env req chain provider token) st (fun st' res =>
    only_global_changed (redis st) (redis st')
    /\ match res with
       | inr tx =>
           tx_Token tx = token
           /\ calls st' = calls st ++ token_block token
           /\ sent st' = sent st ++ [(token, wei_of env provider token)]
       | inl _ =>
           (exists k, (k < 3)%nat
                      /\ calls st' = calls st ++ take (S k) (token_block token))
           /\ sent st' = sent st
       end).
Proof.
  unfold both_iteration. wp_run.
  all: repeat match goal with
       | H : TransferTokens _ _ _ _ = _ |- _ => rewrite H
       end;
       cbn [redis calls sent tx_Token]; rewrite <- ?app_assoc;
       (split; [first [apply only_global_changed_refl | apply Track_frame]|]).
  all: try (split; [|reflexivity]).
  all: try (split; [reflexivity|split; reflexivity]).
  all: first [ exists 0%nat; split; [lia | reflexivity]
             | exists 1%nat; split; [lia | reflexivity]
             | exists 2%nat; split; [lia | reflexivity] ].
Qed.

(** The loop of a combined request: it completes the tokens of a prefix
    [done] of the list, one transaction and one transfer each, and stops
    either at the end of the list or inside the calls of the next token. *)
Lemma both_loop_spec env req chain provider tokens :
  forall txs st,
  exists done rest new_txs tail,
    tokens = done ++ rest
    /\ map tx_Token new_txs = done
    /\ fst (snd (both_loop env req chain provider tokens txs st)) = txs ++ new_txs
    /\ only_global_changed (redis st)
         (redis (fst (both_loop env req chain provider tokens txs st)))
    /\ calls (fst (both_loop env req chain provider tokens txs st))
       = calls st ++ flat_map token_block done ++ tail
    /\ sent (fst (both_loop env req chain provider tokens txs st))
       = sent st ++ map (fun t => (t, wei_of env provider t)) done
    /\ ((rest = [] /\ tail = []
         /\ snd (snd (both_loop env req chain provider tokens txs st)) = EmptyString)
        \/ (exists t rest' k,
              rest = t :: rest' /\ (k < 3)%nat
              /\ tail = take (S k) (token_block t)
              /\ snd (snd (both_loop env req chain provider tokens txs st)) = t)).
Proof.
  induction tokens as [|t tokens IH]; intros txs st.
  - exists [], [], [], []. cbn. rewrite !app_nil_r.
    split; [reflexivity|]. split; [reflexivity|]. split; [reflexivity|].
    split; [apply only_global_changed_refl|]. split; [reflexivity|].
    split; [reflexivity|]. now left.
  - cbn [both_loop].
    pose proof (wp_both_iteration env req chain provider t st) as Hit.
    unfold wp in Hit.
    destruct (both_iteration env req chain provider t st) as [st1 [[]|tx]];
      cbn [fst snd] in Hit; destruct Hit as [Hfr Hit].
    + destruct Hit as [(k & Hk & Hcalls) Hsent].
      exists [], (t :: tokens), [], (take (S k) (token_block t)).
      cbn [fst snd flat_map map app]. rewrite !app_nil_r.
      split; [reflexivity|]. split; [reflexivity|]. split; [reflexivity|].
      split; [exact Hfr|]. split; [exact Hcalls|]. split; [exact Hsent|].
      right. exists t, tokens, k. now repeat split.
    + destruct Hit as (Htok & Hcalls & Hsent).
      destruct (IH (txs ++ [tx]) st1)
        as (done & rest & new_txs & tail & Hsplit & Hmap & Htxs & Hfr' & Hc' & Hs' & Hend).
      exists (t :: done), rest, (tx :: new_txs), tail.
      split; [cbn; now rewrite Hsplit|].
      split; [cbn; now rewrite Htok, Hmap|].
      split; [rewrite Htxs, <- app_assoc; reflexivity|].
      split; [eapply only_global_changed_trans; eassumption|].
      split; [rewrite Hc', Hcalls; cbn [flat_map]; now rewrite <- !app_assoc|].
      split; [rewrite Hs', Hsent; cbn [map]; now rewrite <- !app_assoc|].
      exact Hend.
Qed.

Lemma wp_set_throttles env ip network txs :
  forall st (Q : St -> Response + unit -> Prop),
  Q {| redis := commit_throttles env ip network (map tx_Token txs) (redis st);
       calls := calls st ++ map CSetTokenHourlyThrottle (map tx_Token txs);
       sent := sent st |} (inr ()) ->
  wp (set_throttles env ip network txs) st Q.
Proof.
  induction txs as [|tx txs IH]; intros st Q HQ.
  - cbn in *. rewrite app_nil_r in HQ. apply wp_ret. now destruct st.
  - cbn [set_throttles]. apply wp_bind, wp_redis_set. apply IH.
    cbn [redis calls sent map commit_throttles fold_left] in *.
    rewrite <- app_assoc. exact HQ.
Qed.

(** [handleBothTokensRequest], end to end: the loop's calls, then, when
    something was transferred, the daily commit of 2 units and one throttle
    commit per transferred token. *)
Lemma wp_handleBoth h env req ip chain provider st
    (Q : St -> Response + Response -> Prop) :
  (forall done rest txs tail failedToken r1,
     GetSupportedTokens chain = done ++ rest ->
     map tx_Token txs = done ->
     only_global_changed (redis st) r1 ->
     ((rest = [] /\ tail = [] /\ failedToken = EmptyString)
      \/ (exists rest' k, rest = failedToken :: rest' /\ (k < 3)%nat
                          /\ tail = take (S k) (token_block failedToken))) ->
     Q {| redis := if (0 <? length txs)%nat
                   then commit_throttles env ip (network_of h req) done
                          (commit_daily env ip 2 r1)
                   else r1;
          calls := calls st ++ flat_map token_block done ++ tail
                   ++ (if (0 <? length txs)%nat
                       then CIncrementIPDailyLimit 2
                            :: map CSetTokenHourlyThrottle done
                       else []);
          sent := sent st ++ map (fun t => (t, wei_of env provider t)) done |}
       (if (0 <? length txs)%nat then inr (both_answer txs failedToken)
        else inl (both_answer txs failedToken))) ->
  wp (handleBothTokensRequest h env req ip chain provider) st Q.
Proof.
  intros HQ. unfold handleBothTokensRequest. cbv zeta. apply wp_bind.
  destruct (both_loop_spec env req chain provider (GetSupportedTokens chain) [] st)
    as (done & rest & txs & tail & Hsplit & Hmap & Htxs & Hfr & Hcalls & Hsent & Hend).
  unfold wp at 1.
  destruct (both_loop env req chain provider (GetSupportedTokens chain) [] st)
    as [st1 [txs' failedToken]] eqn:Hloop.
  cbn [fst snd app] in *. subst txs'.
  specialize (HQ done rest txs tail failedToken (redis st1) Hsplit Hmap Hfr).
  assert (Hend' : (rest = [] /\ tail = [] /\ failedToken = EmptyString)
      \/ (exists rest' k, rest = failedToken :: rest' /\ (k < 3)%nat
                          /\ tail = take (S k) (token_block failedToken))).
  { destruct Hend as [?|(t & rest' & k & -> & Hk & -> & <-)]; [now left|].
    right. now exists rest', k. }
  specialize (HQ Hend'). clear Hend Hend' Hloop.
  unfold both_answer in HQ. cbv beta iota.
  destruct (0 <? length txs)%nat eqn:Hlen.
  - apply wp_bind, wp_redis_set. cbv beta iota. cbv zeta.
    apply wp_bind, wp_set_throttles. cbv beta iota. apply wp_ret.
    cbn [redis calls sent]. rewrite Hcalls, Hsent, Hmap.
    unfold commit_daily, network_of in HQ.
    match goal with |- Q ?s1 _ =>
      match type of HQ with Q ?s2 _ => replace s1 with s2; [exact HQ|] end end.
    f_equal. rewrite <- !List.app_assoc. reflexivity.
  - apply wp_reject. rewrite !app_nil_r in HQ.
    destruct st1 as [r1 c1 s1]. cbn [redis calls sent] in *. subst c1 s1.
    exact HQ.
Qed.

(** Symbolic execution through the loops as well. *)
Ltac wp_rule_loops :=
  lazymatch goal with
  | |- wp (check_throttle _ _ _ _) _ _ =>
      apply wp_check_throttle_cases; [intros ?|intros ? ? ?|intros ? ?]
  | |- wp (check_throttles _ _ _ _) _ _ =>
      let checked := fresh "checked" in
      let res := fresh "res" in
      let Hout := fresh "Hout" in
      apply wp_check_throttles; intros checked res Hout;
      inversion Hout; subst; clear Hout
  | |- wp (handleBothTokensRequest _ _ _ _ _ _) _ _ =>
      let done := fresh "done" in
      let rest := fresh "rest" in
      let txs := fresh "txs" in
      let tail := fresh "tail" in
      let failedToken := fresh "failedToken" in
      let r1 := fresh "r1" in
      let Hsplit := fresh "Hsplit" in
      let Hmap := fresh "Hmap" in
      let Hfr := fresh "Hfr" in
      let Hend := fresh "Hend" in
      apply wp_handleBoth;
      intros done rest txs tail failedToken r1 Hsplit Hmap Hfr Hend;
      subst done; unfold both_answer; destruct txs;
      cbn [length Nat.ltb Nat.leb map flat_map] in *
  | |- _ => wp_rule
  end.

Ltac wp_exec := repeat (wp_rule_loops; cbv beta iota; tidy; try done).

(** ** What the store operations leave alone, as rewrite rules *)

Section StoreFrames.
Context (now : Z) (token : string) (amount maxHourly maxDaily : float)
        (ip network id : string) (n : Z) (r : RedisClient).

Lemma Track_ip_daily :
  ip_daily (snd (TrackGlobalDistribution now token amount maxHourly maxDaily r))
  = ip_daily r.
Proof. apply Track_frame. Qed.

Lemma Track_ip_cooldown :
  ip_cooldown (snd (TrackGlobalDistribution now token amount maxHourly maxDaily r))
  = ip_cooldown r.
Proof. apply Track_frame. Qed.

Lemma Track_token_throttle :
  token_throttle (snd (TrackGlobalDistribution now token amount maxHourly maxDaily r))
  = token_throttle r.
Proof. apply Track_frame. Qed.

Lemma Track_challenges :
  challenges (snd (TrackGlobalDistribution now token amount maxHourly maxDaily r))
  = challenges r.
Proof. apply Track_frame. Qed.

Lemma Track_cap :
  maxRequestsPerDayIP (snd (TrackGlobalDistribution now token amount maxHourly maxDaily r))
  = maxRequestsPerDayIP r.
Proof. apply Track_frame. Qed.

Lemma Delete_ip_daily : ip_daily (DeleteChallenge id r) = ip_daily r.
Proof. reflexivity. Qed.

Lemma Delete_ip_cooldown : ip_cooldown (DeleteChallenge id r) = ip_cooldown r.
Proof. reflexivity. Qed.

Lemma Delete_token_throttle :
  token_throttle (DeleteChallenge id r) = token_throttle r.
Proof. reflexivity. Qed.

Lemma Delete_cap :
  maxRequestsPerDayIP (DeleteChallenge id r) = maxRequestsPerDayIP r.
Proof. reflexivity. Qed.

Lemma Delete_challenges :
  challenges (DeleteChallenge id r) = delete id (challenges r).
Proof. reflexivity. Qed.

Lemma SetThrottle_ip_daily :
  ip_daily (SetTokenHourlyThrottle now ip network token r) = ip_daily r.
Proof. reflexivity. Qed.

Lemma SetThrottle_ip_cooldown :
  ip_cooldown (SetTokenHourlyThrottle now ip network token r) = ip_cooldown r.
Proof. reflexivity. Qed.

Lemma SetThrottle_challenges :
  challenges (SetTokenHourlyThrottle now ip network token r) = challenges r.
Proof. reflexivity. Qed.

Lemma SetThrottle_cap :
  maxRequestsPerDayIP (SetTokenHourlyThrottle now ip network token r)
  = maxRequestsPerDayIP r.
Proof. reflexivity. Qed.

Lemma SetThrottle_token_throttle :
  token_throttle (SetTokenHourlyThrottle now ip network token r)
  = <[(ip, network, token) := now + hour]> (token_throttle r).
Proof. reflexivity. Qed.

End StoreFrames.

Create Rewrite HintDb store.

#[local] Hint Rewrite Track_ip_daily Track_ip_cooldown Track_token_throttle
  Track_challenges Track_cap Delete_ip_daily Delete_ip_cooldown
  Delete_token_throttle Delete_cap Delete_challenges SetThrottle_ip_daily
  SetThrottle_ip_cooldown SetThrottle_challenges SetThrottle_cap
  SetThrottle_token_throttle Increment_throttle Increment_challenges
  Increment_cap : store.

(** ** Commits *)

(** C4. Commit only after success, for a single-token request: while the
    request is not answered with success, the daily counter, the cooldown
    marker and the throttle markers are exactly as before, nothing was
    transferred and no commit call was made; when it is answered with
    success, the two commit calls are the last two calls, right after the
    transfer, which the chain accepted. *)
Theorem commit_only_after_transfer h env ip req r :
  token_of req ≠ "BOTH" ->
  (succeeded (snd (run (RequestTokens h env ip (Some req)) (initial r))) = false ->
   ip_daily (redis (fst (run (RequestTokens h env ip (Some req)) (initial r))))
   = ip_daily r
   /\ ip_cooldown (redis (fst (run (RequestTokens h env ip (Some req)) (initial r))))
      = ip_cooldown r
   /\ token_throttle (redis (fst (run (RequestTokens h env ip (Some req)) (initial r))))
      = token_throttle r
   /\ sent (fst (run (RequestTokens h env ip (Some req)) (initial r))) = []
   /\ Forall (fun c => is_commit c = false)
             (calls (fst (run (RequestTokens h env ip (Some req)) (initial r)))))
  /\ (succeeded (snd (run (RequestTokens h env ip (Some req)) (initial r))) = true ->
      exists gates amountWei,
        calls (fst (run (RequestTokens h env ip (Some req)) (initial r)))
        = gates ++ [CTransferTokens (token_of req); CIncrementIPDailyLimit 1;
                    CSetTokenHourlyThrottle (token_of req)]
        /\ Forall (fun c => is_commit c = false) gates
        /\ sent (fst (run (RequestTokens h env ip (Some req)) (initial r)))
           = [(token_of req, amountWei)]).
Proof.
  unfold token_of. intros Hsingle. run_to_wp. unfold RequestTokens.
  wp_exec.
  all: cbn [succeeded]; (split; intros Hs; [|try discriminate Hs]).
  all: try discriminate Hs.
  all: autorewrite with store.
  all: lazymatch goal with
       | |- exists gates amountWei, ((?g ++ [_]) ++ [_]) ++ [_] = _ /\ _ =>
           exists g; eexists; split; [now rewrite <- !app_assoc|];
           split; [cbn [app]; repeat constructor | reflexivity]
       | |- _ => repeat split; try reflexivity; cbn [app]; repeat constructor
       end.
Qed.

(** ** Gate order *)




Lemma throttle_checks_stage (tokens : list string) :
  Forall (fun c => stage c = 2%nat) (map CCheckTokenHourlyThrottle tokens).
Proof. apply Forall_map. now apply Forall_true. Qed.

Lemma throttle_commits_stage (tokens : list string) :
  Forall (fun c => stage c = 6%nat) (map CSetTokenHourlyThrottle tokens).
Proof. apply Forall_map. now apply Forall_true. Qed.


















(** ** The balance guard *)

(** Binary64 numbers and their values. *)














(** ** The daily quota *)



Ltac in_log :=
  first [ left; reflexivity
        | apply in_cons; in_log
        | apply in_or_app; right; in_log
        | apply in_or_app; left; in_log
        | apply in_map; in_log ].



(** ** Challenges *)

Lemma commit_throttles_challenges env ip network tokens :
  forall r, challenges (commit_throttles env ip network tokens r) = challenges r.
Proof.
  unfold commit_throttles.
  induction tokens as [|t tokens IH]; intros r; [reflexivity|].
  cbn [fold_left]. rewrite IH. now destruct (redis_fails env _).
Qed.

Lemma commit_daily_challenges env ip n r :
  challenges (commit_daily env ip n r) = challenges r.
Proof.
  unfold commit_daily. destruct (redis_fails env _); [reflexivity|].
  apply Increment_challenges.
Qed.

Lemma commit_daily_throttle env ip n r :
  token_throttle (commit_daily env ip n r) = token_throttle r.
Proof.
  unfold commit_daily. destruct (redis_fails env _); [reflexivity|].
  apply Increment_throttle.
Qed.

#[local] Hint Rewrite commit_throttles_challenges commit_daily_challenges
  commit_daily_throttle : store.

(** Refutes membership of a call in a log none of whose parts holds it. *)
Ltac absent_from_log H :=
  repeat (rewrite in_app_iff in H || rewrite in_map_iff in H
          || rewrite in_flat_map in H);
  cbn [In token_block] in H;
  repeat match type of H with
  | _ \/ _ => destruct H as [H|H]
  | _ /\ _ => let H' := fresh in destruct H as [H' H]
  | ex _ => let x := fresh in destruct H as [x H]
  end;
  solve [congruence | contradiction].




Lemma token_block_stage (t : string) :
  Forall (fun c => (4 <= stage c)%nat) (token_block t).
Proof. repeat constructor. Qed.

Lemma token_blocks_stage (tokens : list string) :
  Forall (fun c => (4 <= stage c)%nat) (flat_map token_block tokens).
Proof.
  induction tokens as [|t tokens IH]; [constructor|].
  cbn [flat_map]. apply Forall_app. split; [apply token_block_stage|exact IH].
Qed.

Ltac stage_bounds :=
  repeat (apply Forall_app; split);
  repeat match goal with
  | |- Forall _ (take _ (token_block _)) =>
      apply Forall_take, token_block_stage
  | |- Forall _ (flat_map token_block _) => apply token_blocks_stage
  | |- Forall _ (token_block _) => apply token_block_stage
  | |- Forall _ (map CCheckTokenHourlyThrottle _) =>
      eapply Forall_impl; [apply throttle_checks_stage|]; cbn; lia
  | |- Forall _ (map CSetTokenHourlyThrottle _) =>
      eapply Forall_impl; [apply throttle_commits_stage|]; cbn; lia
  | |- Forall _ (_ :: _) => constructor; [cbn; lia|]
  | |- Forall _ [] => constructor
  end.






(** ** Failing collaborators *)

Lemma failed_check_in_passed (env : Env) (P : string -> Prop) (c : Call)
    (tokens : list string) :
  Forall (fun t => redis_fails env (CCheckTokenHourlyThrottle t) = false /\ P t)
         tokens ->
  In c (map CCheckTokenHourlyThrottle tokens) ->
  redis_fails env c = true -> False.
Proof.
  intros Hall Hin Hf. apply in_map_iff in Hin as (t & <- & Ht).
  rewrite Forall_forall in Hall. destruct (Hall t) as [Hok _].
  - now apply list_elem_of_In.
  - congruence.
Qed.

Lemma later_gate_in_loop (c : Call) (l : list Call) :
  (stage c <= 3)%nat -> Forall (fun c' => (4 <= stage c')%nat) l -> In c l -> False.
Proof.
  intros Hc Hl Hin. rewrite Forall_forall in Hl.
  apply list_elem_of_In, Hl in Hin. lia.
Qed.

Ltac fault_cases Hin :=
  repeat (rewrite in_app_iff in Hin); cbn [In] in Hin;
  repeat match type of Hin with
  | _ \/ _ => destruct Hin as [Hin|Hin]
  | False => destruct Hin
  end.

(** A store fault at a check that ends the request: the answer is the one
    of that check, and nothing was transferred. Of a combined request only
    the checks up to the proof of work are meant. *)
Lemma failed_store_check h env ip req r :
  forall call,
    In call (calls (fst (run (RequestTokens h env ip (Some req)) (initial r)))) ->
    is_check call = true ->
    redis_fails env call = true ->
    (token_of req = "BOTH" -> (stage call <= 3)%nat) ->
    Some (snd (run (RequestTokens h env ip (Some req)) (initial r))) = fault_answer call
    /\ sent (fst (run (RequestTokens h env ip (Some req)) (initial r))) = []
    /\ last (calls (fst (run (RequestTokens h env ip (Some req)) (initial r))))
       = Some call.
Proof.
  unfold token_of. run_to_wp. unfold RequestTokens.
  wp_exec.
  all: intros call Hin Hcheck Hfail Hboth.
  all: rewrite ?map_app in Hin |- *; cbn [map] in Hin |- *; rewrite ?app_assoc.
  all: fault_cases Hin.
  all: try (subst call; first [discriminate Hcheck | congruence]).
  all: try solve [
         exfalso;
         match goal with
         | H : Forall _ ?ts, Hin : In _ (map CCheckTokenHourlyThrottle ?ts) |- _ =>
             apply in_map_iff in Hin as (t' & <- & Ht');
             rewrite Forall_forall in H;
             apply list_elem_of_In, H in Ht'; destruct Ht'; congruence
         end ].
  all: try solve [
         exfalso;
         try match goal with H : _ \/ _ |- _ =>
           destruct H as [(_ & -> & _)|(? & ? & _ & _ & ->)] end;
         match goal with
         | Hin : In ?x ?l |- _ =>
             apply (later_gate_in_loop x l); [auto | stage_bounds | exact Hin]
         end ].
  all: try (subst call; cbn [fault_answer];
            split; [reflexivity|]; split; [reflexivity|]; apply last_snoc).
Qed.

(** A failing node during the balance read or the transfer of a
    single-token request: the answer is the one of that call, and nothing
    was transferred. *)
Lemma failed_node_call h env ip req r chain provider :
  token_of req ≠ "BOTH" ->
  getChain h (Network req) = inr (chain, provider) ->
  (In (CGetBalance (token_of req))
      (calls (fst (run (RequestTokens h env ip (Some req)) (initial r)))) ->
   GetBalance chain (GetFaucetAddress provider) (token_of req) = None ->
   Some (snd (run (RequestTokens h env ip (Some req)) (initial r)))
   = fault_answer (CGetBalance (token_of req))
   /\ sent (fst (run (RequestTokens h env ip (Some req)) (initial r))) = []
   /\ last (calls (fst (run (RequestTokens h env ip (Some req)) (initial r))))
      = Some (CGetBalance (token_of req)))
  /\ (In (CTransferTokens (token_of req))
         (calls (fst (run (RequestTokens h env ip (Some req)) (initial r)))) ->
      TransferTokens chain (Address req) (token_of req)
        (wei_of env provider (token_of req)) = None ->
      Some (snd (run (RequestTokens h env ip (Some req)) (initial r)))
      = fault_answer (CTransferTokens (token_of req))
      /\ sent (fst (run (RequestTokens h env ip (Some req)) (initial r))) = []
      /\ last (calls (fst (run (RequestTokens h env ip (Some req)) (initial r))))
         = Some (CTransferTokens (token_of req))).
Proof.
  unfold token_of, wei_of.
  intros Hsingle Hchain. run_to_wp. unfold RequestTokens.
  wp_exec.
  all: split; intros Hin Hnone.
  all: try solve [exfalso; clear - Hin; absent_from_log Hin].
  all: try congruence.
  all: cbn [fault_answer]; split; [reflexivity|]; split; [reflexivity|].
  all: apply last_snoc.
Qed.

(** One turn of a combined request's loop with a failing collaborator: the
    turn breaks and transfers nothing. *)
Lemma failed_turn env req chain provider token st :
  redis_fails env (CTrackGlobalDistribution token) = true
  \/ GetBalance chain (GetFaucetAddress provider) token = None
  \/ TransferTokens chain (Address req) token (wei_of env provider token) = None ->
  snd (both_iteration env req chain provider token st) = inl ()
  /\ sent (fst (both_iteration env req chain provider token st)) = sent st.
Proof.
  unfold wei_of. intros Hfault.
  pattern (fst (both_iteration env req chain provider token st)),
          (snd (both_iteration env req chain provider token st)).
  change (wp (both_iteration env req chain provider token) st
            (fun st' res => res = inl () /\ sent st' = sent st)).
  unfold both_iteration. wp_run.
  all: try (split; reflexivity).
  all: exfalso; destruct Hfault as [?|[?|?]]; congruence.
Qed.

(** C6. Failing collaborators. A store error at the daily-quota check or at
    a throttle check ends the request with 500 "Failed to check rate
    limit", and at the distribution check of a single-token request with
    500 "Failed to process request"; a node error at the balance read or at
    the transfer of a single-token request ends it with 500 "Failed to
    check faucet balance" or 500 "Failed to send tokens". A store error at
    the read of the challenge, however, ends the request with 400 "Invalid
    or expired challenge", the answer an unknown challenge gets. In each
    case the failed call is the last one and nothing was transferred; and a
    turn of a combined request's loop in which a collaborator fails
    transfers nothing. *)
Theorem collaborator_failures h env ip req r chain provider :
  getChain h (Network req) = inr (chain, provider) ->
  (forall call,
     In call (calls (fst (run (RequestTokens h env ip (Some req)) (initial r)))) ->
     is_check call = true ->
     redis_fails env call = true ->
     (token_of req = "BOTH" -> (stage call <= 3)%nat) ->
     Some (snd (run (RequestTokens h env ip (Some req)) (initial r)))
     = fault_answer call
     /\ (call <> CGetChallenge ->
         is_retry_error (snd (run (RequestTokens h env ip (Some req)) (initial r)))
         = true)
     /\ (call = CGetChallenge ->
         snd (run (RequestTokens h env ip (Some req)) (initial r))
         = ErrorResponse StatusBadRequest ErrInvalidChallenge)
     /\ sent (fst (run (RequestTokens h env ip (Some req)) (initial r))) = []
     /\ last (calls (fst (run (RequestTokens h env ip (Some req)) (initial r))))
        = Some call)
  /\ (token_of req ≠ "BOTH" ->
      (In (CGetBalance (token_of req))
          (calls (fst (run (RequestTokens h env ip (Some req)) (initial r)))) ->
       GetBalance chain (GetFaucetAddress provider) (token_of req) = None ->
       snd (run (RequestTokens h env ip (Some req)) (initial r))
       = ErrorResponse StatusInternalServerError ErrCheckBalance
       /\ sent (fst (run (RequestTokens h env ip (Some req)) (initial r))) = []
       /\ last (calls (fst (run (RequestTokens h env ip (Some req)) (initial r))))
          = Some (CGetBalance (token_of req)))
      /\ (In (CTransferTokens (token_of req))
             (calls (fst (run (RequestTokens h env ip (Some req)) (initial r)))) ->
          TransferTokens chain (Address req) (token_of req)
            (wei_of env provider (token_of req)) = None ->
          snd (run (RequestTokens h env ip (Some req)) (initial r))
          = ErrorResponse StatusInternalServerError ErrSendTokens
          /\ sent (fst (run (RequestTokens h env ip (Some req)) (initial r))) = []
          /\ last (calls (fst (run (RequestTokens h env ip (Some req)) (initial r))))
             = Some (CTransferTokens (token_of req))))
  /\ (forall token st,
        redis_fails env (CTrackGlobalDistribution token) = true
        \/ GetBalance chain (GetFaucetAddress provider) token = None
        \/ TransferTokens chain (Address req) token (wei_of env provider token)
           = None ->
        snd (both_iteration env req chain provider token st) = inl ()
        /\ sent (fst (both_iteration env req chain provider token st)) = sent st).
Proof.
  intros Hchain. split; [|split].
  - intros call Hin Hcheck Hfail Hboth.
    destruct (failed_store_check h env ip req r call Hin Hcheck Hfail Hboth)
      as (Hanswer & Hsent & Hlast).
    split; [exact Hanswer|]. split; [|split; [|now split]].
    + intros Hne. destruct call; try discriminate Hcheck; try congruence;
        cbn [fault_answer] in Hanswer; injection Hanswer as ->; reflexivity.
    + intros ->. cbn [fault_answer] in Hanswer. now injection Hanswer.
  - intros Hsingle.
    destruct (failed_node_call h env ip req r chain provider Hsingle Hchain)
      as [Hbalance Htransfer].
    split.
    + intros Hin Hnone. destruct (Hbalance Hin Hnone) as (Hanswer & Hrest).
      cbn [fault_answer] in Hanswer. injection Hanswer as ->. now split.
    + intros Hin Hnone. destruct (Htransfer Hin Hnone) as (Hanswer & Hrest).
      cbn [fault_answer] in Hanswer. injection Hanswer as ->. now split.
  - intros token st. apply failed_turn.
Qed.

Lemma collaborator_failures_witness :
  snd (run (RequestTokens (Sample.handler Sample.eth_ok Sample.sn_ok)
              (Sample.env_at Sample.t0 (Sample.fails_at CCheckIPDailyLimit))
              Sample.caller (Some Sample.req_eth))
           (initial Sample.store))
  = ErrorResponse StatusInternalServerError ErrCheckRateLimit.
Proof.
  assert (Hanswer :
    Some (snd (run (RequestTokens (Sample.handler Sample.eth_ok Sample.sn_ok)
                      (Sample.env_at Sample.t0 (Sample.fails_at CCheckIPDailyLimit))
                      Sample.caller (Some Sample.req_eth))
                   (initial Sample.store)))
    = fault_answer CCheckIPDailyLimit).
  { refine (proj1 (proj1 (collaborator_failures
      (Sample.handler Sample.eth_ok Sample.sn_ok)
      (Sample.env_at Sample.t0 (Sample.fails_at CCheckIPDailyLimit))
      Sample.caller Sample.req_eth Sample.store
      Sample.eth_ok Sample.eth_provider _) CCheckIPDailyLimit _ _ _ _)).
    - vm_compute. reflexivity.
    - vm_compute. tauto.
    - reflexivity.
    - vm_compute. reflexivity.
    - intros _. cbn. lia. }
  apply (inj Some). exact Hanswer.
Defined.

(** A store that fails at the read of the challenge: the request is
    answered 400 "Invalid or expired challenge", a proof-of-work rejection
    and not a try-again error. *)
Lemma challenge_read_fault_is_pow_rejection :
  snd (run (RequestTokens (Sample.handler Sample.eth_ok Sample.sn_ok)
              (Sample.env_at Sample.t0 (Sample.fails_at CGetChallenge))
              Sample.caller (Some Sample.req_eth))
           (initial Sample.store))
  = ErrorResponse StatusBadRequest ErrInvalidChallenge
  /\ ~ store_faults_are_retry_errors.
Proof.
  assert (Hrun :
    snd (run (RequestTokens (Sample.handler Sample.eth_ok Sample.sn_ok)
                (Sample.env_at Sample.t0 (Sample.fails_at CGetChallenge))
                Sample.caller (Some Sample.req_eth))
             (initial Sample.store))
    = ErrorResponse StatusBadRequest ErrInvalidChallenge)
    by (vm_compute; reflexivity).
  split; [exact Hrun|].
  intros Hclaim.
  specialize (Hclaim (Sample.handler Sample.eth_ok Sample.sn_ok)
                (Sample.env_at Sample.t0 (Sample.fails_at CGetChallenge))
                Sample.caller Sample.req_eth Sample.store CGetChallenge).
  rewrite Hrun in Hclaim. cbn [is_retry_error] in Hclaim.
  assert (Hin : In CGetChallenge
    (calls (fst (run (RequestTokens (Sample.handler Sample.eth_ok Sample.sn_ok)
                        (Sample.env_at Sample.t0 (Sample.fails_at CGetChallenge))
                        Sample.caller (Some Sample.req_eth))
                     (initial Sample.store))))) by (vm_compute; tauto).
  specialize (Hclaim Hin eq_refl eq_refl). discriminate Hclaim.
Qed.

(** ** Charging a combined request *)

Lemma daily_used_ext now ip r r' :
  ip_daily r = ip_daily r' -> daily_used now ip r = daily_used now ip r'.
Proof. unfold daily_used. now intros ->. Qed.

Lemma Increment_used now ip n r :
  daily_used now ip (IncrementIPDailyLimit now ip n r) = daily_used now ip r + n.
Proof.
  unfold daily_used, IncrementIPDailyLimit. cbv zeta.
  assert (Hday : (now <? (now / day + 1) * day) = true).
  { apply Z.ltb_lt. unfold day.
    pose proof (Z.mod_pos_bound now 86400 ltac:(lia)).
    pose proof (Z.div_mod now 86400 ltac:(lia)). lia. }
  destruct (ip_daily r !! ip) as [[used expiry]|] eqn:Hentry; cbn [live_entry].
  - destruct (now <? expiry) eqn:Hlive.
    + destruct (_ <=? _); cbn [ip_daily set_ip_cooldown set_ip_daily];
        rewrite lookup_insert_eq; cbn [live_entry]; now rewrite Hlive.
    + destruct (_ <=? _); cbn [ip_daily set_ip_cooldown set_ip_daily];
        rewrite lookup_insert_eq; cbn [live_entry]; now rewrite Hday.
  - destruct (_ <=? _); cbn [ip_daily set_ip_cooldown set_ip_daily];
      rewrite lookup_insert_eq; cbn [live_entry]; now rewrite Hday.
Qed.

Lemma commit_throttles_ip_daily env ip network tokens :
  forall r, ip_daily (commit_throttles env ip network tokens r) = ip_daily r.
Proof.
  unfold commit_throttles.
  induction tokens as [|t tokens IH]; intros r; [reflexivity|].
  cbn [fold_left]. rewrite IH. now destruct (redis_fails env _).
Qed.

Lemma commit_throttles_ip_cooldown env ip network tokens :
  forall r, ip_cooldown (commit_throttles env ip network tokens r) = ip_cooldown r.
Proof.
  unfold commit_throttles.
  induction tokens as [|t tokens IH]; intros r; [reflexivity|].
  cbn [fold_left]. rewrite IH. now destruct (redis_fails env _).
Qed.

(** A marker after the throttle commits for [tokens]: one hour from now if
    one of the commits was for that key and did not fail, the marker of
    before otherwise. *)
Lemma commit_throttles_lookup env ip network tokens key :
  forall r,
    token_throttle (commit_throttles env ip network tokens r) !! key
    = if existsb (fun t' => bool_decide (key = (ip, network, t'))
                            && negb (redis_fails env (CSetTokenHourlyThrottle t')))
                 tokens
      then Some (now env + hour)
      else token_throttle r !! key.
Proof.
  unfold commit_throttles.
  induction tokens as [|a tokens IH]; intros r; [reflexivity|].
  cbn [fold_left existsb]. rewrite IH.
  destruct (existsb _ tokens); [now rewrite orb_true_r|].
  rewrite orb_false_r.
  destruct (redis_fails env (CSetTokenHourlyThrottle a)); cbn [negb].
  - now rewrite andb_false_r.
  - rewrite andb_true_r. unfold SetTokenHourlyThrottle.
    cbn [set_token_throttle token_throttle].
    case_bool_decide as Heq.
    + subst key. apply lookup_insert_eq.
    + apply lookup_insert_ne. congruence.
Qed.

Lemma commit_throttles_marker_set env ip network tokens t r :
  In t tokens -> redis_fails env (CSetTokenHourlyThrottle t) = false ->
  token_throttle (commit_throttles env ip network tokens r) !! (ip, network, t)
  = Some (now env + hour).
Proof.
  intros Hin Hok. rewrite commit_throttles_lookup.
  replace (existsb _ tokens) with true; [reflexivity|].
  symmetry. apply existsb_exists. exists t. split; [exact Hin|].
  rewrite Hok, andb_true_r. now apply bool_decide_eq_true_2.
Qed.

Lemma commit_throttles_marker_kept env ip network tokens t r :
  ~ In t tokens ->
  token_throttle (commit_throttles env ip network tokens r) !! (ip, network, t)
  = token_throttle r !! (ip, network, t).
Proof.
  intros Hnotin. rewrite commit_throttles_lookup.
  replace (existsb _ tokens) with false; [reflexivity|].
  symmetry. apply not_true_is_false. intros Hex.
  apply existsb_exists in Hex as (t' & Hin & Ht').
  apply andb_prop in Ht' as [Heq _]. apply bool_decide_eq_true in Heq.
  injection Heq as ->. contradiction.
Qed.

Lemma token_blocks_no_commit (tokens : list string) :
  Forall (fun c => is_commit c = false) (flat_map token_block tokens).
Proof.
  induction tokens as [|t tokens IH]; [constructor|].
  cbn [flat_map]. apply Forall_app. split; [now repeat constructor|exact IH].
Qed.

Ltac no_commits :=
  repeat (apply Forall_app; split);
  repeat match goal with
  | |- Forall _ (take _ (token_block _)) =>
      apply Forall_take; now repeat constructor
  | |- Forall _ (flat_map token_block _) => apply token_blocks_no_commit
  | |- Forall _ (token_block _) => now repeat constructor
  | |- Forall _ (map CCheckTokenHourlyThrottle _) =>
      apply Forall_map; now apply Forall_true
  | |- Forall _ (_ :: _) => constructor; [reflexivity|]
  | |- Forall _ [] => constructor
  end.

(** C5. Charging a partial success. When a combined request is answered
    with a partial success, the tokens before the named one in the chain's
    list were transferred, one transaction each, and the named token was
    not. The throttle commits are for the transferred tokens only: their
    markers are set for one hour, every other marker of the caller on that
    network is as before. The daily commit is of 2 units whatever the
    number of transfers: the counter grows by 2. *)
Theorem partial_success_charging h env ip req r chain provider fr n failed :
  token_of req = "BOTH" ->
  getChain h (Network req) = inr (chain, provider) ->
  snd (run (RequestTokens h env ip (Some req)) (initial r)) = FaucetOK fr ->
  resp_Message fr = MsgPartial n failed ->
  exists done rest gates,
    GetSupportedTokens chain = done ++ failed :: rest
    /\ done <> [] /\ n = length done /\ failed <> EmptyString
    /\ map tx_Token (resp_Transactions fr) = done
    /\ sent (fst (run (RequestTokens h env ip (Some req)) (initial r)))
       = map (fun t => (t, wei_of env provider t)) done
    /\ calls (fst (run (RequestTokens h env ip (Some req)) (initial r)))
       = gates ++ CIncrementIPDailyLimit 2 :: map CSetTokenHourlyThrottle done
    /\ Forall (fun c => is_commit c = false) gates
    /\ (redis_fails env (CIncrementIPDailyLimit 2) = false ->
        daily_used (now env) ip
          (redis (fst (run (RequestTokens h env ip (Some req)) (initial r))))
        = daily_used (now env) ip r + 2)
    /\ (forall t,
          In t done -> redis_fails env (CSetTokenHourlyThrottle t) = false ->
          token_throttle
            (redis (fst (run (RequestTokens h env ip (Some req)) (initial r))))
            !! (ip, network_of h req, t) = Some (now env + hour))
    /\ (forall t,
          ~ In t done ->
          token_throttle
            (redis (fst (run (RequestTokens h env ip (Some req)) (initial r))))
            !! (ip, network_of h req, t)
          = token_throttle r !! (ip, network_of h req, t)).
Proof.
  unfold token_of, network_of. intros Hboth Hchain. run_to_wp.
  unfold RequestTokens.
  wp_exec.
  all: intros Hresp Hmsg; try discriminate Hresp.
  all: injection Hresp as <-; cbn [resp_Message resp_Transactions] in *.
  all: case_bool_decide as Hfailed; [|discriminate Hmsg].
  all: injection Hmsg as <- <-.
  all: destruct Hend as [(_ & _ & ->)|(rest' & k & -> & Hk & ->)]; [congruence|].
  all: unfold network_of; cbn [Network with_Token].
  all: lazymatch goal with
       | |- context [?p ++ ?blocks ++ ?tl ++ CIncrementIPDailyLimit 2 :: _] =>
           exists (tx_Token t :: map tx_Token txs), rest', (p ++ blocks ++ tl)
       end.
  all: split; [exact Hsplit|].
  all: split; [discriminate|].
  all: split; [cbn [length]; now rewrite length_map|].
  all: split; [exact Hfailed|].
  all: split; [reflexivity|].
  all: split; [reflexivity|].
  all: split; [now rewrite <- !app_assoc|].
  all: split; [no_commits|].
  all: destruct Hfr as (_ & Hdaily & _ & Hthrottle & _).
  all: split; [intros Hok;
               rewrite (daily_used_ext _ _ _ _ (commit_throttles_ip_daily _ _ _ _ _));
               unfold commit_daily; rewrite Hok, Increment_used; f_equal;
               apply daily_used_ext; rewrite Hdaily;
               now autorewrite with store|].
  all: split; [intros t0 Hin Hok; now apply commit_throttles_marker_set|].
  all: intros t0 Hnotin; rewrite commit_throttles_marker_kept by exact Hnotin.
  all: autorewrite with store; rewrite Hthrottle; now autorewrite with store.
Qed.

Lemma partial_success_charging_witness :
  daily_used Sample.t0 Sample.caller
    (redis (fst (run (RequestTokens (Sample.handler Sample.eth_ok Sample.sn_eth_fails)
                        (Sample.env_at Sample.t0 Sample.no_faults)
                        Sample.caller (Some Sample.req_both))
                     (initial Sample.store))))
  = daily_used Sample.t0 Sample.caller Sample.store + 2.
Proof.
  edestruct (partial_success_charging
               (Sample.handler Sample.eth_ok Sample.sn_eth_fails)
               (Sample.env_at Sample.t0 Sample.no_faults)
               Sample.caller Sample.req_both Sample.store
               Sample.sn_eth_fails Sample.sn_provider)
    as (done & rest & gates & _ & _ & _ & _ & _ & _ & _ & _ & Hdaily & _).
  - vm_compute. reflexivity.
  - vm_compute. reflexivity.
  - vm_compute. reflexivity.
  - vm_compute. reflexivity.
  - exact (Hdaily eq_refl).
Defined.

(** A combined request on the sample Starknet node whose transfers of ETH
    fail: STRK is transferred, ETH is not, the answer is a partial success
    naming ETH, and the daily counter of the caller grows by 2. *)
Lemma partial_success_charged_in_full :
  map fst (sent (fst (run (RequestTokens
                             (Sample.handler Sample.eth_ok Sample.sn_eth_fails)
                             (Sample.env_at Sample.t0 Sample.no_faults)
                             Sample.caller (Some Sample.req_both))
                          (initial Sample.store)))) = ["STRK"]
  /\ daily_used Sample.t0 Sample.caller
       (redis (fst (run (RequestTokens
                          (Sample.handler Sample.eth_ok Sample.sn_eth_fails)
                          (Sample.env_at Sample.t0 Sample.no_faults)
                          Sample.caller (Some Sample.req_both))
                       (initial Sample.store)))) = 2
  /\ ~ partial_success_charges_per_transfer.
Proof.
  split; [vm_compute; reflexivity|]. split; [vm_compute; reflexivity|].
  intros Hclaim.
  specialize (Hclaim (Sample.handler Sample.eth_ok Sample.sn_eth_fails)
                (Sample.env_at Sample.t0 Sample.no_faults)
                Sample.caller Sample.req_both Sample.store).
  vm_compute in Hclaim.
  specialize (Hclaim _ _ _ eq_refl eq_refl eq_refl eq_refl).
  discriminate Hclaim.
Qed.

(** ** The hourly throttle *)

Lemma passed_throttle_gate_intro (log : list Call) (c : Call) :
  In c log -> (3 <= stage c)%nat -> passed_throttle_gate log = true.
Proof.
  intros Hin Hc. apply existsb_exists. exists c. split; [exact Hin|].
  now apply Nat.leb_le.
Qed.

Lemma stopped_at_throttle_gate (log : list Call) :
  Forall (fun c => (stage c <= 2)%nat) log -> passed_throttle_gate log = false.
Proof.
  intros Hall. apply not_true_is_false. intros Hp.
  apply existsb_exists in Hp as (c & Hin & Hc). apply Nat.leb_le in Hc.
  rewrite Forall_forall in Hall. apply list_elem_of_In, Hall in Hin. lia.
Qed.

Lemma throttle_gate h env ip req r chain provider :
  getChain h (Network req) = inr (chain, provider) ->
  (forall t, In t (throttle_tokens chain req) ->
             redis_fails env (CCheckTokenHourlyThrottle t) = false) ->
  (exists t, In (CCheckTokenHourlyThrottle t)
               (calls (fst (run (RequestTokens h env ip (Some req)) (initial r))))) ->
  (passed_throttle_gate
     (calls (fst (run (RequestTokens h env ip (Some req)) (initial r)))) = true
   <-> Forall (fun t => throttle_marker (now env) ip (network_of h req) t r = None)
              (throttle_tokens chain req))
  /\ (passed_throttle_gate
        (calls (fst (run (RequestTokens h env ip (Some req)) (initial r)))) = false ->
      exists t next,
        In t (throttle_tokens chain req)
        /\ throttle_marker (now env) ip (network_of h req) t r = Some next
        /\ snd (run (RequestTokens h env ip (Some req)) (initial r))
           = ErrorResponse StatusTooManyRequests
               (ErrHourlyLimit t (network_of h req)
                  (Z.quot (next - now env) 60 + 1))).
Proof.
  unfold throttle_tokens, throttle_marker, token_of.
  intros Hchain Hok. run_to_wp. unfold RequestTokens.
  wp_exec.
  all: intros [t0 Hin].
  all: try solve [exfalso; clear - Hin; absent_from_log Hin].
  all: clear t0 Hin.
  all: fold (network_of h req) in *.
  all: try solve [exfalso;
                  match goal with
                  | H : redis_fails _ (CCheckTokenHourlyThrottle ?t) = true |- _ =>
                      rewrite Hok in H; [discriminate H|];
                      first [now left | subst; apply in_elt
                            | match goal with E : _ ++ t :: _ = _ |- _ =>
                                rewrite <- E; apply in_elt end]
                  end].
  all: lazymatch goal with
       | |- context [passed_throttle_gate ?l] =>
           first
           [ assert (Hp : passed_throttle_gate l = true)
               by (apply (passed_throttle_gate_intro _ CGetChallenge);
                   [in_log | cbn; lia]);
             rewrite Hp; split; [split; [intros _|reflexivity] | discriminate]
           | assert (Hp : passed_throttle_gate l = false)
               by (apply stopped_at_throttle_gate; stage_bounds);
             rewrite Hp; split; [split; [discriminate | intros HF] | intros _] ]
       end.
  all: try (repeat constructor; assumption).
  all: try (eapply Forall_impl; [eassumption|]; cbn; now intros ? [_ ?]).
  all: try solve [
         exfalso;
         match goal with
         | Hl : live_marker _ (_ !! (_, _, ?t)) = Some _ |- _ =>
             rewrite Forall_forall in HF; rewrite (HF t) in Hl;
             [discriminate Hl|];
             apply list_elem_of_In;
             first [ now left | apply in_elt
                   | match goal with E : _ ++ _ :: _ = _ |- _ =>
                       rewrite <- E; apply in_elt end ]
         end ].
  all: do 2 eexists; (split; [|split; [|reflexivity]]).
  all: first [ eassumption
             | now left | apply in_elt
             | match goal with E : _ ++ _ :: _ = _ |- _ =>
                 rewrite <- E; apply in_elt end ].
Qed.

Lemma sent_tokens (f : string -> Z) (tokens : list string) :
  map fst (map (fun t => (t, f t)) tokens) = tokens.
Proof.
  induction tokens as [|t tokens IH]; [reflexivity|].
  cbn [map fst]. now rewrite IH.
Qed.

(** A request that transfers a token passed the throttle check of that
    token, and, unless the commit fails, leaves its marker one hour ahead. *)
Lemma marker_after_transfer h env ip req r token :
  In token (map fst (sent (fst (run (RequestTokens h env ip (Some req)) (initial r))))) ->
  throttle_marker (now env) ip (network_of h req) token r = None
  /\ (redis_fails env (CSetTokenHourlyThrottle token) = false ->
      token_throttle (redis (fst (run (RequestTokens h env ip (Some req)) (initial r))))
        !! (ip, network_of h req, token) = Some (now env + hour)).
Proof.
  unfold throttle_marker. run_to_wp. unfold RequestTokens.
  wp_exec.
  all: fold (network_of h req) in *.
  all: cbn [map fst app]; rewrite ?sent_tokens; intros Hin;
       try contradiction.
  all: try (destruct Hin as [<-|[]]; split; [assumption|]; intros Hok;
            try congruence;
            unfold SetTokenHourlyThrottle;
            cbn [set_token_throttle token_throttle];
            apply lookup_insert_eq).
  all: split; [|intros Hok; now apply commit_throttles_marker_set].
  all: match goal with H : Forall _ _ |- _ =>
         rewrite Forall_forall in H; apply H end.
  all: apply list_elem_of_In; rewrite Hsplit; apply in_or_app; now left.
Qed.

Lemma expired_marker_before (now e : Z) :
  live_marker now (Some e) = None -> e <= now + hour.
Proof.
  cbn [live_marker]. unfold hour.
  destruct (now <? e) eqn:Hlive; [discriminate|].
  apply Z.ltb_ge in Hlive. lia.
Qed.

(** No request moves a throttle marker back: a marker is only ever
    replaced by a request that found it expired, with one that expires
    later. *)
Lemma marker_never_earlier h env ip body r key e :
  token_throttle r !! key = Some e ->
  exists e',
    token_throttle (redis (fst (run (RequestTokens h env ip body) (initial r))))
      !! key = Some e'
    /\ e <= e'.
Proof.
  intros Hkey. run_to_wp. unfold RequestTokens.
  wp_exec.
  all: repeat match goal with
       | H : only_global_changed _ _ |- _ =>
           destruct H as (_ & _ & _ & H & _)
       end.
  all: autorewrite with store.
  all: repeat match goal with H : token_throttle _ = _ |- _ => rewrite H end.
  all: autorewrite with store.
  all: try (exists e; split; [exact Hkey | lia]).
  all: try match goal with
       | Hlive : live_marker _ (_ !! ?k) = None |- context [<[?k := _]> _ !! _] =>
           destruct (decide (key = k)) as [->|Hne];
           [ rewrite lookup_insert_eq; eexists; split; [reflexivity|];
             rewrite Hkey in Hlive; now apply expired_marker_before
           | rewrite lookup_insert_ne by congruence;
             exists e; split; [exact Hkey | lia] ]
       end.
  all: rewrite commit_throttles_lookup.
  all: match goal with |- context [existsb ?f ?l] =>
         destruct (existsb f l) eqn:Hex end.
  all: try (autorewrite with store;
            repeat match goal with H : token_throttle _ = _ |- _ => rewrite H end;
            autorewrite with store; exists e; split; [exact Hkey | lia]).
  all: apply existsb_exists in Hex as (t' & Hin & Ht').
  all: apply andb_prop in Ht' as [Heq _]; apply bool_decide_eq_true in Heq.
  all: subst key; eexists; split; [reflexivity|].
  all: apply expired_marker_before; rewrite <- Hkey.
  all: match goal with H : Forall _ _ |- _ =>
         rewrite Forall_forall in H; apply H end.
  all: apply list_elem_of_In; rewrite Hsplit; apply in_or_app; now left.
Qed.

Lemma serve_marker_never_earlier subs :
  forall r key e,
    token_throttle r !! key = Some e ->
    exists e', token_throttle (serve subs r) !! key = Some e' /\ e <= e'.
Proof.
  induction subs as [|s subs IH]; intros r key e Hkey.
  - exists e. split; [exact Hkey | lia].
  - cbn [serve]. unfold submit.
    destruct (marker_never_earlier (sub_handler s) (sub_env s) (sub_ip s)
                (sub_body s) r key e Hkey) as (e1 & Hkey1 & Hle1).
    destruct (IH _ key e1 Hkey1) as (e2 & Hkey2 & Hle2).
    exists e2. split; [exact Hkey2 | lia].
Qed.


(** The handler call by call: each of its parts, when it is not paused,
    does what the part of [Api] does. *)

Lemma follows_ret {A} (a : A) :
  Overlap.follows (@mret Overlap.Resumable Overlap.Resumable_ret A a)
                  (mret a).
Proof. intros k st. reflexivity. Qed.

Lemma follows_bind {A B} (m' : Overlap.Resumable A) (m : Step Response A)
    (f' : A -> Overlap.Resumable B) (f : A -> Step Response B) :
  Overlap.follows m' m -> (forall a, Overlap.follows (f' a) (f a)) ->
  Overlap.follows (@mbind Overlap.Resumable Overlap.Resumable_bind A B f' m')
                  (m ≫= f).
Proof.
  intros Hm Hf k st. unfold mbind, Overlap.Resumable_bind, Step_bind.
  rewrite Hm. destruct (m st) as [st' [resp|a]]; [reflexivity|]. apply Hf.
Qed.

Lemma follows_call {A} (m : Step Response A) :
  Overlap.follows (Overlap.call m) m.
Proof.
  intros k st. unfold Overlap.call. cbn [Overlap.finish].
  destruct (m st) as [st' [resp|a]]; reflexivity.
Qed.

Lemma follows_stop {A} (resp : Response) :
  Overlap.follows (Overlap.stop (A := A) (Overlap.Answered resp))
                  (leave resp).
Proof. intros k st. reflexivity. Qed.

Lemma follows_reject {A} (status : Z) (e : ErrorText) :
  Overlap.follows (Overlap.reject (A := A) status e) (reject status e).
Proof. intros k st. reflexivity. Qed.

Ltac follow :=
  repeat first
    [ apply follows_ret
    | apply follows_reject
    | apply follows_stop
    | apply follows_call
    | apply follows_bind; [|intros ?]
    | progress cbv zeta
    | match goal with
      | |- Overlap.follows (match ?x with _ => _ end) _ => destruct x
      end ].

Lemma follows_check_throttle env ip network token :
  Overlap.follows (Overlap.check_throttle env ip network token)
                  (check_throttle env ip network token).
Proof. unfold Overlap.check_throttle, check_throttle. follow. Qed.

Lemma follows_check_throttles env ip network tokens :
  Overlap.follows (Overlap.check_throttles env ip network tokens)
                  (check_throttles env ip network tokens).
Proof.
  induction tokens as [|t tokens IH];
    cbn [Overlap.check_throttles check_throttles].
  - apply follows_ret.
  - apply follows_bind; [apply follows_check_throttle | intros _; exact IH].
Qed.

Lemma follows_set_throttles env ip network txs :
  Overlap.follows (Overlap.set_throttles env ip network txs)
                  (set_throttles env ip network txs).
Proof.
  induction txs as [|tx txs IH]; cbn [Overlap.set_throttles set_throttles].
  - apply follows_ret.
  - apply follows_bind; [apply follows_call | intros _; exact IH].
Qed.

(** One turn of the loop: a [break] goes on with what follows the loop. *)
Lemma both_iteration_follows env req chain provider token break
    (k : TransactionInfo -> Overlap.Task) st :
  Overlap.finish
    (Overlap.both_iteration env req chain provider token break k) st
  = match both_iteration env req chain provider token st with
    | (st', inl _) => Overlap.finish break st'
    | (st', inr tx) => Overlap.finish (k tx) st'
    end.
Proof.
  unfold Overlap.both_iteration, both_iteration.
  unfold mbind, mret, Overlap.Resumable_bind, Overlap.Resumable_ret,
    Step_bind, Step_ret, Overlap.call, Overlap.stop, leave,
    redis_update, log, transfer.
  cbn [Overlap.finish fst snd redis calls sent].
  destruct (redis_fails env (CTrackGlobalDistribution token));
    cbn [Overlap.finish fst snd redis calls sent]; [reflexivity|].
  destruct (fst (TrackGlobalDistribution _ _ _ _ _ _));
    cbn [Overlap.finish fst snd redis calls sent]; [|reflexivity].
  destruct (GetBalance chain _ token); [|reflexivity].
  destruct (_ <? _)%float; [reflexivity|].
  cbn [Overlap.finish fst snd redis calls sent].
  destruct (TransferTokens chain _ token _);
    cbn [Overlap.finish fst snd redis calls sent]; reflexivity.
Qed.

Lemma both_loop_follows env req chain provider tokens :
  forall txs (k : list TransactionInfo * string -> Overlap.Task) st,
    Overlap.finish (Overlap.both_loop env req chain provider tokens txs k) st
    = Overlap.finish (k (snd (both_loop env req chain provider tokens txs st)))
        (fst (both_loop env req chain provider tokens txs st)).
Proof.
  induction tokens as [|t tokens IH]; intros txs k st;
    cbn [Overlap.both_loop both_loop].
  - reflexivity.
  - rewrite both_iteration_follows.
    destruct (both_iteration env req chain provider t st) as [st' [[]|tx]].
    + reflexivity.
    + apply IH.
Qed.

Lemma follows_both_loop env req chain provider tokens txs :
  Overlap.follows
    (Overlap.both_loop env req chain provider tokens txs)
    (fun st => let '(st', out) :=
                 both_loop env req chain provider tokens txs st in
               (st', inr out)).
Proof.
  intros k st. rewrite both_loop_follows.
  now destruct (both_loop env req chain provider tokens txs st) as [st' out].
Qed.

Lemma follows_handleBoth h env req ip chain provider :
  Overlap.follows
    (Overlap.handleBothTokensRequest h env req ip chain provider)
    (handleBothTokensRequest h env req ip chain provider).
Proof.
  unfold Overlap.handleBothTokensRequest, handleBothTokensRequest. cbv zeta.
  apply follows_bind; [apply follows_both_loop | intros [txs failedToken]].
  repeat first [apply follows_set_throttles | progress follow].
Qed.

Lemma follows_RequestTokens h env ip body :
  Overlap.follows (Overlap.RequestTokens h env ip body)
                  (RequestTokens h env ip body).
Proof.
  unfold Overlap.RequestTokens, RequestTokens.
  repeat first
    [ apply follows_check_throttle
    | apply follows_check_throttles
    | apply follows_handleBoth
    | apply follows_both_loop
    | apply follows_set_throttles
    | progress follow ].
Qed.

(** A request that is never paused is the handler of [Api]. *)
Lemma finish_request h env ip body st :
  Overlap.finish (Overlap.request h env ip body) st
  = run (RequestTokens h env ip body) st.
Proof.
  unfold Overlap.request, run. rewrite follows_RequestTokens.
  destruct (RequestTokens h env ip body st) as [st' [resp|resp]]; reflexivity.
Qed.

(** C7. Hourly throttle. A request that reaches the throttle gate, and
    whose marker reads do not fail, passes it if and only if no token it is
    checked for (its own, or every token of the chain for a combined
    request) has a live marker for the caller on that network; otherwise
    it is answered 429 "hourly limit" naming a token whose marker is live.
    And two requests of the same caller on the same network that both
    transfer the same token, served one after the other in this order with
    any requests in between, are at least one hour apart, provided the
    store wrote the marker of the first: the handler only logs a failure
    of that write. *)
Theorem hourly_throttle h env ip req r chain provider
    (first again : Submission) (between : list Submission) r0 network token :
  (getChain h (Network req) = inr (chain, provider) ->
   (forall t, In t (throttle_tokens chain req) ->
              redis_fails env (CCheckTokenHourlyThrottle t) = false) ->
   (exists t, In (CCheckTokenHourlyThrottle t)
                (calls (fst (run (RequestTokens h env ip (Some req)) (initial r))))) ->
   (passed_throttle_gate
      (calls (fst (run (RequestTokens h env ip (Some req)) (initial r)))) = true
    <-> Forall (fun t => throttle_marker (now env) ip (network_of h req) t r = None)
               (throttle_tokens chain req))
   /\ (passed_throttle_gate
         (calls (fst (run (RequestTokens h env ip (Some req)) (initial r)))) = false ->
       exists t next,
         In t (throttle_tokens chain req)
         /\ throttle_marker (now env) ip (network_of h req) t r = Some next
         /\ snd (run (RequestTokens h env ip (Some req)) (initial r))
            = ErrorResponse StatusTooManyRequests
                (ErrHourlyLimit t (network_of h req)
                   (Z.quot (next - now env) 60 + 1))))
  /\ (disburses first r0 ip network token ->
      redis_fails (sub_env first) (CSetTokenHourlyThrottle token) = false ->
      disburses again (serve between (redis (fst (submit first r0))))
                ip network token ->
      now (sub_env first) + hour <= now (sub_env again)).
Proof.
  split; [apply throttle_gate|].
  intros (Hip1 & (req1 & Hbody1 & Hnet1) & Hsent1) Hok
         (Hip2 & (req2 & Hbody2 & Hnet2) & Hsent2).
  unfold submit in *. rewrite Hbody1 in *. rewrite Hbody2 in *.
  rewrite Hip1 in *. rewrite Hip2 in *.
  destruct (marker_after_transfer _ _ _ _ _ _ Hsent1) as [_ Hset].
  specialize (Hset Hok). rewrite Hnet1 in Hset.
  destruct (serve_marker_never_earlier between _ _ _ Hset) as (e' & Hkey & Hle).
  destruct (marker_after_transfer _ _ _ _ _ _ Hsent2) as [Hpassed _].
  unfold throttle_marker in Hpassed. rewrite Hnet2, Hkey in Hpassed.
  cbn [live_marker] in Hpassed.
  destruct (now (sub_env again) <? e') eqn:Hlive; [discriminate|].
  apply Z.ltb_ge in Hlive. lia.
Qed.

Lemma hourly_throttle_witness :
  disburses (Sample.submission Sample.t0 Sample.no_faults Sample.req_eth)
            Sample.store2 Sample.caller "ethereum" "ETH"
  /\ disburses (Sample.submission (Sample.t0 + 3600) Sample.no_faults Sample.req_eth2)
       (serve [Sample.submission (Sample.t0 + 60) Sample.no_faults Sample.req_both]
          (redis (fst (submit
             (Sample.submission Sample.t0 Sample.no_faults Sample.req_eth)
             Sample.store2))))
       Sample.caller "ethereum" "ETH"
  /\ Sample.t0 + hour <= Sample.t0 + 3600
  /\ (passed_throttle_gate
        (calls (fst (run (RequestTokens (Sample.handler Sample.eth_ok Sample.sn_ok)
                            (Sample.env_at Sample.t0 Sample.no_faults)
                            Sample.caller (Some Sample.req_eth))
                         (initial Sample.store2)))) = true
      <-> Forall (fun t => throttle_marker Sample.t0 Sample.caller "ethereum" t
                             Sample.store2 = None)
                 (throttle_tokens Sample.eth_ok Sample.req_eth)).
Proof.
  assert (H1 : disburses (Sample.submission Sample.t0 Sample.no_faults Sample.req_eth)
                 Sample.store2 Sample.caller "ethereum" "ETH").
  { split; [reflexivity|]. split; [eexists; split; reflexivity|].
    vm_compute. tauto. }
  assert (H2 : disburses
                 (Sample.submission (Sample.t0 + 3600) Sample.no_faults Sample.req_eth2)
                 (serve [Sample.submission (Sample.t0 + 60) Sample.no_faults
                           Sample.req_both]
                    (redis (fst (submit
                       (Sample.submission Sample.t0 Sample.no_faults Sample.req_eth)
                       Sample.store2))))
                 Sample.caller "ethereum" "ETH").
  { split; [reflexivity|]. split; [eexists; split; reflexivity|].
    vm_compute. tauto. }
  split; [exact H1|]. split; [exact H2|].
  split; [|refine (proj1 (proj1 (hourly_throttle
    (Sample.handler Sample.eth_ok Sample.sn_ok)
    (Sample.env_at Sample.t0 Sample.no_faults) Sample.caller Sample.req_eth
    Sample.store2 Sample.eth_ok Sample.eth_provider
    (Sample.submission Sample.t0 Sample.no_faults Sample.req_eth)
    (Sample.submission (Sample.t0 + 3600) Sample.no_faults Sample.req_eth2)
    [] Sample.store2 "ethereum" "ETH") _ _ _));
    [vm_compute; reflexivity | intros t _; reflexivity
    | exists "ETH"; vm_compute; tauto]].
  exact (proj2 (hourly_throttle
    (Sample.handler Sample.eth_ok Sample.sn_ok)
    (Sample.env_at Sample.t0 Sample.no_faults) Sample.caller Sample.req_eth
    Sample.store2 Sample.eth_ok Sample.eth_provider
    (Sample.submission Sample.t0 Sample.no_faults Sample.req_eth)
    (Sample.submission (Sample.t0 + 3600) Sample.no_faults Sample.req_eth2)
    [Sample.submission (Sample.t0 + 60) Sample.no_faults Sample.req_both]
    Sample.store2 "ethereum" "ETH") H1 eq_refl H2).
Defined.

(** Two requests of the sample caller for ETH on Ethereum, one second
    apart. When the store fails at the throttle commit of the first, which
    the handler only logs, the first is answered with success and leaves no
    marker, and the second, served after it, transfers as well. And on a
    healthy store, when the two make their calls in Overlap.lockstep, both read
    the marker before either writes it, and both transfer. *)
Lemma second_disbursement_within_the_hour :
  (sent (fst (submit (Sample.submission Sample.t0
                        (Sample.fails_at (CSetTokenHourlyThrottle "ETH"))
                        Sample.req_eth)
                Sample.store2))
   = [("ETH", 10 ^ 16)]
   /\ throttle_marker (Sample.t0 + 1) Sample.caller "ethereum" "ETH"
        (redis (fst (submit (Sample.submission Sample.t0
                               (Sample.fails_at (CSetTokenHourlyThrottle "ETH"))
                               Sample.req_eth)
                       Sample.store2)))
      = None
   /\ sent (fst (submit (Sample.submission (Sample.t0 + 1) Sample.no_faults
                           Sample.req_eth2)
                   (redis (fst (submit
                      (Sample.submission Sample.t0
                         (Sample.fails_at (CSetTokenHourlyThrottle "ETH"))
                         Sample.req_eth)
                      Sample.store2)))))
      = [("ETH", 10 ^ 16)]
   /\ ~ disbursements_an_hour_apart)
  /\ (exists st' fr1 fr2,
        Overlap.overlap Overlap.lockstep
          (Overlap.request (Sample.handler Sample.eth_ok Sample.sn_ok)
             (Sample.env_at Sample.t0 Sample.no_faults) Sample.caller
             (Some Sample.req_eth))
          (Overlap.request (Sample.handler Sample.eth_ok Sample.sn_ok)
             (Sample.env_at (Sample.t0 + 1) Sample.no_faults) Sample.caller
             (Some Sample.req_eth2))
          (initial Sample.store2)
        = (st', (Overlap.Answered (FaucetOK fr1), Overlap.Answered (FaucetOK fr2)))
        /\ sent st' = [("ETH", 10 ^ 16); ("ETH", 10 ^ 16)])
  /\ ~ Overlap.one_disbursement_per_hour.
Proof.
  assert (Hboth : exists st' fr1 fr2,
    Overlap.overlap Overlap.lockstep
      (Overlap.request (Sample.handler Sample.eth_ok Sample.sn_ok)
         (Sample.env_at Sample.t0 Sample.no_faults) Sample.caller
         (Some Sample.req_eth))
      (Overlap.request (Sample.handler Sample.eth_ok Sample.sn_ok)
         (Sample.env_at (Sample.t0 + 1) Sample.no_faults) Sample.caller
         (Some Sample.req_eth2))
      (initial Sample.store2)
    = (st', (Overlap.Answered (FaucetOK fr1), Overlap.Answered (FaucetOK fr2)))
    /\ sent st' = [("ETH", 10 ^ 16); ("ETH", 10 ^ 16)])
    by (do 3 eexists; split; vm_compute; reflexivity).
  split; [|split; [exact Hboth|]].
  - assert (Hfirst :
      sent (fst (submit (Sample.submission Sample.t0
                           (Sample.fails_at (CSetTokenHourlyThrottle "ETH"))
                           Sample.req_eth)
                   Sample.store2))
      = [("ETH", 10 ^ 16)]) by (vm_compute; reflexivity).
    assert (Hsecond :
      sent (fst (submit (Sample.submission (Sample.t0 + 1) Sample.no_faults
                           Sample.req_eth2)
                   (redis (fst (submit
                      (Sample.submission Sample.t0
                         (Sample.fails_at (CSetTokenHourlyThrottle "ETH"))
                         Sample.req_eth)
                      Sample.store2)))))
      = [("ETH", 10 ^ 16)]) by (vm_compute; reflexivity).
    split; [exact Hfirst|]. split; [vm_compute; reflexivity|].
    split; [exact Hsecond|].
    intros Hclaim.
    specialize (Hclaim
      (Sample.submission Sample.t0
         (Sample.fails_at (CSetTokenHourlyThrottle "ETH")) Sample.req_eth)
      (Sample.submission (Sample.t0 + 1) Sample.no_faults Sample.req_eth2)
      Sample.store2 Sample.caller "ethereum" "ETH").
    assert (H1 : disburses
      (Sample.submission Sample.t0
         (Sample.fails_at (CSetTokenHourlyThrottle "ETH")) Sample.req_eth)
      Sample.store2 Sample.caller "ethereum" "ETH").
    { split; [reflexivity|]. split; [eexists; split; reflexivity|].
      exact (eq_ind_r (x := [("ETH", 10 ^ 16)])
               (fun l => In "ETH" (map fst l)) (or_introl eq_refl) Hfirst). }
    assert (H2 : disburses
      (Sample.submission (Sample.t0 + 1) Sample.no_faults Sample.req_eth2)
      (redis (fst (submit
         (Sample.submission Sample.t0
            (Sample.fails_at (CSetTokenHourlyThrottle "ETH")) Sample.req_eth)
         Sample.store2)))
      Sample.caller "ethereum" "ETH").
    { split; [reflexivity|]. split; [eexists; split; reflexivity|].
      exact (eq_ind_r (x := [("ETH", 10 ^ 16)])
               (fun l => In "ETH" (map fst l)) (or_introl eq_refl) Hsecond). }
    specialize (Hclaim H1 H2).
    cbn [sub_env Sample.submission now Sample.env_at] in Hclaim.
    unfold hour, Sample.t0 in Hclaim. lia.
  - intros Hclaim. destruct Hboth as (st' & fr1 & fr2 & Hrun & _).
    specialize (Hclaim (Sample.handler Sample.eth_ok Sample.sn_ok)
      (Sample.env_at Sample.t0 Sample.no_faults)
      (Sample.env_at (Sample.t0 + 1) Sample.no_faults) Sample.caller
      Sample.req_eth Sample.req_eth2 Sample.store2 Overlap.lockstep
      st' (FaucetOK fr1) (FaucetOK fr2) eq_refl eq_refl eq_refl eq_refl).
    cbn [succeeded andb] in Hclaim.
    assert (Hne : token_of Sample.req_eth ≠ "BOTH")
      by (intros Heq; vm_compute in Heq; discriminate Heq).
    assert (Hnear : (now (Sample.env_at Sample.t0 Sample.no_faults)
                     <= now (Sample.env_at (Sample.t0 + 1) Sample.no_faults)
                     < now (Sample.env_at Sample.t0 Sample.no_faults) + hour)%Z)
      by (cbn [now Sample.env_at]; unfold hour, Sample.t0; lia).
    discriminate (Hclaim Hne Hnear Hrun).
Qed.

(** ** The sample deployment

    The statements above, instantiated at the requests of [Sample]. *)

Lemma GetStatus_reads_caller_quota_witness :
  daily_used Sample.t0 Sample.caller Sample.store
  < maxRequestsPerDayIP Sample.store
  /\ cooldown_end Sample.t0 Sample.caller Sample.store = None.
Proof.
  edestruct (GetStatus_reads_caller_quota
               (Sample.handler Sample.eth_ok Sample.sn_ok)
               (Sample.env_at Sample.t0 Sample.no_faults)
               Sample.caller Sample.alice Sample.faucet "ethereum" Sample.store)
    as [Hcan _].
  - vm_compute. reflexivity.
  - vm_compute. reflexivity.
  - apply Hcan. reflexivity.
Defined.

Lemma commit_only_after_transfer_witness :
  exists gates amountWei,
    calls (fst Sample.served_eth)
    = gates ++ [CTransferTokens "ETH"; CIncrementIPDailyLimit 1;
                CSetTokenHourlyThrottle "ETH"]
    /\ Forall (fun c => is_commit c = false) gates
    /\ sent (fst Sample.served_eth) = [("ETH", amountWei)].
Proof.
  refine (proj2 (commit_only_after_transfer
                   (Sample.handler Sample.eth_ok Sample.sn_ok)
                   (Sample.env_at Sample.t0 Sample.no_faults)
                   Sample.caller Sample.req_eth Sample.store _) _).
  - vm_compute. discriminate.
  - vm_compute. reflexivity.
Defined.




(** * The command line, the server's start and the rest of the handlers *)

(** ** Addresses on the command line *)

Section CliAddresses.
Import Strings Request Cli.

Lemma HasPrefix_0x (address : string) :
  HasPrefix address "0x" = true ->
  exists hexPart,
    address = String "0" (String "x" hexPart)
    /\ slice_from 2 address = Some hexPart.
Proof.
  unfold HasPrefix.
  destruct address as [|a [|b hexPart]]; cbn [String.prefix]; try discriminate.
  - destruct (Ascii.ascii_dec "0" a); discriminate.
  - destruct (Ascii.ascii_dec "0" a) as [<-|]; [|discriminate].
    destruct (Ascii.ascii_dec "x" b) as [<-|]; [|discriminate].
    intros _. now exists hexPart.
Qed.

Lemma HasPrefix_0x_intro (hexPart : string) :
  HasPrefix (String "0" (String "x" hexPart)) "0x" = true.
Proof.
  unfold HasPrefix. cbn [String.prefix].
  destruct (Ascii.ascii_dec "0" "0"); [|contradiction].
  destruct (Ascii.ascii_dec "x" "x"); [|contradiction].
  now destruct hexPart.
Qed.

Lemma first_non_hex_none (s : string) :
  forall i, first_non_hex i s = None <-> all_chars isHexChar s = true.
Proof.
  induction s as [|c s IH]; intros i; cbn; [easy|].
  destruct (isHexChar c); cbn; [apply IH | easy].
Qed.

Lemma first_non_hex_some (s : string) :
  forall i j, first_non_hex i s = Some j -> all_chars isHexChar s = false.
Proof.
  intros i j H. destruct (all_chars isHexChar s) eqn:Hall; [|reflexivity].
  apply (first_non_hex_none s i) in Hall. congruence.
Qed.

(** The checksum of an address with 40 characters after the prefix is
    defined, so the validation of such an address runs to its end. *)
Lemma checksum_defined (address hexPart : string) :
  slice_from 2 address = Some hexPart ->
  String.length hexPart = 40%nat ->
  exists c, toEIP55Checksum address = Some c.
Proof.
  intros Hslice Hlen.
  destruct (toEIP55Checksum_fixed address hexPart Hslice) as (c & Hc & _); [lia|].
  now exists c.
Qed.

Lemma validateEthereumAddress_returns (address hexPart : string) :
  slice_from 2 address = Some hexPart ->
  exists r, validateEthereumAddress address hexPart = Some r.
Proof.
  intros Hslice. unfold validateEthereumAddress.
  destruct (String.length hexPart =? 40)%nat eqn:Hlen; cbn [negb].
  - apply Nat.eqb_eq in Hlen.
    destruct (checksum_defined address hexPart Hslice Hlen) as (c & Hc).
    destruct (hasMixedCase hexPart); [|eauto].
    unfold isValidEIP55Checksum. rewrite Hc. cbn.
    destruct (bool_decide _); cbn; eauto.
  - destruct (_ && _); eauto.
Qed.

Lemma validateAddress_returns (address network : string) :
  exists r, validateAddress address network = Some r.
Proof.
  unfold validateAddress.
  destruct (HasPrefix address "0x") eqn:Hp; cbn [negb]; [|eauto].
  apply HasPrefix_0x in Hp as (hexPart & _ & Hslice).
  rewrite Hslice. cbn [mbind option_bind].
  destruct (first_non_hex 0 hexPart); [eauto|].
  repeat case_bool_decide; eauto.
  now apply validateEthereumAddress_returns.
Qed.

Lemma isHexChar_lower (c : ascii) : isHexChar (toLowerChar c) = isHexChar c.
Proof. destruct c as [[] [] [] [] [] [] [] []]; reflexivity. Qed.

Lemma all_hex_lower (s : string) :
  all_chars isHexChar (ToLower s) = all_chars isHexChar s.
Proof.
  induction s as [|c s IH]; [reflexivity|].
  cbn [ToLower map_string all_chars]. fold (ToLower s).
  now rewrite isHexChar_lower, IH.
Qed.

Lemma any_char_map_false (p : ascii -> bool) (f : ascii -> ascii) (s : string) :
  (forall c, p (f c) = false) -> any_char p (map_string f s) = false.
Proof.
  intros Hp. induction s as [|c s IH]; [reflexivity|].
  cbn [map_string any_char]. now rewrite Hp, IH.
Qed.

Lemma lower_has_no_capital (s : string) :
  any_char (fun c => let n := Z.of_N (N_of_ascii c) in (65 <=? n) && (n <=? 70))
           (ToLower s) = false.
Proof.
  apply any_char_map_false.
  intros c. destruct c as [[] [] [] [] [] [] [] []]; reflexivity.
Qed.

Lemma hasMixedCase_lower (s : string) : hasMixedCase (ToLower s) = false.
Proof. unfold hasMixedCase. now rewrite lower_has_no_capital. Qed.

(** Two strings that differ in letter case only. *)
Lemma same_letters (s t : string) :
  ToLower s = ToLower t ->
  String.length s = String.length t
  /\ all_chars isHexChar s = all_chars isHexChar t.
Proof.
  intros H. split.
  - now rewrite <- (ToLower_length s), H, ToLower_length.
  - now rewrite <- (all_hex_lower s), H, all_hex_lower.
Qed.

(** The shape of a checksummed address: the prefix, then the characters
    of the address up to letter case; and it is its own checksum. *)
Lemma toEIP55Checksum_shape (address hexPart c : string) :
  slice_from 2 address = Some hexPart ->
  (String.length hexPart <= 64)%nat ->
  toEIP55Checksum address = Some c ->
  exists body,
    c = String "0" (String "x" body)
    /\ ToLower body = ToLower hexPart
    /\ toEIP55Checksum c = Some c.
Proof.
  intros Hslice Hlen Hc.
  destruct (checksum_loop_lower (Keccak.keccak256_hex (ToLower hexPart)) hexPart 0%nat)
    as (body & Hbody & Hlow).
  { rewrite keccak256_hex_length. cbn. lia. }
  unfold toEIP55Checksum in Hc. rewrite Hslice in Hc.
  cbn [mbind option_bind] in Hc. rewrite Hbody in Hc.
  cbn [mbind option_bind] in Hc. injection Hc as <-.
  exists body. split; [reflexivity|]. split; [exact Hlow|].
  unfold toEIP55Checksum.
  change (String.append "0x" body) with (String "0" (String "x" body)).
  cbn [slice_from mbind option_bind].
  rewrite Hlow, Hbody. reflexivity.
Qed.

(** What [validateAddress] accepts for Ethereum. *)
Lemma validateAddress_ethereum_accepts (address : string) :
  validateAddress address "ethereum" = Some None <->
  exists hexPart,
    address = String "0" (String "x" hexPart)
    /\ all_chars isHexChar hexPart = true
    /\ String.length hexPart = 40%nat
    /\ (hasMixedCase hexPart = true ->
        isValidEIP55Checksum address = Some true).
Proof.
  unfold validateAddress. split.
  - destruct (HasPrefix address "0x") eqn:Hp; cbn [negb]; [|discriminate].
    apply HasPrefix_0x in Hp as (hexPart & -> & Hslice).
    rewrite Hslice. cbn [mbind option_bind].
    destruct (first_non_hex 0 hexPart) eqn:Hhex; [discriminate|].
    apply first_non_hex_none in Hhex.
    rewrite bool_decide_eq_false_2 by discriminate.
    rewrite bool_decide_eq_true_2 by reflexivity.
    unfold validateEthereumAddress.
    destruct (String.length hexPart =? 40)%nat eqn:Hlen; cbn [negb].
    + apply Nat.eqb_eq in Hlen. intros H. exists hexPart.
      split; [reflexivity|]. split; [exact Hhex|]. split; [exact Hlen|].
      intros Hmixed. rewrite Hmixed in H.
      destruct (isValidEIP55Checksum _) as [[]|];
        cbn [mbind option_bind negb] in H; try discriminate; [reflexivity|].
      destruct (toEIP55Checksum _); cbn [mbind option_bind] in H; discriminate.
    + destruct (_ && _); discriminate.
  - intros (hexPart & -> & Hhex & Hlen & Hsum).
    rewrite HasPrefix_0x_intro. cbn [negb slice_from mbind option_bind].
    apply (first_non_hex_none _ 0%nat) in Hhex. rewrite Hhex.
    rewrite bool_decide_eq_false_2 by discriminate.
    rewrite bool_decide_eq_true_2 by reflexivity.
    unfold validateEthereumAddress.
    rewrite Hlen. cbn [Nat.eqb negb].
    destruct (hasMixedCase hexPart); [|reflexivity].
    now rewrite Hsum.
Qed.

End CliAddresses.

Section CliValidation.
Import Strings Request Cli.

Lemma validateAddress_starknet_accepts (address : string) :
  validateAddress address "starknet" = Some None <->
  exists hexPart,
    address = String "0" (String "x" hexPart)
    /\ all_chars isHexChar hexPart = true
    /\ (1 <= String.length hexPart <= 64)%nat
    /\ String.length hexPart <> 40%nat.
Proof.
  unfold validateAddress. split.
  - destruct (HasPrefix address "0x") eqn:Hp; cbn [negb]; [|discriminate].
    apply HasPrefix_0x in Hp as (hexPart & -> & Hslice).
    rewrite Hslice. cbn [mbind option_bind].
    destruct (first_non_hex 0 hexPart) eqn:Hhex; [discriminate|].
    apply first_non_hex_none in Hhex.
    rewrite bool_decide_eq_true_2 by reflexivity.
    unfold validateStarknetAddress.
    destruct (String.length hexPart =? 0)%nat eqn:H0; [discriminate|].
    destruct (64 <? String.length hexPart)%nat eqn:H64; [discriminate|].
    destruct (String.length hexPart =? 40)%nat eqn:H40; [discriminate|].
    intros _. exists hexPart.
    apply Nat.eqb_neq in H0, H40. apply Nat.ltb_ge in H64.
    repeat split; try assumption; lia.
  - intros (hexPart & -> & Hhex & Hlen & H40).
    rewrite HasPrefix_0x_intro. cbn [negb slice_from mbind option_bind].
    apply (first_non_hex_none _ 0%nat) in Hhex. rewrite Hhex.
    rewrite bool_decide_eq_true_2 by reflexivity.
    unfold validateStarknetAddress.
    replace (String.length hexPart =? 0)%nat with false
      by (symmetry; apply Nat.eqb_neq; lia).
    replace (64 <? String.length hexPart)%nat with false
      by (symmetry; apply Nat.ltb_ge; lia).
    replace (String.length hexPart =? 40)%nat with false
      by (symmetry; now apply Nat.eqb_neq).
    reflexivity.
Qed.

(** [validateAddress] accepts for the two networks only. *)
Lemma validateAddress_network (address network : string) :
  validateAddress address network = Some None ->
  network = "starknet" \/ network = "ethereum".
Proof.
  unfold validateAddress.
  destruct (HasPrefix address "0x"); cbn [negb]; [|discriminate].
  destruct (slice_from 2 address) as [hexPart|]; [|discriminate].
  cbn [mbind option_bind].
  destruct (first_non_hex 0 hexPart); [discriminate|].
  repeat case_bool_decide; auto. discriminate.
Qed.

(** What [detectAddressNetwork] answers for an address with the prefix. *)
Lemma detectAddressNetwork_prefixed (hexPart : string) :
  detectAddressNetwork (String "0" (String "x" hexPart))
  = Some (if negb (all_chars isHexChar hexPart) then EmptyString
          else if (String.length hexPart =? 40)%nat then "ethereum"
          else if (String.length hexPart <=? 64)%nat then "starknet"
          else EmptyString).
Proof.
  unfold detectAddressNetwork. rewrite HasPrefix_0x_intro.
  cbn [negb slice_from mbind option_bind].
  destruct (all_chars isHexChar hexPart); cbn [negb]; [|reflexivity].
  destruct (String.length hexPart =? 40)%nat eqn:H40; [reflexivity|].
  destruct (40 <? String.length hexPart)%nat eqn:Hgt; cbn [andb].
  - destruct (String.length hexPart <=? 64)%nat eqn:H64; [reflexivity|].
    replace (String.length hexPart <? 40)%nat with false; [reflexivity|].
    symmetry. apply Nat.ltb_ge. apply Nat.ltb_lt in Hgt. lia.
  - apply Nat.ltb_ge in Hgt. apply Nat.eqb_neq in H40.
    replace (String.length hexPart <? 40)%nat with true
      by (symmetry; apply Nat.ltb_lt; lia).
    replace (String.length hexPart <=? 64)%nat with true
      by (symmetry; apply Nat.leb_le; lia).
    reflexivity.
Qed.

Lemma detectAddressNetwork_unprefixed (address : string) :
  HasPrefix address "0x" = false -> detectAddressNetwork address = Some EmptyString.
Proof. unfold detectAddressNetwork. now intros ->. Qed.

Lemma detectAddressNetwork_returns (address : string) :
  exists n, detectAddressNetwork address = Some n.
Proof.
  destruct (HasPrefix address "0x") eqn:Hp.
  - apply HasPrefix_0x in Hp as (hexPart & -> & _).
    rewrite detectAddressNetwork_prefixed. eauto.
  - rewrite (detectAddressNetwork_unprefixed _ Hp). eauto.
Qed.

End CliValidation.

Section CliToServer.
Import Strings Request Cli.

Lemma validateAddress_ethereum_chain (address : string) :
  validateAddress address "ethereum" = Some None ->
  Ethereum.ValidateAddress address = None.
Proof.
  intros Hok.
  apply validateAddress_ethereum_accepts in Hok as (hexPart & -> & Hhex & Hlen & _).
  unfold Ethereum.ValidateAddress, isEthereumAddress.
  rewrite bool_decide_eq_false_2 by discriminate.
  rewrite HasPrefix_0x_intro. cbn [negb andb slice_from].
  apply Nat.eqb_eq in Hlen. now rewrite Hlen, Hhex.
Qed.

Lemma validateToken_ethereum (token : string) :
  validateToken token "ethereum" = None -> token = "ETH".
Proof.
  unfold validateToken.
  rewrite bool_decide_eq_false_2 by discriminate.
  rewrite bool_decide_eq_true_2 by reflexivity.
  case_bool_decide as Ht; [discriminate|]. intros _.
  now destruct (decide (token = "ETH")).
Qed.

End CliToServer.

(** X1. The network that [detectAddressNetwork] reads off an address: it
    always answers, with the empty string, "ethereum" or "starknet", and it
    answers "ethereum" for exactly the addresses the Ethereum chain's
    [ValidateAddress] accepts. *)
Theorem detected_ethereum_is_what_the_chain_accepts (address : string) :
  (exists n, Cli.detectAddressNetwork address = Some n
             /\ (n = EmptyString \/ n = "ethereum" \/ n = "starknet"))
  /\ (Cli.detectAddressNetwork address = Some "ethereum"
      <-> Ethereum.ValidateAddress address = None).
Proof.
  unfold Ethereum.ValidateAddress, Request.isEthereumAddress.
  destruct (Strings.HasPrefix address "0x") eqn:Hp.
  - apply HasPrefix_0x in Hp as (hexPart & -> & Hslice).
    rewrite detectAddressNetwork_prefixed, Hslice.
    rewrite bool_decide_eq_false_2 by discriminate. cbn [negb andb].
    destruct (Request.all_chars Request.isHexChar hexPart); cbn [negb];
      destruct (String.length hexPart =? 40)%nat; cbn [negb andb];
      try destruct (String.length hexPart <=? 64)%nat;
      (split; [eexists; split; [reflexivity|auto] | split; congruence]).
  - rewrite (detectAddressNetwork_unprefixed _ Hp). cbn [negb].
    split; [eexists; split; [reflexivity|auto]|].
    case_bool_decide; split; congruence.
Qed.

(** X2. An address that [validateAddress] accepts for a network is one
    that [detectAddressNetwork] reads as of that network, so no address is
    accepted for both networks. *)
Theorem validated_address_is_detected (address network : string) :
  Cli.validateAddress address network = Some None ->
  Cli.detectAddressNetwork address = Some network
  /\ forall network',
       Cli.validateAddress address network' = Some None -> network' = network.
Proof.
  assert (Hdetect : forall a n,
    Cli.validateAddress a n = Some None -> Cli.detectAddressNetwork a = Some n).
  { intros a n Hok.
    destruct (validateAddress_network a n Hok) as [->| ->].
    - apply validateAddress_starknet_accepts in Hok
        as (hexPart & -> & Hhex & Hlen & H40).
      rewrite detectAddressNetwork_prefixed, Hhex. cbn [negb].
      apply Nat.eqb_neq in H40. rewrite H40.
      replace (String.length hexPart <=? 64)%nat with true
        by (symmetry; apply Nat.leb_le; lia).
      reflexivity.
    - apply validateAddress_ethereum_accepts in Hok
        as (hexPart & -> & Hhex & Hlen & _).
      rewrite detectAddressNetwork_prefixed, Hhex, Hlen. reflexivity. }
  intros Hok. split; [now apply Hdetect|].
  intros network' Hok'. apply Hdetect in Hok, Hok'. congruence.
Qed.

Lemma validated_address_is_detected_witness :
  Cli.detectAddressNetwork Sample.alice = Some "ethereum".
Proof.
  apply (validated_address_is_detected Sample.alice "ethereum").
  vm_compute. reflexivity.
Defined.

(** X3. What [validateAddress] accepts. It runs to its end on every
    input. For Starknet it accepts [0x] followed by 1 to 64 hex digits,
    but not by exactly 40; for Ethereum, [0x] followed by 40 hex digits
    that are either of one letter case or capitalised as EIP-55 asks; for
    any other network, nothing. *)
Theorem validateAddress_accepted_addresses (address network : string) :
  (exists answer, Cli.validateAddress address network = Some answer)
  /\ (Cli.validateAddress address network = Some None <->
      exists hexPart,
        address = String "0" (String "x" hexPart)
        /\ Request.all_chars Request.isHexChar hexPart = true
        /\ ((network = "starknet"
             /\ (1 <= String.length hexPart <= 64)%nat
             /\ String.length hexPart <> 40%nat)
            \/ (network = "ethereum"
                /\ String.length hexPart = 40%nat
                /\ (Request.hasMixedCase hexPart = true ->
                    Request.toEIP55Checksum address = Some address)))).
Proof.
  split; [apply validateAddress_returns|]. split.
  - intros Hok. destruct (validateAddress_network _ _ Hok) as [-> | ->].
    + apply validateAddress_starknet_accepts in Hok
        as (hexPart & -> & Hhex & Hlen & H40).
      exists hexPart. split; [reflexivity|]. split; [exact Hhex|]. now left.
    + apply validateAddress_ethereum_accepts in Hok
        as (hexPart & -> & Hhex & Hlen & Hsum).
      exists hexPart. split; [reflexivity|]. split; [exact Hhex|]. right.
      split; [reflexivity|]. split; [exact Hlen|].
      intros Hmixed. specialize (Hsum Hmixed).
      unfold Request.isValidEIP55Checksum in Hsum.
      destruct (Request.toEIP55Checksum _) as [c|]; [|discriminate].
      cbn [mbind option_bind] in Hsum. injection Hsum as Hsum.
      apply bool_decide_eq_true in Hsum. now rewrite <- Hsum.
  - intros (hexPart & -> & Hhex & [(-> & Hlen & H40)|(-> & Hlen & Hsum)]).
    + apply validateAddress_starknet_accepts. now exists hexPart.
    + apply validateAddress_ethereum_accepts. exists hexPart.
      split; [reflexivity|]. split; [exact Hhex|]. split; [exact Hlen|].
      intros Hmixed. unfold Request.isValidEIP55Checksum.
      rewrite (Hsum Hmixed). cbn [mbind option_bind].
      now rewrite bool_decide_eq_true_2.
Qed.

(** X4. When [validateAddress] refuses an Ethereum address for its
    capitalisation, the two spellings its message offers, the checksummed
    address and the all-lowercase address, are both accepted. *)
Theorem checksum_error_offers_valid_addresses
    (address shown expected lower : string) :
  Cli.validateAddress address "ethereum"
  = Some (Some (Cli.ErrChecksum shown expected lower)) ->
  shown = address
  /\ Request.toEIP55Checksum address = Some expected
  /\ lower = Strings.ToLower address
  /\ Cli.validateAddress expected "ethereum" = Some None
  /\ Cli.validateAddress lower "ethereum" = Some None.
Proof.
  intros Herr. unfold Cli.validateAddress in Herr.
  destruct (Strings.HasPrefix address "0x") eqn:Hp; cbn [negb] in Herr;
    [|discriminate].
  apply HasPrefix_0x in Hp as (hexPart & -> & Hslice).
  rewrite Hslice in Herr. cbn [mbind option_bind] in Herr.
  destruct (Cli.first_non_hex 0 hexPart) eqn:Hhex; [discriminate|].
  apply first_non_hex_none in Hhex.
  rewrite bool_decide_eq_false_2 in Herr by discriminate.
  rewrite bool_decide_eq_true_2 in Herr by reflexivity.
  unfold Cli.validateEthereumAddress in Herr.
  destruct (String.length hexPart =? 40)%nat eqn:Hlen; cbn [negb] in Herr;
    [|destruct (_ && _); discriminate].
  apply Nat.eqb_eq in Hlen.
  destruct (Request.hasMixedCase hexPart); [|discriminate].
  destruct (Request.isValidEIP55Checksum _) as [[]|];
    cbn [mbind option_bind negb] in Herr; try discriminate.
  destruct (Request.toEIP55Checksum _) as [c|] eqn:Hc;
    cbn [mbind option_bind] in Herr; [|discriminate].
  injection Herr as <- <- <-.
  destruct (toEIP55Checksum_shape _ hexPart c Hslice) as (body & -> & Hlow & Hfix);
    [lia | exact Hc |].
  destruct (same_letters body hexPart Hlow) as [Hlen' Hhex'].
  repeat split; try reflexivity.
  - apply validateAddress_ethereum_accepts. exists body.
    split; [reflexivity|]. split; [congruence|]. split; [congruence|].
    intros _. unfold Request.isValidEIP55Checksum. rewrite Hfix.
    cbn [mbind option_bind]. now rewrite bool_decide_eq_true_2.
  - apply validateAddress_ethereum_accepts. exists (Strings.ToLower hexPart).
    split; [reflexivity|]. split; [now rewrite all_hex_lower|].
    split; [now rewrite ToLower_length|].
    rewrite hasMixedCase_lower. discriminate.
Qed.

Lemma checksum_error_offers_valid_addresses_witness :
  Cli.validateAddress Desk.checksummed "ethereum" = Some None
  /\ Cli.validateAddress Sample.alice "ethereum" = Some None.
Proof.
  refine (proj2 (proj2 (proj2 (checksum_error_offers_valid_addresses
    Desk.damaged Desk.damaged Desk.checksummed Sample.alice _)))).
  vm_compute. reflexivity.
Defined.

(** X5. The EIP-55 form of an Ethereum address is the same address: it
    differs from the address in letter case only, so [NormalizeAddress]
    maps both to the same string, and both the chain's [ValidateAddress]
    and the command line's [validateAddress] accept it. *)
Theorem checksummed_address_is_the_same_address (address c : string) :
  Request.isEthereumAddress address = true ->
  Request.toEIP55Checksum address = Some c ->
  EthereumSepolia.NormalizeAddress c = EthereumSepolia.NormalizeAddress address
  /\ Ethereum.ValidateAddress c = None
  /\ Cli.validateAddress c "ethereum" = Some None.
Proof.
  unfold Request.isEthereumAddress. intros Ha Hc.
  apply andb_prop in Ha as [Hp Ha].
  apply HasPrefix_0x in Hp as (hexPart & -> & Hslice).
  rewrite Hslice in Ha. apply andb_prop in Ha as [Hlen Hhex].
  apply Nat.eqb_eq in Hlen.
  destruct (toEIP55Checksum_shape _ hexPart c Hslice) as (body & -> & Hlow & Hfix);
    [lia | exact Hc |].
  destruct (same_letters body hexPart Hlow) as [Hlen' Hhex'].
  assert (Hcli : Cli.validateAddress (String "0" (String "x" body)) "ethereum"
                 = Some None).
  { apply validateAddress_ethereum_accepts. exists body.
    split; [reflexivity|]. split; [congruence|]. split; [congruence|].
    intros _. unfold Request.isValidEIP55Checksum. rewrite Hfix.
    cbn [mbind option_bind]. now rewrite bool_decide_eq_true_2. }
  split; [|split; [now apply validateAddress_ethereum_chain | exact Hcli]].
  unfold EthereumSepolia.NormalizeAddress, Strings.ToLower.
  cbn [Strings.map_string]. f_equal. f_equal. exact Hlow.
Qed.

Lemma checksummed_address_is_the_same_address_witness :
  EthereumSepolia.NormalizeAddress Desk.checksummed
  = EthereumSepolia.NormalizeAddress Sample.alice
  /\ Ethereum.ValidateAddress Desk.checksummed = None
  /\ Cli.validateAddress Desk.checksummed "ethereum" = Some None.
Proof.
  apply (checksummed_address_is_the_same_address Sample.alice Desk.checksummed);
    vm_compute; reflexivity.
Defined.

(** ** The network flag *)

Section CliNetworks.
Import Strings Cli.

Lemma alias_entry (k v : string) :
  networkAliases !! k = Some v ->
  In (k, v) [("sn", "starknet"); ("stark", "starknet"); ("sn-sep", "starknet");
             ("eth", "ethereum"); ("eth-sep", "ethereum")].
Proof.
  intros H. apply list_elem_of_In.
  now apply (elem_of_list_to_map_2 (M := gmap string)) in H.
Qed.

Lemma ToLower_starknet : ToLower "starknet" = "starknet".
Proof. reflexivity. Qed.

Lemma ToLower_ethereum : ToLower "ethereum" = "ethereum".
Proof. reflexivity. Qed.

(** A resolved name is a full name, or the lower-cased input when that is
    no alias. *)
Lemma resolveNetwork_cases (n : string) :
  (resolveNetwork n = "starknet" /\ In (ToLower n) ["sn"; "stark"; "sn-sep"])
  \/ (resolveNetwork n = "ethereum" /\ In (ToLower n) ["eth"; "eth-sep"])
  \/ (resolveNetwork n = ToLower n /\ networkAliases !! ToLower n = None).
Proof.
  unfold resolveNetwork. cbv zeta.
  destruct (networkAliases !! ToLower n) as [alias|] eqn:Hlook; [|auto].
  apply alias_entry in Hlook. cbn [In] in Hlook.
  destruct Hlook as [H|[H|[H|[H|[H|[]]]]]]; injection H as <- <-;
    cbn [In]; auto 10.
Qed.

Lemma resolveNetwork_idempotent (n : string) :
  resolveNetwork (resolveNetwork n) = resolveNetwork n.
Proof.
  destruct (resolveNetwork_cases n) as [[-> _]|[[-> _]|[Hn Hnone]]];
    [reflexivity | reflexivity |].
  rewrite Hn. unfold resolveNetwork at 1. cbv zeta.
  now rewrite ToLower_idem, Hnone.
Qed.

End CliNetworks.

(** X6. Network names. For a network flag of 7-bit characters,
    [ValidateNetwork] succeeds exactly when the flag is, up to letter case,
    one of the two networks or one of their five aliases; it then leaves
    the full name of the network in the flag, which [GetNetwork] returns
    unchanged. [resolveNetwork] maps a resolved name to itself. *)
Theorem network_flag_resolution (f : Cli.Flags) :
  Cli.is_ascii (Cli.network f) = true ->
  (snd (Cli.ValidateNetwork f) = None
   <-> In (Strings.ToLower (Cli.network f))
          ["starknet"; "ethereum"; "sn"; "stark"; "sn-sep"; "eth"; "eth-sep"])
  /\ (snd (Cli.ValidateNetwork f) = None ->
      (Cli.network (fst (Cli.ValidateNetwork f)) = "starknet"
       \/ Cli.network (fst (Cli.ValidateNetwork f)) = "ethereum")
      /\ Cli.GetNetwork (fst (Cli.ValidateNetwork f))
         = Cli.network (fst (Cli.ValidateNetwork f)))
  /\ Cli.resolveNetwork (Cli.resolveNetwork (Cli.network f))
     = Cli.resolveNetwork (Cli.network f).
Proof.
  intros _. unfold Cli.ValidateNetwork, Cli.GetNetwork.
  split; [|split; [|apply resolveNetwork_idempotent]].
  - case_bool_decide as Hempty.
    + rewrite Hempty. cbn. split; [discriminate|].
      intros H. repeat destruct H as [H|H]; try discriminate H. destruct H.
    + cbn [Cli.network Cli.with_network existsb snd].
      destruct (resolveNetwork_cases (Cli.network f))
        as [[Hr Hin]|[[Hr Hin]|[Hr Hnone]]]; rewrite Hr.
      * cbn. split; [intros _|reflexivity].
        cbn [In] in Hin |- *. intuition.
      * cbn. split; [intros _|reflexivity].
        cbn [In] in Hin |- *. intuition.
      * destruct (decide (Strings.ToLower (Cli.network f) = "starknet")) as [Hs|Hs].
        { rewrite Hs. cbn. split; [intros _; now left | reflexivity]. }
        rewrite (bool_decide_eq_false_2 _ Hs).
        destruct (decide (Strings.ToLower (Cli.network f) = "ethereum")) as [He|He].
        { rewrite He. cbn. split; [intros _; right; now left | reflexivity]. }
        rewrite (bool_decide_eq_false_2 _ He). cbn [orb snd].
        split; [discriminate|]. cbn [In].
        intros [H|[H|[H|[H|[H|[H|[H|[]]]]]]]]; try congruence;
          rewrite <- H in Hnone; discriminate Hnone.
  - case_bool_decide as Hempty; [discriminate|].
    cbn [Cli.network Cli.with_network existsb].
    destruct (resolveNetwork_cases (Cli.network f))
      as [[Hr _]|[[Hr _]|[Hr Hnone]]].
    + rewrite Hr. cbn. intros _. split; [now left | reflexivity].
    + rewrite Hr. cbn. intros _. split; [now right | reflexivity].
    + destruct (decide (Cli.resolveNetwork (Cli.network f) = "starknet")) as [Hs|Hs].
      { rewrite Hs. cbn. intros _. split; [now left | reflexivity]. }
      rewrite (bool_decide_eq_false_2 _ Hs).
      destruct (decide (Cli.resolveNetwork (Cli.network f) = "ethereum")) as [He|He].
      { rewrite He. cbn. intros _. split; [now right | reflexivity]. }
      rewrite (bool_decide_eq_false_2 _ He). discriminate.
Qed.

Lemma network_flag_resolution_witness :
  Cli.network (fst (Cli.ValidateNetwork Desk.flags)) = "starknet"
  \/ Cli.network (fst (Cli.ValidateNetwork Desk.flags)) = "ethereum".
Proof.
  refine (proj1 (proj1 (proj2 (network_flag_resolution Desk.flags _)) _)).
  - reflexivity.
  - vm_compute. reflexivity.
Defined.

(** ** A run of the request command *)

Section CliRequests.
Import Strings Request Models Cli.
Context {W : Type}.

(** What one call of [requestSingleToken] posts: nothing, or one request
    for the given address and token on the network of the flag; with
    [--skip-verification8922] its nonce is -1. It posts one when it
    succeeds. *)
Lemma requestSingleToken_posts (env : World W) (f : Flags)
    (url address token : string) (st : Run W) :
  exists new,
    posted (fst (requestSingleToken env f url address token st))
    = posted st ++ new
    /\ (new = []
        \/ exists id nonce,
             new = [(url, {| Address := address; Token := token;
                             Network := GetNetwork f;
                             ChallengeID := id; Nonce := nonce |})]
             /\ (skipVerification f = true -> nonce = -1))
    /\ (snd (requestSingleToken env f url address token st) = None -> new <> []).
Proof.
  unfold requestSingleToken.
  destruct (GetChallenge env url (world st)) as [w [err|challengeResp]].
  { exists []. cbn. rewrite app_nil_r. split; [reflexivity|]. split; [now left|].
    discriminate. }
  destruct (skipVerification f) eqn:Hskip.
  - destruct (RequestTokens env url _ w) as [w' answer]. cbn [fst snd posted].
    eexists. split; [reflexivity|]. split; [|discriminate].
    right. eexists _, _. split; [reflexivity|]. reflexivity.
  - destruct (Solve env _ _ w) as [w' [err|nonce]].
    { exists []. cbn. rewrite app_nil_r. split; [reflexivity|]. split; [now left|].
      discriminate. }
    destruct (RequestTokens env url _ w') as [w'' answer]. cbn [fst snd posted].
    eexists. split; [reflexivity|]. split; [|discriminate].
    right. eexists _, _. split; [reflexivity|]. discriminate.
Qed.


Lemma ValidateNetwork_ok (f : Flags) :
  snd (ValidateNetwork f) = None ->
  (GetNetwork (fst (ValidateNetwork f)) = "starknet"
   \/ GetNetwork (fst (ValidateNetwork f)) = "ethereum")
  /\ skipVerification (fst (ValidateNetwork f)) = skipVerification f
  /\ jsonOut (fst (ValidateNetwork f)) = jsonOut f
  /\ token (fst (ValidateNetwork f)) = token f
  /\ both (fst (ValidateNetwork f)) = both f.
Proof.
  unfold ValidateNetwork, GetNetwork.
  case_bool_decide; [discriminate|].
  cbn [network with_network existsb].
  destruct (decide (resolveNetwork (network f) = "starknet")) as [Hs|Hs].
  { rewrite Hs. cbn. intros _. split; [now left | now repeat split]. }
  rewrite (bool_decide_eq_false_2 _ Hs).
  destruct (decide (resolveNetwork (network f) = "ethereum")) as [He|He].
  { rewrite He. cbn. intros _. split; [now right | now repeat split]. }
  rewrite (bool_decide_eq_false_2 _ He). discriminate.
Qed.

(** The URL is the same before and after the network flag is resolved. *)
Lemma ValidateNetwork_url (f : Flags) :
  GetAPIURL (fst (ValidateNetwork f)) = GetAPIURL f.
Proof.
  unfold ValidateNetwork. case_bool_decide; [reflexivity|].
  destruct (existsb _ _); cbn [fst]; unfold GetAPIURL;
    cbn [apiURL network with_network];
    now rewrite resolveNetwork_idempotent.
Qed.

End CliRequests.

Section CliRun.
Import Strings Request Models Cli.
Context {W : Type}.

(** The flags after [runRequest] has filled in and normalised the token. *)
Lemma token_flags_frame (f1 : Flags) (selected : string) :
  let f2 := if bool_decide (token f1 = EmptyString)
            then with_token f1 (if bool_decide (selected = "starknet")
                                then "STRK" else "ETH") (both f1)
            else f1 in
  let f3 := with_token f2 (ToUpper (token f2)) (both f2) in
  let f4 := if bool_decide (token f3 = "BOTH")
            then with_token f3 (token f3) true else f3 in
  network f4 = network f1
  /\ skipVerification f4 = skipVerification f1
  /\ jsonOut f4 = jsonOut f1
  /\ apiURL f4 = apiURL f1.
Proof.
  cbv zeta. repeat case_bool_decide; cbn; auto.
Qed.

Lemma validateAddress_error_reportable (address selected detected : string)
    (e : CliError) :
  selected = "starknet" \/ selected = "ethereum" ->
  detectAddressNetwork address = Some detected ->
  detected = EmptyString \/ detected = selected ->
  validateAddress address selected = Some (Some e) ->
  reportable e.
Proof.
  intros Hsel Hdet Hd. unfold validateAddress.
  destruct (HasPrefix address "0x") eqn:Hp; cbn [negb].
  2:{ intros [= <-]. exact I. }
  apply HasPrefix_0x in Hp as (hexPart & -> & Hslice).
  rewrite Hslice. cbn [mbind option_bind].
  rewrite detectAddressNetwork_prefixed in Hdet.
  destruct (first_non_hex 0 hexPart) eqn:Hhex.
  { intros [= <-]. exact I. }
  apply first_non_hex_none in Hhex. rewrite Hhex in Hdet. cbn [negb] in Hdet.
  destruct Hsel as [-> | ->].
  - rewrite bool_decide_eq_true_2 by reflexivity.
    unfold validateStarknetAddress.
    destruct (String.length hexPart =? 0)%nat; [intros [= <-]; exact I|].
    destruct (64 <? String.length hexPart)%nat; [intros [= <-]; exact I|].
    destruct (String.length hexPart =? 40)%nat; [|discriminate].
    injection Hdet as <-. destruct Hd; discriminate.
  - rewrite bool_decide_eq_false_2 by discriminate.
    rewrite bool_decide_eq_true_2 by reflexivity.
    unfold validateEthereumAddress.
    destruct (String.length hexPart =? 40)%nat eqn:H40; cbn [negb].
    + destruct (hasMixedCase hexPart); [|discriminate].
      destruct (isValidEIP55Checksum _) as [[]|];
        cbn [mbind option_bind negb]; try discriminate.
      destruct (toEIP55Checksum _); cbn [mbind option_bind]; [|discriminate].
      intros [= <-]. exact I.
    + destruct (String.length hexPart <=? 64)%nat eqn:H64.
      { injection Hdet as <-. destruct Hd; discriminate. }
      rewrite andb_false_r. intros [= <-]. cbn.
      apply Nat.leb_gt in H64. exact H64.
Qed.

Lemma validateToken_error_reportable (token selected : string) (e : CliError) :
  selected = "starknet" \/ selected = "ethereum" ->
  validateToken token selected = Some e -> reportable e.
Proof.
  unfold validateToken. intros [-> | ->].
  - rewrite bool_decide_eq_true_2 by reflexivity.
    destruct (_ && _); [|discriminate]. intros [= <-]. exact I.
  - rewrite bool_decide_eq_false_2 by discriminate.
    rewrite bool_decide_eq_true_2 by reflexivity.
    case_bool_decide; [|discriminate]. intros [= <-]. exact I.
Qed.

Lemma requestSingleToken_error (env : World W) (f : Flags)
    (url address token : string) (st : Run W) (e : CliError) :
  snd (requestSingleToken env f url address token st) = Some e -> reportable e.
Proof.
  unfold requestSingleToken.
  destruct (GetChallenge env url (world st)) as [w [err|challengeResp]].
  { intros [= <-]. exact I. }
  destruct (if skipVerification f then _ else _) as [w' [err|nonce]].
  { intros [= <-]. exact I. }
  destruct (RequestTokens env url _ w') as [w'' [err|answer]]; cbn [snd].
  - intros [= <-]. exact I.
  - discriminate.
Qed.

(** [runRequest], end to end. *)
Lemma runRequest_spec (env : World W) (f : Flags) (address : string) (st : Run W) :
  exists st' err new,
    runRequest env f address st = Some (st', err)
    /\ posted st' = posted st ++ new
    /\ Forall (postable f address) new
    /\ (posted_tokens new = []
        \/ (exists t, posted_tokens new = [t])
        \/ posted_tokens new = ["STRK"; "ETH"])
    /\ (err = None -> new <> [])
    /\ (forall e, err = Some e -> reportable e).
Proof.
  unfold runRequest.
  destruct (ValidateNetwork f) as [f1 err1] eqn:Hvn.
  pose proof (ValidateNetwork_ok f) as Hok. rewrite Hvn in Hok. cbn [fst snd] in Hok.
  assert (Hnothing : forall (st0 : Run W) (e : CliError),
    posted st0 = posted st ->
    reportable e ->
    exists st' err new,
      Some (st0, Some e) = Some (st', err)
      /\ posted st' = posted st ++ new
      /\ Forall (postable f address) new
      /\ (posted_tokens new = []
          \/ (exists t, posted_tokens new = [t])
          \/ posted_tokens new = ["STRK"; "ETH"])
      /\ (err = None -> new <> [])
      /\ (forall e', err = Some e' -> reportable e')).
  { intros st0 e Hst0 He. exists st0, (Some e), []. rewrite app_nil_r.
    repeat split; auto; try discriminate. now intros e' [= <-]. }
  destruct err1 as [e|].
  { apply Hnothing; [reflexivity|].
    unfold ValidateNetwork in Hvn. case_bool_decide; [now simplify_eq|].
    destruct (existsb _ _); now simplify_eq. }
  destruct (Hok eq_refl) as (Hnet & Hskip & Hjson & Htok & Hboth). clear Hok.
  destruct (detectAddressNetwork_returns address) as (detected & Hdet).
  rewrite Hdet. cbn [mbind option_bind].
  destruct (_ && _) eqn:Hmis; [apply Hnothing; [reflexivity|exact I]|].
  assert (Hd : detected = EmptyString \/ detected = GetNetwork f1).
  { apply andb_false_iff in Hmis as [H|H]; apply bool_decide_eq_false in H.
    - left. now destruct (decide (detected = EmptyString)).
    - right. now destruct (decide (detected = GetNetwork f1)). }
  destruct (validateAddress_returns address (GetNetwork f1)) as (checked & Hva).
  rewrite Hva. cbn [mbind option_bind].
  destruct checked as [e|].
  { apply Hnothing; [reflexivity|].
    now apply (validateAddress_error_reportable address (GetNetwork f1) detected). }
  pose proof (token_flags_frame f1 (GetNetwork f1)) as Hframe. cbv zeta in Hframe.
  set (f4 := if bool_decide (token _ = "BOTH") then _ else _) in *.
  destruct Hframe as (Hn4 & Hs4 & Hj4 & Ha4).
  assert (Hg4 : GetNetwork f4 = GetNetwork f1) by (unfold GetNetwork; now rewrite Hn4).
  assert (Hurl : GetAPIURL f4 = GetAPIURL f).
  { pose proof (ValidateNetwork_url f) as Hu. rewrite Hvn in Hu. cbn [fst] in Hu.
    rewrite <- Hu. unfold GetAPIURL. now rewrite Ha4, Hn4. }
  clearbody f4.
  (* one posted request is a postable one *)
  assert (Hone : forall token0 id nonce,
    validateToken token0 (GetNetwork f1) = None ->
    (skipVerification f4 = true -> nonce = -1) ->
    postable f address
      (GetAPIURL f4,
       {| Address := address; Token := token0; Network := GetNetwork f4;
          ChallengeID := id; Nonce := nonce |})).
  { intros token0 id nonce Hvt Hnonce. unfold postable.
    cbn [fst snd Address Network Token Nonce]. rewrite Hg4.
    split; [exact Hurl|].
    repeat split; try assumption. rewrite <- Hskip, <- Hs4. exact Hnonce. }
  (* the verification question *)
  set (verification := if negb (jsonOut f4) && negb (skipVerification f4) then _ else _).
  assert (Hver : posted (fst verification) = posted st
                 /\ forall e, snd verification = Some e -> reportable e).
  { subst verification.
    destruct (negb (jsonOut f4) && negb (skipVerification f4));
      [|split; [reflexivity|discriminate]].
    destruct (AskQuestionWithRetries env 3 (world st)) as [w [err|[]]];
      (split; [reflexivity|]); cbn; try discriminate; now intros e [= <-]. }
  destruct verification as [st0 verified]. cbn [fst snd] in Hver.
  destruct Hver as [Hver Hverr].
  destruct (both f4) eqn:Hb; cbn [negb andb].
  - destruct (decide (GetNetwork f1 = "starknet")) as [Hsel|Hsel];
      [rewrite bool_decide_eq_false_2 by (intros H; now apply H)
      |rewrite bool_decide_eq_true_2 by exact Hsel;
       apply Hnothing; [reflexivity|exact I]].
    destruct verified as [e|]; [apply Hnothing; auto|].
    destruct (requestSingleToken_posts env f4 (GetAPIURL f4) address "STRK" st0)
      as (new1 & Hp1 & Hshape1 & Hsucc1).
    pose proof (requestSingleToken_error env f4 (GetAPIURL f4) address "STRK" st0)
      as Herr1.
    destruct (requestSingleToken env f4 (GetAPIURL f4) address "STRK" st0)
      as [st1 err1]. cbn [fst snd] in *.
    assert (Hnew1 : Forall (postable f address) new1
                    /\ (posted_tokens new1 = [] \/ posted_tokens new1 = ["STRK"])).
    { destruct Hshape1 as [->|(id & nonce & -> & Hnonce)].
      - split; [constructor | now left].
      - split; [|now right]. constructor; [|constructor]. apply Hone; [|exact Hnonce].
        rewrite Hsel. reflexivity. }
    destruct Hnew1 as [Hall1 Htok1].
    destruct err1 as [e|].
    { exists st1, (Some e), new1. split; [reflexivity|].
      split; [now rewrite Hp1, Hver|]. split; [exact Hall1|].
      split; [|split; [discriminate|exact Herr1]].
      destruct Htok1 as [->| ->]; [now left | right; left; eauto]. }
    destruct (requestSingleToken_posts env f4 (GetAPIURL f4) address "ETH" st1)
      as (new2 & Hp2 & Hshape2 & Hsucc2).
    pose proof (requestSingleToken_error env f4 (GetAPIURL f4) address "ETH" st1)
      as Herr2.
    destruct (requestSingleToken env f4 (GetAPIURL f4) address "ETH" st1)
      as [st2 err2]. cbn [fst snd] in *.
    exists st2, err2, (new1 ++ new2). split; [reflexivity|].
    split; [now rewrite Hp2, Hp1, Hver, app_assoc|].
    assert (Hnew2 : Forall (postable f address) new2
                    /\ (posted_tokens new2 = [] \/ posted_tokens new2 = ["ETH"])).
    { destruct Hshape2 as [->|(id & nonce & -> & Hnonce)].
      - split; [constructor | now left].
      - split; [|now right]. constructor; [|constructor]. apply Hone; [|exact Hnonce].
        rewrite Hsel. reflexivity. }
    destruct Hnew2 as [Hall2 Htok2].
    split; [apply Forall_app; now split|].
    split; [|split; [|exact Herr2]].
    + unfold posted_tokens in *. rewrite map_app.
      destruct Htok1 as [Hnil| ->].
      * exfalso. apply Hsucc1; [reflexivity|]. now destruct new1.
      * destruct Htok2 as [->| ->]; [right; left; eauto | now right; right].
    + intros _ Hnil. apply app_eq_nil in Hnil as [-> _]. now apply Hsucc1.
  - destruct (validateToken (token f4) (GetNetwork f1)) as [e|] eqn:Hvt.
    { apply Hnothing; [reflexivity|].
      now apply (validateToken_error_reportable (token f4) (GetNetwork f1)). }
    destruct verified as [e|]; [apply Hnothing; auto|].
    destruct (requestSingleToken_posts env f4 (GetAPIURL f4) address (token f4) st0)
      as (new1 & Hp1 & Hshape1 & Hsucc1).
    pose proof (requestSingleToken_error env f4 (GetAPIURL f4) address (token f4) st0)
      as Herr1.
    destruct (requestSingleToken env f4 (GetAPIURL f4) address (token f4) st0)
      as [st1 err1]. cbn [fst snd] in *.
    exists st1, err1, new1. split; [reflexivity|].
    split; [now rewrite Hp1, Hver|].
    destruct Hshape1 as [->|(id & nonce & -> & Hnonce)].
    + split; [constructor|]. split; [now left | now split].
    + split; [constructor; [now apply Hone|constructor]|].
      split; [right; left; eauto | now split].
Qed.

(** X7. What [runRequest] posts. No slice or index expression of a run
    panics. A run posts no request, one request, or, for both tokens, a
    request for STRK and then one for ETH; each goes to the URL of
    [GetAPIURL] and is for the address given, on the network the flag
    resolves to, with an address and a token that [validateAddress] and
    [validateToken] accept for that network (so never the token "BOTH"),
    and with nonce -1 under the test flag; and a run that ends without an
    error has posted a request. *)
Theorem runRequest_posts_valid_requests (env : World W) (f : Flags)
    (address : string) (st : Run W) :
  is_ascii (network f) = true ->
  is_ascii (token f) = true ->
  exists st' err new,
    runRequest env f address st = Some (st', err)
    /\ posted st' = posted st ++ new
    /\ Forall (postable f address) new
    /\ (posted_tokens new = []
        \/ (exists t, posted_tokens new = [t])
        \/ posted_tokens new = ["STRK"; "ETH"])
    /\ (err = None -> new <> []).
Proof.
  intros _ _.
  destruct (runRequest_spec env f address st)
    as (st' & err & new & H1 & H2 & H3 & H4 & H5 & _).
  now exists st', err, new.
Qed.

(** X8. Messages [runRequest] never shows. The address is matched against
    the selected network before it is validated, so a run never ends with
    one of the two hints "address looks like an Ethereum address" and
    "address looks like a Starknet address", nor with "unsupported
    network"; and it ends with "wrong length" for an Ethereum address only
    when the address has more than 64 characters after the prefix. *)
Theorem runRequest_unreachable_messages (env : World W) (f : Flags)
    (address : string) (st st' : Run W) (e : CliError) :
  is_ascii (network f) = true ->
  is_ascii (token f) = true ->
  runRequest env f address st = Some (st', Some e) ->
  match e with
  | ErrLooksLikeEthereum _ | ErrLooksLikeStarknet _ _
  | ErrUnsupportedNetwork _ => False
  | ErrEthereumLength n _ => (64 < n)%nat
  | _ => True
  end.
Proof.
  intros _ _ Hrun.
  destruct (runRequest_spec env f address st)
    as (st'' & err & new & H1 & _ & _ & _ & _ & Herr).
  rewrite Hrun in H1. injection H1 as <- <-. now apply (Herr e).
Qed.

End CliRun.

Lemma runRequest_posts_valid_requests_witness :
  exists st' err new,
    Cli.runRequest Desk.offline Desk.flags Desk.checksummed Desk.start
    = Some (st', err)
    /\ Cli.posted st' = Cli.posted Desk.start ++ new
    /\ Forall (Cli.postable Desk.flags Desk.checksummed) new
    /\ (Cli.posted_tokens new = []
        \/ (exists t, Cli.posted_tokens new = [t])
        \/ Cli.posted_tokens new = ["STRK"; "ETH"])
    /\ (err = None -> new <> []).
Proof.
  apply (runRequest_posts_valid_requests Desk.offline Desk.flags
           Desk.checksummed Desk.start); reflexivity.
Defined.

Lemma runRequest_unreachable_messages_witness :
  Cli.runRequest Desk.offline Desk.flags Desk.overlong Desk.start
  = Some (Desk.start, Some (Cli.ErrEthereumLength 65 Desk.overlong))
  /\ (64 < 65)%nat.
Proof.
  split; [reflexivity|].
  apply (runRequest_unreachable_messages Desk.offline Desk.flags Desk.overlong
           Desk.start Desk.start
           (Cli.ErrEthereumLength 65 Desk.overlong)); reflexivity.
Defined.

Section CliQuestion.
Import Strings Request Models Cli.
Context {W : Type}.

(** X9. The verification question is asked only when neither [--json] nor
    the hidden test flag is given: with one of them, a run does not depend
    on the person at the terminal; and with the test flag it does not
    depend on the proof-of-work solver either. *)
Theorem question_skipped_by_flags (env : World W) (f : Flags) (address : string)
    (st : Run W) (ask : nat -> W -> W * (string + bool))
    (solve : string -> Z -> W -> W * (string + Z)) :
  is_ascii (network f) = true ->
  is_ascii (token f) = true ->
  jsonOut f = true \/ skipVerification f = true ->
  runRequest (with_person env ask) f address st = runRequest env f address st
  /\ (skipVerification f = true ->
      runRequest (with_solver (with_person env ask) solve) f address st
      = runRequest env f address st).
Proof.
  intros _ _ Hflag. unfold runRequest.
  destruct (ValidateNetwork f) as [f1 err1] eqn:Hvn.
  assert (Hfr : jsonOut f1 = jsonOut f /\ skipVerification f1 = skipVerification f).
  { unfold ValidateNetwork in Hvn. case_bool_decide; [now simplify_eq|].
    destruct (existsb _ _); now simplify_eq. }
  destruct Hfr as [Hj Hs].
  destruct err1 as [e|]; [now split|].
  destruct (detectAddressNetwork address) as [detected|]; [|now split].
  cbn [mbind option_bind].
  destruct (_ && _); [now split|].
  destruct (validateAddress address (GetNetwork f1)) as [[e|]|];
    cbn [mbind option_bind]; [now split| |now split].
  pose proof (token_flags_frame f1 (GetNetwork f1)) as Hframe. cbv zeta in Hframe.
  set (f4 := if bool_decide (token _ = "BOTH") then _ else _) in *.
  destruct Hframe as (_ & Hs4 & Hj4 & _). clearbody f4.
  rewrite Hj in Hj4. rewrite Hs in Hs4.
  destruct (if negb (both f4) then _ else _); [now split|].
  destruct (_ && _); [now split|].
  assert (Hquiet : negb (jsonOut f4) && negb (skipVerification f4) = false).
  { rewrite Hj4, Hs4. destruct Hflag as [-> | ->]; [reflexivity|].
    apply andb_false_r. }
  rewrite Hquiet. split; [reflexivity|].
  intros Hskip. rewrite <- Hs4 in Hskip.
  assert (Hsingle : forall token0 st0,
    requestSingleToken (with_solver (with_person env ask) solve) f4
      (GetAPIURL f4) address token0 st0
    = requestSingleToken env f4 (GetAPIURL f4) address token0 st0).
  { intros token0 st0. unfold requestSingleToken. now rewrite Hskip. }
  rewrite !Hsingle. destruct (both f4); [|reflexivity].
  destruct (requestSingleToken env f4 (GetAPIURL f4) address "STRK" st)
    as [st1 [e|]]; [reflexivity|]. now rewrite Hsingle.
Qed.

End CliQuestion.

Lemma question_skipped_by_flags_witness :
  Cli.runRequest (Cli.with_person Desk.offline Desk.fails_question)
    Desk.json_flags Desk.checksummed Desk.start
  = Cli.runRequest Desk.offline Desk.json_flags Desk.checksummed Desk.start
  /\ (Cli.skipVerification Desk.json_flags = true ->
      Cli.runRequest
        (Cli.with_solver (Cli.with_person Desk.offline Desk.fails_question)
           (Cli.Solve Desk.offline))
        Desk.json_flags Desk.checksummed Desk.start
      = Cli.runRequest Desk.offline Desk.json_flags Desk.checksummed Desk.start).
Proof.
  apply (question_skipped_by_flags Desk.offline Desk.json_flags Desk.checksummed
           Desk.start Desk.fails_question (Cli.Solve Desk.offline));
    [reflexivity | reflexivity | now left].
Defined.

(** ** From the command line to the server *)

(** X10. From the command line to the server's quota gate: a request that
    [runRequest] may post for the network "ethereum", served by a handler
    whose chain of that name is the Ethereum client, passes the chain
    lookup and the chain's address and token validation; the server's
    first three calls are the two validations and the daily-limit check. *)
Theorem posted_ethereum_request_reaches_quota_gate (f : Cli.Flags)
    (address : string) (entry : string * FaucetRequest) (h : Handler)
    (env : Env) (ip : string) (r : RedisClient) (explorerURL : string)
    (balanceAt : string -> option Z)
    (sendTransaction : string -> Z -> option string) :
  Cli.postable f address entry ->
  Network (snd entry) = "ethereum" ->
  chains h !! "ethereum"
  = Some (Ethereum.Client explorerURL balanceAt sendTransaction) ->
  is_Some (providers h !! "ethereum") ->
  exists rest,
    calls (fst (run (RequestTokens h env ip (Some (snd entry))) (initial r)))
    = [CValidateAddress; CValidateToken; CCheckIPDailyLimit] ++ rest.
Proof.
  intros (_ & Haddr & _ & Hva & Hvt & _) Hnet Hchain [provider Hprovider].
  destruct entry as [url [a t n id nonce]].
  cbn [snd Address Token Network] in *. subst a n.
  apply validateAddress_ethereum_chain in Hva.
  apply validateToken_ethereum in Hvt. subst t.
  assert (Hget : getChain h "ethereum"
                 = inr (Ethereum.Client explorerURL balanceAt sendTransaction,
                        provider)).
  { unfold getChain. rewrite bool_decide_eq_false_2 by discriminate.
    now rewrite Hchain, Hprovider. }
  run_to_wp. unfold RequestTokens.
  apply wp_bind, wp_ret. cbv beta iota.
  cbn [Network]. rewrite Hget.
  apply wp_bind, wp_ret. cbv beta iota.
  apply wp_bind, wp_log. cbv beta iota.
  cbn [Chains.ValidateAddress Ethereum.Client Address]. rewrite Hva.
  apply wp_bind, wp_ret. cbv beta iota. cbv zeta.
  cbn [with_Token Token]. change (Strings.ToUpper "ETH") with "ETH".
  rewrite (bool_decide_eq_true_2 ("ETH" ≠ "BOTH")) by discriminate.
  rewrite (bool_decide_eq_false_2 ("ETH" = "BOTH")) by discriminate.
  cbn [Chains.ValidateToken Ethereum.Client].
  change (Ethereum.ValidateToken "ETH") with (@None string).
  wp_exec.
  all: rewrite <- ?app_assoc; cbn [app]; eexists; reflexivity.
Qed.

Lemma posted_ethereum_request_reaches_quota_gate_witness :
  exists rest,
    calls (fst (run (RequestTokens (Sample.handler Sample.eth_ok Sample.sn_ok)
                       (Sample.env_at Sample.t0 Sample.no_faults) Sample.caller
                       (Some (snd Desk.posted_entry)))
                    (initial Sample.store2)))
    = [CValidateAddress; CValidateToken; CCheckIPDailyLimit] ++ rest.
Proof.
  refine (posted_ethereum_request_reaches_quota_gate Desk.flags Sample.alice
            Desk.posted_entry (Sample.handler Sample.eth_ok Sample.sn_ok)
            (Sample.env_at Sample.t0 Sample.no_faults) Sample.caller
            Sample.store2 EmptyString (fun _ => Some (100 * 10 ^ 18))
            (fun _ _ => Some "0xabc") _ _ _ _).
  - unfold Cli.postable. split; [vm_compute; reflexivity|].
    split; [reflexivity|]. split; [now right|]. split; [vm_compute; reflexivity|].
    split; [vm_compute; reflexivity | discriminate].
  - reflexivity.
  - vm_compute. reflexivity.
  - exists Sample.eth_provider. vm_compute. reflexivity.
Defined.

(** ** What a request transfers, and what a transfer needs *)

(** X11. What a request can make the faucet send: nothing at all, unless
    the request is answered with success; and then one transfer of the
    provider's drip amount for each token of a prefix of the tokens the
    request is for: the one token named, or the chain's supported tokens
    in their order. *)
Theorem transfers_are_single_drips (h : Handler) (env : Env) (ip : string)
    (body : option FaucetRequest) (r : RedisClient) :
  (succeeded (snd (run (RequestTokens h env ip body) (initial r))) = true
   <-> sent (fst (run (RequestTokens h env ip body) (initial r))) <> [])
  /\ (sent (fst (run (RequestTokens h env ip body) (initial r))) = []
      \/ exists req chain provider done rest,
           body = Some req
           /\ getChain h (Network req) = inr (chain, provider)
           /\ throttle_tokens chain req = done ++ rest
           /\ sent (fst (run (RequestTokens h env ip body) (initial r)))
              = map (fun t => (t, wei_of env provider t)) done).
Proof.
  run_to_wp. unfold RequestTokens.
  wp_exec.
  all: cbn [succeeded app].
  all: try (split; [split; [discriminate | congruence] | now left]).
  all: try (split; [split; [discriminate | reflexivity]|];
            right; eexists _, _, _, [_], [];
            split; [reflexivity|]; split; [eassumption|];
            split; [|reflexivity];
            unfold throttle_tokens, token_of;
            now rewrite bool_decide_eq_false_2).
  all: split; [split; [discriminate | reflexivity]|].
  all: right; exists f, c, c0, (tx_Token t :: map tx_Token txs), rest.
  all: split; [reflexivity|]; split; [assumption|]; split; [|reflexivity].
  all: unfold throttle_tokens, token_of.
  all: now rewrite bool_decide_eq_true_2.
Qed.

(** X12. No transfer without verified work: whenever a request made the
    faucet send anything, the request named a registered chain, that
    chain's validation accepted its address (and its token, for a
    single-token request), the challenge it names was live in the store
    when the request came in, and the proof-of-work generator accepted
    the request's nonce for that challenge at the configured difficulty. *)
Theorem transfer_needs_verified_work (h : Handler) (env : Env) (ip : string)
    (body : option FaucetRequest) (r : RedisClient) :
  sent (fst (run (RequestTokens h env ip body) (initial r))) <> [] ->
  exists req chain provider stored,
    body = Some req
    /\ getChain h (Network req) = inr (chain, provider)
    /\ ValidateAddress chain (Address req) = None
    /\ (token_of req <> "BOTH" -> ValidateToken chain (token_of req) = None)
    /\ redis_fails env CGetChallenge = false
    /\ GetChallenge (now env) (ChallengeID req) r = Some stored
    /\ VerifyPoW (powGenerator h) stored (Nonce req)
         (Config.PoWDifficulty (config h)) = true.
Proof.
  unfold token_of. run_to_wp. unfold RequestTokens.
  wp_exec.
  all: cbn [app]; intros Hsent; try (exfalso; now apply Hsent).
  all: do 4 eexists; split; [reflexivity|]; split; [eassumption|].
  all: split; [assumption|]; split; [intros; try assumption; try contradiction|].
  all: split; [reflexivity|]; split; eassumption.
Qed.

Lemma transfer_needs_verified_work_witness :
  exists req chain provider stored,
    Some Sample.req_eth = Some req
    /\ getChain (Sample.handler Sample.eth_ok Sample.sn_ok) (Network req)
       = inr (chain, provider)
    /\ ValidateAddress chain (Address req) = None
    /\ (token_of req <> "BOTH" -> ValidateToken chain (token_of req) = None)
    /\ redis_fails (Sample.env_at Sample.t0 Sample.no_faults) CGetChallenge = false
    /\ GetChallenge (now (Sample.env_at Sample.t0 Sample.no_faults))
         (ChallengeID req) Sample.store = Some stored
    /\ VerifyPoW (powGenerator (Sample.handler Sample.eth_ok Sample.sn_ok))
         stored (Nonce req)
         (Config.PoWDifficulty (config (Sample.handler Sample.eth_ok Sample.sn_ok)))
       = true.
Proof.
  refine (transfer_needs_verified_work (Sample.handler Sample.eth_ok Sample.sn_ok)
            (Sample.env_at Sample.t0 Sample.no_faults) Sample.caller
            (Some Sample.req_eth) Sample.store _).
  vm_compute. discriminate.
Defined.

(** X13. The server serves a request for both tokens on the Ethereum
    chain, which lists ETH only: when it is answered with success, one
    transaction was made, for ETH at its drip amount, the message is "Both
    tokens sent successfully", and the commit of the daily counter is of 2
    units. *)
Theorem both_on_ethereum_is_one_transfer (h : Handler) (env : Env) (ip : string)
    (req : FaucetRequest) (r : RedisClient) (explorerURL : string)
    (balanceAt : string -> option Z)
    (sendTransaction : string -> Z -> option string)
    (provider : ChainProvider) (fr : FaucetResponse) :
  getChain h (Network req)
  = inr (Ethereum.Client explorerURL balanceAt sendTransaction, provider) ->
  token_of req = "BOTH" ->
  snd (run (RequestTokens h env ip (Some req)) (initial r)) = FaucetOK fr ->
  map tx_Token (resp_Transactions fr) = ["ETH"]
  /\ resp_Message fr = MsgBothSent
  /\ sent (fst (run (RequestTokens h env ip (Some req)) (initial r)))
     = [("ETH", wei_of env provider "ETH")]
  /\ exists gates,
       calls (fst (run (RequestTokens h env ip (Some req)) (initial r)))
       = gates ++ [CTransferTokens "ETH"; CIncrementIPDailyLimit 2;
                   CSetTokenHourlyThrottle "ETH"].
Proof.
  unfold token_of. intros Hchain Hboth. run_to_wp. unfold RequestTokens.
  wp_exec.
  all: intros Hresp; try discriminate Hresp.
  all: injection Hresp as <-; cbn [resp_Message resp_Transactions] in *.
  all: cbn [GetSupportedTokens Ethereum.Client] in Hsplit.
  all: injection Hsplit as Htoken Hrest.
  all: destruct txs; [|discriminate Hrest].
  all: cbn [map app] in Hrest |- *; subst rest.
  all: destruct Hend as [(_ & -> & ->)|(rest' & k & Hrest' & _)];
    [|discriminate Hrest'].
  all: rewrite <- Htoken.
  all: rewrite bool_decide_eq_false_2 by (intros Hne; now apply Hne).
  all: split; [reflexivity|]; split; [reflexivity|]; split; [reflexivity|].
  all: cbn [GetSupportedTokens Ethereum.Client map flat_map token_block app].
  all: eexists [_; _; _; _; _; _; _; _]; reflexivity.
Qed.

Lemma both_on_ethereum_is_one_transfer_witness :
  sent (fst (run (RequestTokens (Sample.handler Sample.eth_ok Sample.sn_ok)
                    (Sample.env_at Sample.t0 Sample.no_faults) Sample.caller
                    (Some Desk.req_both_eth))
                 (initial Sample.store)))
  = [("ETH", wei_of (Sample.env_at Sample.t0 Sample.no_faults)
                    Sample.eth_provider "ETH")].
Proof.
  edestruct (both_on_ethereum_is_one_transfer
               (Sample.handler Sample.eth_ok Sample.sn_ok)
               (Sample.env_at Sample.t0 Sample.no_faults) Sample.caller
               Desk.req_both_eth Sample.store EmptyString
               (fun _ => Some (100 * 10 ^ 18)) (fun _ _ => Some "0xabc")
               Sample.eth_provider)
    as (_ & _ & Hsent & _).
  - vm_compute. reflexivity.
  - vm_compute. reflexivity.
  - vm_compute. reflexivity.
  - exact Hsent.
Defined.

(** ** The network of a request *)

Section RequestNetwork.

Lemma ret_bind {E A B} (a : A) (f : A -> Step E B) (st : St) :
  (mret a ≫= f) st = f a st.
Proof. reflexivity. Qed.

Lemma bind_ext {E A B} (m1 m2 : Step E A) (f1 f2 : A -> Step E B) (st : St) :
  m1 st = m2 st ->
  (forall a st', f1 a st' = f2 a st') ->
  (m1 ≫= f1) st = (m2 ≫= f2) st.
Proof.
  intros Hm Hf. unfold mbind, Step_bind. rewrite Hm.
  destruct (m2 st) as [st' [e|a]]; [reflexivity | apply Hf].
Qed.

(** The loop of a combined request reads the address of the request only. *)
Lemma both_loop_address env (req1 req2 : FaucetRequest) chain provider tokens :
  Address req1 = Address req2 ->
  forall txs st,
    both_loop env req1 chain provider tokens txs st
    = both_loop env req2 chain provider tokens txs st.
Proof.
  intros Haddr. induction tokens as [|token tokens IH]; intros txs st.
  - reflexivity.
  - cbn [both_loop].
    replace (both_iteration env req1 chain provider token st)
      with (both_iteration env req2 chain provider token st)
      by (unfold both_iteration; now rewrite Haddr).
    destruct (both_iteration env req2 chain provider token st) as [st' [[]|tx]];
      [reflexivity | apply IH].
Qed.

Lemma getChain_default h : getChain h EmptyString = getChain h (defaultNetwork h).
Proof.
  unfold getChain. rewrite bool_decide_eq_true_2 by reflexivity.
  now case_bool_decide as Hd; [rewrite Hd|].
Qed.

End RequestNetwork.

Ltac same_steps :=
  repeat first
    [ reflexivity
    | apply bind_ext;
      [ first [ reflexivity
              | cbv beta;
                match goal with
                | |- (let '(_, _) := both_loop _ ?r1 _ _ _ _ _ in _)
                     = (let '(_, _) := both_loop _ ?r2 _ _ _ _ _ in _) =>
                    rewrite (both_loop_address _ r1 r2) by reflexivity
                end;
                reflexivity ]
      | intros ? ? ]
    | match goal with
      | |- (match ?x with _ => _ end) _ = _ => destruct x
      | |- (let '(_, _) := ?x in _) _ = _ => destruct x
      end ].

(** X14. A request that leaves its network field empty is served exactly
    as the same request naming the handler's default network: the same
    answer, the same calls and transfers, the same store afterwards, from
    every state. The same holds for a status query without a [network]
    parameter. *)
Theorem omitted_network_is_default (h : Handler) (env : Env) (ip : string)
    (req : FaucetRequest) (address : string) (st : St) :
  Network req = EmptyString ->
  RequestTokens h env ip (Some req) st
  = RequestTokens h env ip
      (Some (Server.with_Network req (defaultNetwork h))) st
  /\ GetStatus h env ip address EmptyString st
     = GetStatus h env ip address (defaultNetwork h) st.
Proof.
  destruct req as [a t n id nonce]. cbn [Network]. intros ->.
  unfold Server.with_Network. cbn [Address Token ChallengeID Nonce].
  destruct (decide (defaultNetwork h = EmptyString)) as [Hd|Hd].
  { rewrite Hd. split; reflexivity. }
  split.
  - unfold RequestTokens. rewrite !ret_bind. cbv beta zeta.
    cbn [Address Token Network ChallengeID Nonce with_Token].
    rewrite getChain_default.
    rewrite (bool_decide_eq_true_2 (EmptyString = EmptyString)) by reflexivity.
    rewrite (bool_decide_eq_false_2 (defaultNetwork h = EmptyString)) by exact Hd.
    unfold handleBothTokensRequest.
    cbn [Address Token Network ChallengeID Nonce with_Token].
    rewrite (bool_decide_eq_true_2 (EmptyString = EmptyString)) by reflexivity.
    rewrite (bool_decide_eq_false_2 (defaultNetwork h = EmptyString)) by exact Hd.
    same_steps.
  - unfold GetStatus. cbv zeta.
    rewrite (bool_decide_eq_true_2 (EmptyString = EmptyString)) by reflexivity.
    rewrite (bool_decide_eq_false_2 (defaultNetwork h = EmptyString)) by exact Hd.
    reflexivity.
Qed.

Lemma omitted_network_is_default_witness :
  RequestTokens (Sample.handler Sample.eth_ok Sample.sn_ok)
    (Sample.env_at Sample.t0 Sample.no_faults) Sample.caller
    (Some Desk.req_unnamed) (initial Sample.store)
  = RequestTokens (Sample.handler Sample.eth_ok Sample.sn_ok)
      (Sample.env_at Sample.t0 Sample.no_faults) Sample.caller
      (Some (Server.with_Network Desk.req_unnamed
               (defaultNetwork (Sample.handler Sample.eth_ok Sample.sn_ok))))
      (initial Sample.store)
  /\ GetStatus (Sample.handler Sample.eth_ok Sample.sn_ok)
       (Sample.env_at Sample.t0 Sample.no_faults) Sample.caller Sample.alice
       EmptyString (initial Sample.store)
     = GetStatus (Sample.handler Sample.eth_ok Sample.sn_ok)
         (Sample.env_at Sample.t0 Sample.no_faults) Sample.caller Sample.alice
         (defaultNetwork (Sample.handler Sample.eth_ok Sample.sn_ok))
         (initial Sample.store).
Proof.
  exact (omitted_network_is_default (Sample.handler Sample.eth_ok Sample.sn_ok)
           (Sample.env_at Sample.t0 Sample.no_faults) Sample.caller
           Desk.req_unnamed Sample.alice (initial Sample.store) eq_refl).
Defined.

(** ** The letter case of a token *)

Lemma toUpperChar_idem (c : ascii) :
  Strings.toUpperChar (Strings.toUpperChar c) = Strings.toUpperChar c.
Proof. destruct c as [[] [] [] [] [] [] [] []]; reflexivity. Qed.

Lemma ToUpper_idem (s : string) :
  Strings.ToUpper (Strings.ToUpper s) = Strings.ToUpper s.
Proof.
  induction s as [|c s IH]; [reflexivity|].
  cbn. now rewrite toUpperChar_idem, IH.
Qed.

(** X15. The token of a request is read without regard to letter case: a
    request is served exactly as the same request with its token in
    capitals, from every state. *)
Theorem token_case_is_ignored (h : Handler) (env : Env) (ip : string)
    (req : FaucetRequest) (st : St) :
  Cli.is_ascii (Token req) = true ->
  RequestTokens h env ip (Some req) st
  = RequestTokens h env ip
      (Some (with_Token req (Strings.ToUpper (Token req)))) st.
Proof.
  intros _. destruct req as [a t n id nonce].
  unfold RequestTokens. rewrite !ret_bind. cbv beta zeta.
  cbn [Address Token Network ChallengeID Nonce with_Token].
  rewrite ToUpper_idem.
  unfold handleBothTokensRequest.
  cbn [Address Token Network ChallengeID Nonce with_Token].
  same_steps.
Qed.

Lemma token_case_is_ignored_witness :
  RequestTokens (Sample.handler Sample.eth_ok Sample.sn_ok)
    (Sample.env_at Sample.t0 Sample.no_faults) Sample.caller
    (Some Sample.req_eth) (initial Sample.store)
  = RequestTokens (Sample.handler Sample.eth_ok Sample.sn_ok)
      (Sample.env_at Sample.t0 Sample.no_faults) Sample.caller
      (Some (with_Token Sample.req_eth (Strings.ToUpper (Token Sample.req_eth))))
      (initial Sample.store).
Proof.
  exact (token_case_is_ignored (Sample.handler Sample.eth_ok Sample.sn_ok)
           (Sample.env_at Sample.t0 Sample.no_faults) Sample.caller
           Sample.req_eth (initial Sample.store) eq_refl).
Defined.

(** ** The handler a server starts with *)

Section ServerStart.
Import Server.

Lemma registries_chains (starknet ethereum : option (Chain * ChainProvider))
    (name : string) :
  fst (registries starknet ethereum) !! name
  = if bool_decide (name = "ethereum") then fst <$> ethereum
    else if bool_decide (name = "starknet") then fst <$> starknet
    else None.
Proof.
  unfold registries.
  destruct starknet as [[sc sp]|], ethereum as [[ec ep]|]; cbn [fst snd fmap option_fmap option_map];
    repeat case_bool_decide; subst;
    rewrite ?lookup_insert_eq, ?lookup_insert_ne, ?lookup_empty by congruence;
    try reflexivity; congruence.
Qed.

Lemma registries_providers (starknet ethereum : option (Chain * ChainProvider))
    (name : string) :
  snd (registries starknet ethereum) !! name
  = if bool_decide (name = "ethereum") then snd <$> ethereum
    else if bool_decide (name = "starknet") then snd <$> starknet
    else None.
Proof.
  unfold registries.
  destruct starknet as [[sc sp]|], ethereum as [[ec ep]|]; cbn [fst snd fmap option_fmap option_map];
    repeat case_bool_decide; subst;
    rewrite ?lookup_insert_eq, ?lookup_insert_ne, ?lookup_empty by congruence;
    try reflexivity; congruence.
Qed.

End ServerStart.

(** X16. [NewMultiChainHandler] leaves a handler whose default network
    is registered: for a registry that is not empty, whatever the order in
    which Go visits its names, the default network names a registered
    chain, "starknet" when that is registered and otherwise "ethereum"
    when that is; and when every chain has a provider, a request without a
    network finds its chain. *)
Theorem NewMultiChainHandler_default_registered (cfg : Config.Config)
    (chainRegistry : gmap string Chain)
    (providerRegistry : gmap string ChainProvider) (powGenerator : Generator)
    (range_order : list string) :
  chainRegistry <> ∅ ->
  (forall name, In name range_order <-> is_Some (chainRegistry !! name)) ->
  is_Some (chainRegistry
           !! defaultNetwork (Server.NewMultiChainHandler cfg chainRegistry
                                providerRegistry powGenerator range_order))
  /\ (is_Some (chainRegistry !! "starknet") ->
      defaultNetwork (Server.NewMultiChainHandler cfg chainRegistry
                        providerRegistry powGenerator range_order)
      = "starknet")
  /\ (chainRegistry !! "starknet" = None ->
      is_Some (chainRegistry !! "ethereum") ->
      defaultNetwork (Server.NewMultiChainHandler cfg chainRegistry
                        providerRegistry powGenerator range_order)
      = "ethereum")
  /\ ((forall name, is_Some (chainRegistry !! name) ->
                    is_Some (providerRegistry !! name)) ->
      exists found,
        getChain (Server.NewMultiChainHandler cfg chainRegistry
                    providerRegistry powGenerator range_order) EmptyString
        = inr found).
Proof.
  intros Hnonempty Horder.
  assert (Hdefault : is_Some (chainRegistry
            !! defaultNetwork (Server.NewMultiChainHandler cfg chainRegistry
                                 providerRegistry powGenerator range_order))).
  { unfold Server.NewMultiChainHandler. cbn [defaultNetwork].
    destruct (chainRegistry !! "starknet") eqn:Hs; [now rewrite Hs|].
    destruct (chainRegistry !! "ethereum") eqn:He; [now rewrite He|].
    destruct range_order as [|name rest].
    - exfalso. apply Hnonempty. apply map_eq. intros name.
      rewrite lookup_empty. apply eq_None_not_Some. intros Hin.
      apply Horder in Hin. exact Hin.
    - apply Horder. now left. }
  split; [exact Hdefault|split; [|split]].
  - intros [c Hs]. unfold Server.NewMultiChainHandler. cbn [defaultNetwork].
    now rewrite Hs.
  - intros Hs [c He]. unfold Server.NewMultiChainHandler. cbn [defaultNetwork].
    now rewrite Hs, He.
  - intros Hproviders. destruct Hdefault as [c Hc].
    destruct (Hproviders _ (ex_intro _ c Hc)) as [p Hp].
    exists (c, p). unfold getChain.
    rewrite bool_decide_eq_true_2 by reflexivity.
    change (chains (Server.NewMultiChainHandler cfg chainRegistry
                      providerRegistry powGenerator range_order))
      with chainRegistry.
    change (providers (Server.NewMultiChainHandler cfg chainRegistry
                         providerRegistry powGenerator range_order))
      with providerRegistry.
    now rewrite Hc, Hp.
Qed.

Lemma NewMultiChainHandler_default_registered_witness :
  defaultNetwork (Server.NewMultiChainHandler Sample.cfg Desk.eth_chains
                    Desk.eth_providers Sample.pow7 ["ethereum"])
  = "ethereum".
Proof.
  destruct (NewMultiChainHandler_default_registered Sample.cfg Desk.eth_chains
              Desk.eth_providers Sample.pow7 ["ethereum"])
    as (_ & _ & Hethereum & _).
  - apply insert_non_empty.
  - intros name. unfold Desk.eth_chains. split.
    + intros [<-|[]]. rewrite lookup_insert_eq. eauto.
    + intros [c Hc]. destruct (decide (name = "ethereum")) as [->|Hne];
        [now left|].
      rewrite lookup_insert_ne, lookup_empty in Hc by congruence. discriminate.
  - apply Hethereum; [reflexivity | now exists Sample.eth_ok].
Defined.

(** X17. A handler made by [NewHandler] serves its one chain under the
    chain's own name and for a request without a network, and under no
    other name. *)
Theorem NewHandler_serves_one_chain (cfg : Config.Config) (chain : Chain)
    (chainProvider : ChainProvider) (powGenerator : Generator)
    (network : string) :
  getChain (Server.NewHandler cfg chain chainProvider powGenerator) network
  = inr (chain, chainProvider)
  <-> network = EmptyString \/ network = GetChainName chain.
Proof.
  unfold getChain, Server.NewHandler. cbn [defaultNetwork chains providers].
  split.
  - case_bool_decide as Hn; [now left|]. right.
    destruct (decide (network = GetChainName chain)) as [|Hne]; [assumption|].
    rewrite lookup_singleton_ne in H by congruence. discriminate.
  - intros [-> | ->].
    + rewrite bool_decide_eq_true_2 by reflexivity.
      now rewrite !lookup_singleton_eq.
    + case_bool_decide; now rewrite !lookup_singleton_eq.
Qed.

(** X18. The handler [main] serves. With at least one chain loaded, the
    server starts; a request without a network goes to Starknet when that
    chain was loaded and to Ethereum otherwise; a request that names
    "starknet" or "ethereum" gets that chain exactly when it was loaded;
    every other name is answered "unsupported network"; and "provider not
    found" is never the answer. *)
Theorem main_handler_lookup (cfg : Config.Config)
    (starknet ethereum : option (Chain * ChainProvider))
    (powGenerator : Generator) (range_order : list string) (network : string) :
  starknet <> None \/ ethereum <> None ->
  exists h,
    Server.main cfg starknet ethereum powGenerator range_order = Some h
    /\ getChain h network
       = match (if bool_decide (network = EmptyString)
                then match starknet with Some _ => starknet | None => ethereum end
                else if bool_decide (network = "starknet") then starknet
                else if bool_decide (network = "ethereum") then ethereum
                else None) with
         | Some found => inr found
         | None => inl (UnsupportedNetwork network)
         end.
Proof.
  intros Hloaded. unfold Server.main.
  pose proof (registries_chains starknet ethereum) as Hchains.
  pose proof (registries_providers starknet ethereum) as Hproviders.
  destruct (Server.registries starknet ethereum) as [chainRegistry providerRegistry].
  cbn [fst snd] in *.
  assert (Hsize : (size chainRegistry =? 0)%nat = false).
  { apply Nat.eqb_neq. intros Hsize. apply map_size_empty_iff in Hsize. subst.
    destruct Hloaded as [Hl|Hl]; apply Hl.
    - specialize (Hchains "starknet"). rewrite lookup_empty in Hchains.
      cbn in Hchains. now destruct starknet.
    - specialize (Hchains "ethereum"). rewrite lookup_empty in Hchains.
      cbn in Hchains. now destruct ethereum. }
  rewrite Hsize. eexists. split; [reflexivity|].
  unfold getChain, Server.NewMultiChainHandler.
  cbn [defaultNetwork chains providers].
  rewrite (Hchains "starknet"), (Hchains "ethereum").
  rewrite (bool_decide_eq_false_2 ("starknet" = "ethereum")) by discriminate.
  rewrite (bool_decide_eq_true_2 ("starknet" = "starknet")) by reflexivity.
  rewrite (bool_decide_eq_true_2 ("ethereum" = "ethereum")) by reflexivity.
  destruct starknet as [[sc sp]|], ethereum as [[ec ep]|];
    cbn [fmap option_fmap option_map fst snd];
    [| | |destruct Hloaded; congruence].
  all: destruct (decide (network = EmptyString)) as [->|Hn];
    [rewrite !bool_decide_eq_true_2 by reflexivity
    |rewrite !(bool_decide_eq_false_2 (network = EmptyString)) by exact Hn].
  all: rewrite Hchains, Hproviders.
  all: repeat case_bool_decide; subst; try discriminate;
    cbn [fmap option_fmap option_map fst snd]; try reflexivity; congruence.
Qed.

Lemma main_handler_lookup_witness :
  exists h,
    Server.main Sample.cfg None (Some (Sample.eth_ok, Sample.eth_provider))
      Sample.pow7 [] = Some h
    /\ getChain h EmptyString = inr (Sample.eth_ok, Sample.eth_provider).
Proof.
  destruct (main_handler_lookup Sample.cfg None
              (Some (Sample.eth_ok, Sample.eth_provider)) Sample.pow7 []
              EmptyString)
    as (h & Hmain & Hget); [right; discriminate|].
  exists h. split; [exact Hmain | exact Hget].
Defined.

(** ** Loading the configuration *)

Section Loading.
Import Config ConfigLoad.

Lemma getEnv_default_nonempty (os : Os) (key defaultValue : string) :
  defaultValue <> EmptyString -> getEnv os key defaultValue <> EmptyString.
Proof. unfold getEnv. now case_bool_decide. Qed.

(** What [Validate] leaves of a configuration that has the store's URL. *)
Lemma Validate_defaults (c c' : Config) :
  Validate c = inr c' ->
  RedisURL c' = RedisURL c
  /\ RedisURL c <> EmptyString
  /\ port (Server c') <> 0
  /\ difficulty (PoW c') <> 0
  /\ challenge_ttl_seconds (PoW c') <> 0
  /\ max_requests_per_day_ip (RateLimits c') <> 0
  /\ max_challenges_per_hour (RateLimits c') <> 0
  /\ Validate c' = inr c'.
Proof.
  unfold Validate. case_bool_decide as Hurl; [discriminate|].
  intros [= <-]. cbn.
  rewrite (bool_decide_eq_false_2 _ Hurl).
  repeat split; try assumption;
    try (destruct (_ =? 0) eqn:H0; [discriminate | now apply Z.eqb_neq in H0]).
  destruct c as [[p l] [d t] [m k] u]. cbn.
  do 2 f_equal; f_equal;
    match goal with
    | |- (if (if ?v =? 0 then ?d else ?v) =? 0 then _ else _) = _ =>
        destruct (v =? 0) eqn:Hv; [reflexivity | now rewrite Hv]
    end.
Qed.

End Loading.

(** X19. What [Load] returns. The error "REDIS_URL is required" cannot
    come out of [Load], which falls back to the local store's URL; a
    configuration that [Load] returns has a store URL and no zero setting,
    and passes [Validate] unchanged. *)
Theorem Load_supplies_redis_url_and_defaults (os : ConfigLoad.Os) :
  match ConfigLoad.Load os with
  | inl (ConfigLoad.ErrValidate _) => False
  | inl _ => True
  | inr c =>
      Config.RedisURL c <> EmptyString
      /\ Config.port (Config.Server c) <> 0
      /\ Config.PoWDifficulty c <> 0
      /\ Config.ChallengeTTL c <> 0
      /\ Config.MaxRequestsPerDayIP c <> 0
      /\ Config.MaxChallengesPerHour c <> 0
      /\ Config.Validate c = inr c
  end.
Proof.
  unfold ConfigLoad.Load. cbv zeta.
  destruct (ConfigLoad.FindConfigFile os _) as [name|path]; [exact I|].
  destruct (ConfigLoad.ReadFile os path) as [cause|data]; [exact I|].
  destruct (ConfigLoad.Unmarshal os data) as [cause|parsed]; [exact I|].
  destruct (Config.Validate _) as [e|c] eqn:Hv.
  - unfold Config.Validate in Hv. cbn [Config.RedisURL ConfigLoad.with_RedisURL] in Hv.
    rewrite bool_decide_eq_false_2 in Hv; [discriminate|].
    now apply getEnv_default_nonempty.
  - apply Validate_defaults in Hv as (Hurl & Hne & Hp & Hd & Ht & Hm & Hk & Hfix).
    unfold Config.PoWDifficulty, Config.ChallengeTTL, Config.MaxRequestsPerDayIP,
      Config.MaxChallengesPerHour.
    repeat split; try assumption. now rewrite Hurl.
Qed.

(** ** The reporting handlers *)

Section Reporting.
Import Reports.

Lemma info_balances_lookup env sprintf chain provider tokens token :
  info_balances env sprintf chain provider tokens !! token
  = if bool_decide (token ∈ tokens)
    then Some (found_balance env sprintf chain provider token)
    else None.
Proof.
  unfold info_balances.
  assert (Hgen : forall acc : gmap string string,
    fold_left
      (fun balances token =>
         match GetBalance chain (GetFaucetAddress provider) token with
         | None => <[token := "0"]> balances
         | Some balance =>
             if bool_decide (token = "ETH")
             then <[token := sprintf 4%nat (WeiToAmount env balance)]> balances
             else <[token := sprintf 2%nat (WeiToAmount env balance)]> balances
         end) tokens acc !! token
    = if bool_decide (token ∈ tokens)
      then Some (found_balance env sprintf chain provider token)
      else acc !! token).
  { induction tokens as [|t tokens IH]; intros acc.
    - cbn [fold_left]. rewrite bool_decide_eq_false_2; [reflexivity|].
      apply not_elem_of_nil.
    - cbn [fold_left]. rewrite IH. clear IH.
      destruct (decide (token ∈ tokens)) as [Hin|Hnot].
      + rewrite (bool_decide_eq_true_2 _ Hin).
        now rewrite (bool_decide_eq_true_2 (token ∈ t :: tokens))
          by now apply list_elem_of_further.
      + rewrite (bool_decide_eq_false_2 _ Hnot).
        destruct (decide (t = token)) as [->|Hne].
        * rewrite (bool_decide_eq_true_2 (token ∈ token :: tokens))
            by apply list_elem_of_here.
          unfold found_balance.
          destruct (GetBalance chain (GetFaucetAddress provider) token);
            [case_bool_decide|]; now rewrite lookup_insert_eq.
        * rewrite (bool_decide_eq_false_2 (token ∈ t :: tokens))
            by (intros Hin; apply elem_of_cons in Hin as [?|?]; congruence).
          destruct (GetBalance chain (GetFaucetAddress provider) t);
            [case_bool_decide|]; now rewrite lookup_insert_ne. }
  rewrite Hgen. now rewrite lookup_empty.
Qed.

End Reporting.

(** X20. What [GetInfo] answers. It fails only when [getChain] does. The
    balance it shows for STRK and for ETH is never empty, and it is "0"
    for a token the chain does not list and for a token whose balance the
    chain's node failed to report: a node that is down does not make
    [GetInfo] fail. *)
Theorem GetInfo_always_shows_balances (h : Handler) (env : Env)
    (sprintf : nat -> float -> string) (range_order : list string)
    (networkQuery : string) :
  match Reports.GetInfo h env sprintf range_order networkQuery with
  | inl err =>
      getChain h (if bool_decide (networkQuery = EmptyString)
                  then defaultNetwork h else networkQuery) = inl err
  | inr info =>
      exists chain provider,
        getChain h (if bool_decide (networkQuery = EmptyString)
                    then defaultNetwork h else networkQuery)
        = inr (chain, provider)
        /\ Reports.balance_STRK (Reports.info_FaucetBalance info) <> EmptyString
        /\ Reports.balance_ETH (Reports.info_FaucetBalance info) <> EmptyString
        /\ (~ In "STRK" (GetSupportedTokens chain)
            \/ GetBalance chain (GetFaucetAddress provider) "STRK" = None ->
            Reports.balance_STRK (Reports.info_FaucetBalance info) = "0")
        /\ (~ In "ETH" (GetSupportedTokens chain)
            \/ GetBalance chain (GetFaucetAddress provider) "ETH" = None ->
            Reports.balance_ETH (Reports.info_FaucetBalance info) = "0")
  end.
Proof.
  unfold Reports.GetInfo. cbv zeta.
  destruct (getChain h _) as [err|[chain provider]]; [reflexivity|].
  exists chain, provider. split; [reflexivity|].
  cbn [Reports.info_FaucetBalance Reports.balance_STRK Reports.balance_ETH].
  rewrite !info_balances_lookup.
  assert (Hshown : forall token,
    (if bool_decide
          (default EmptyString
             (if bool_decide (token ∈ GetSupportedTokens chain)
              then Some (Reports.found_balance env sprintf chain provider token)
              else None) = EmptyString)
     then "0"
     else default EmptyString
            (if bool_decide (token ∈ GetSupportedTokens chain)
             then Some (Reports.found_balance env sprintf chain provider token)
             else None)) <> EmptyString
    /\ (~ In token (GetSupportedTokens chain)
        \/ GetBalance chain (GetFaucetAddress provider) token = None ->
        (if bool_decide
              (default EmptyString
                 (if bool_decide (token ∈ GetSupportedTokens chain)
                  then Some (Reports.found_balance env sprintf chain provider token)
                  else None) = EmptyString)
         then "0"
         else default EmptyString
                (if bool_decide (token ∈ GetSupportedTokens chain)
                 then Some (Reports.found_balance env sprintf chain provider token)
                 else None)) = "0")).
  { intros token. split.
    - destruct (bool_decide (default _ _ = _)) eqn:Hempty; [discriminate|].
      now apply bool_decide_eq_false in Hempty.
    - intros Hzero.
      destruct (bool_decide (token ∈ GetSupportedTokens chain)) eqn:Hin;
        cbn [default]; [|reflexivity].
      apply bool_decide_eq_true in Hin.
      destruct Hzero as [Hnot|Hfail]; [now apply list_elem_of_In in Hin|].
      unfold Reports.found_balance. rewrite Hfail. reflexivity. }
  destruct (Hshown "STRK") as [Hs1 Hs2], (Hshown "ETH") as [He1 He2].
  now repeat split.
Qed.

Section Quota.
Import Strings Reports.

(** The inner loop of [GetQuota] reads only; it leaves the entries of
    other tokens as they were and shows, for a token whose check did not
    fail and whose lower-case name no other token of the list shares,
    the outcome of that check. *)
Lemma quota_tokens_run env ip networkName tokens :
  forall (acc : gmap string TokenThrottle) st,
    redis (fst (quota_tokens env ip networkName tokens acc st)) = redis st
    /\ sent (fst (quota_tokens env ip networkName tokens acc st)) = sent st
    /\ exists m,
         snd (quota_tokens env ip networkName tokens acc st) = inr m
         /\ (forall key, (forall t, In t tokens -> ToLower t <> key) ->
                         m !! key = acc !! key)
         /\ (forall t,
               In t tokens ->
               redis_fails env (CCheckTokenHourlyThrottle t) = false ->
               (forall t', In t' tokens -> ToLower t' = ToLower t -> t' = t) ->
               m !! ToLower t
               = Some (throttle_entry
                         (CheckTokenHourlyThrottle (now env) ip networkName t
                            (redis st)))).
Proof.
  induction tokens as [|token rest IH]; intros acc st.
  - cbn. split; [reflexivity|]. split; [reflexivity|].
    exists acc. split; [reflexivity|]. split; [reflexivity|]. intros t [].
  - cbn [quota_tokens]. unfold mbind, Step_bind, redis_get.
    set (st1 := {| redis := redis st;
                   calls := calls st ++ [CCheckTokenHourlyThrottle token];
                   sent := sent st |}).
    destruct (redis_fails env (CCheckTokenHourlyThrottle token)) eqn:Hfail.
    + destruct (IH acc st1) as (Hr & Hs & m & Hm & Hframe & Hshown).
      split; [exact Hr|]. split; [exact Hs|].
      exists m. split; [exact Hm|]. split.
      * intros key Hkey. apply Hframe. intros t Hin. apply Hkey. now right.
      * intros t [->|Hin] Hok Huniq; [congruence|].
        apply (Hshown t Hin Hok). intros t' Hin'. apply Huniq. now right.
    + destruct (CheckTokenHourlyThrottle (now env) ip networkName token (redis st))
        as [canRequest nextTime] eqn:Hcheck.
      destruct (IH (<[ToLower token := {| available := canRequest;
                                          next_request_at := nextTime |}]> acc) st1)
        as (Hr & Hs & m & Hm & Hframe & Hshown).
      split; [exact Hr|]. split; [exact Hs|].
      exists m. split; [exact Hm|]. split.
      * intros key Hkey. rewrite Hframe.
        -- apply lookup_insert_ne. apply Hkey. now left.
        -- intros t Hin. apply Hkey. now right.
      * intros t Hin Hok Huniq.
        destruct (in_dec string_dec t rest) as [Hrest|Hrest].
        { apply (Hshown t Hrest Hok). intros t' Hin'. apply Huniq. now right. }
        destruct Hin as [->|Hin]; [|contradiction].
        rewrite Hframe.
        -- rewrite lookup_insert_eq. unfold throttle_entry. now rewrite Hcheck.
        -- intros t' Hin' Hsame. apply Hrest.
           rewrite <- (Huniq t' (or_intror Hin') Hsame). exact Hin'.
Qed.

(** The outer loop: it reads only, and for a registered network that the
    range visits once it shows what the inner loop found. *)
Lemma quota_networks_run h env ip names :
  forall (acc : gmap string (gmap string TokenThrottle)) st,
    redis (fst (quota_networks h env ip names acc st)) = redis st
    /\ sent (fst (quota_networks h env ip names acc st)) = sent st
    /\ exists M,
         snd (quota_networks h env ip names acc st) = inr M
         /\ (forall key, ~ In key names -> M !! key = acc !! key)
         /\ (forall networkName chain t,
               In networkName names -> List.NoDup names ->
               chains h !! networkName = Some chain ->
               In t (GetSupportedTokens chain) ->
               redis_fails env (CCheckTokenHourlyThrottle t) = false ->
               (forall t', In t' (GetSupportedTokens chain) ->
                           ToLower t' = ToLower t -> t' = t) ->
               (M !! networkName) ≫= (fun m => m !! ToLower t)
               = Some (throttle_entry
                         (CheckTokenHourlyThrottle (now env) ip networkName t
                            (redis st)))).
Proof.
  induction names as [|name rest IH]; intros acc st.
  - cbn. split; [reflexivity|]. split; [reflexivity|].
    exists acc. split; [reflexivity|]. split; [reflexivity|].
    intros networkName chain t [].
  - cbn [quota_networks].
    destruct (chains h !! name) as [chain0|] eqn:Hname.
    + destruct (quota_tokens_run env ip name (GetSupportedTokens chain0) ∅ st)
        as (Hr1 & Hs1 & m & Hm & _ & Hshown1).
      destruct (quota_tokens env ip name (GetSupportedTokens chain0) ∅ st)
        as [st1 out] eqn:Hrun. cbn [fst snd] in *. subst out.
      assert (Heq :
        (quota_tokens env ip name (GetSupportedTokens chain0) ∅
         ≫= (fun tokenThrottles =>
               quota_networks h env ip rest (<[name := tokenThrottles]> acc))) st
        = quota_networks h env ip rest (<[name := m]> acc) st1).
      { unfold mbind, Step_bind. now rewrite Hrun. }
      rewrite !Heq. clear Heq.
      destruct (IH (<[name := m]> acc) st1) as (Hr & Hs & M & HM & Hframe & Hshown).
      split; [congruence|]. split; [congruence|].
      exists M. split; [exact HM|]. split.
      * intros key Hkey. rewrite Hframe by (intros Hin; apply Hkey; now right).
        apply lookup_insert_ne. intros ->. apply Hkey. now left.
      * intros networkName chain t Hin Hnodup Hchain Ht Hok Huniq.
        apply NoDup_cons_iff in Hnodup as [Hfresh Hnodup].
        destruct Hin as [->|Hin].
        -- rewrite Hframe by exact Hfresh. rewrite lookup_insert_eq.
           cbn [mbind option_bind]. rewrite Hname in Hchain.
           injection Hchain as ->. now apply Hshown1.
        -- rewrite <- Hr1. now apply (Hshown networkName chain).
    + destruct (IH acc st) as (Hr & Hs & M & HM & Hframe & Hshown).
      split; [exact Hr|]. split; [exact Hs|].
      exists M. split; [exact HM|]. split.
      * intros key Hkey. apply Hframe. intros Hin. apply Hkey. now right.
      * intros networkName chain t Hin Hnodup Hchain Ht Hok Huniq.
        apply NoDup_cons_iff in Hnodup as [Hfresh Hnodup].
        destruct Hin as [->|Hin]; [congruence|].
        now apply (Hshown networkName chain).
Qed.

(** [GetQuota] as a whole. *)
Lemma GetQuota_run h env ip range_order r :
  redis (fst (GetQuota h env ip range_order (initial r))) = r
  /\ sent (fst (GetQuota h env ip range_order (initial r))) = []
  /\ (redis_fails env CGetIPDailyQuota = true ->
      snd (GetQuota h env ip range_order (initial r))
      = inl StatusInternalServerError)
  /\ (redis_fails env CGetIPDailyQuota = false ->
      exists q,
        snd (GetQuota h env ip range_order (initial r)) = inr q
        /\ (quota_used q, quota_remaining q, quota_cooldown_end q)
           = GetIPDailyQuota (now env) ip r
        /\ quota_total q = Config.MaxRequestsPerDayIP (config h)
        /\ (quota_in_cooldown q = true <-> quota_cooldown_end q <> None)
        /\ forall networkName chain t,
             In networkName range_order -> List.NoDup range_order ->
             chains h !! networkName = Some chain ->
             In t (GetSupportedTokens chain) ->
             redis_fails env (CCheckTokenHourlyThrottle t) = false ->
             (forall t', In t' (GetSupportedTokens chain) ->
                         ToLower t' = ToLower t -> t' = t) ->
             shown_throttle q networkName t
             = Some (throttle_entry
                       (CheckTokenHourlyThrottle (now env) ip networkName t r))).
Proof.
  assert (Hfailed : redis_fails env CGetIPDailyQuota = true ->
    GetQuota h env ip range_order (initial r)
    = ({| redis := r; calls := [CGetIPDailyQuota]; sent := [] |},
       inl StatusInternalServerError)).
  { intros Hfail. unfold GetQuota, mbind, Step_bind, redis_get.
    now rewrite Hfail. }
  assert (Hread : redis_fails env CGetIPDailyQuota = false ->
    GetQuota h env ip range_order (initial r)
    = (fst (quota_networks h env ip range_order ∅
              {| redis := r; calls := [CGetIPDailyQuota]; sent := [] |}),
       match snd (quota_networks h env ip range_order ∅
                    {| redis := r; calls := [CGetIPDailyQuota]; sent := [] |})
       with
       | inl status => inl status
       | inr networkThrottles =>
           inr {| quota_total := Config.MaxRequestsPerDayIP (config h);
                  quota_used := fst (fst (GetIPDailyQuota (now env) ip r));
                  quota_remaining := snd (fst (GetIPDailyQuota (now env) ip r));
                  quota_cooldown_end := snd (GetIPDailyQuota (now env) ip r);
                  quota_in_cooldown :=
                    bool_decide (snd (GetIPDailyQuota (now env) ip r) ≠ None);
                  hourly_throttle_by_network := networkThrottles |}
       end)).
  { intros Hok. unfold GetQuota, mbind, Step_bind, redis_get.
    rewrite Hok. cbn [initial redis calls sent app].
    destruct (GetIPDailyQuota (now env) ip r) as [[used remaining] cooldownEnd].
    cbn [mret Step_ret fst snd].
    destruct (quota_networks h env ip range_order ∅ _) as [st2 [status|M]];
      reflexivity. }
  destruct (redis_fails env CGetIPDailyQuota) eqn:Hfail.
  - rewrite (Hfailed eq_refl). cbn. repeat split; try reflexivity. discriminate.
  - rewrite (Hread eq_refl). clear Hfailed Hread. cbn [fst snd].
    destruct (quota_networks_run h env ip range_order ∅
                {| redis := r; calls := [CGetIPDailyQuota]; sent := [] |})
      as (Hr & Hs & M & HM & _ & Hshown).
    rewrite HM.
    split; [exact Hr|]. split; [exact Hs|]. split; [discriminate|].
    intros _. eexists. split; [reflexivity|].
    cbn [quota_used quota_remaining quota_cooldown_end quota_total
         quota_in_cooldown].
    split; [now destruct (GetIPDailyQuota (now env) ip r) as [[? ?] ?]|].
    split; [reflexivity|].
    split; [apply bool_decide_eq_true|].
    intros networkName chain t Hin Hnodup Hchain Ht Hok Huniq.
    unfold shown_throttle. cbn [hourly_throttle_by_network].
    now apply (Hshown networkName chain).
Qed.

End Quota.

(** X21. The quota report and the request handler agree on the hourly
    throttle, which both read with the same check. When [GetQuota]
    answers, then for a request for one token that the named chain lists,
    made by the same caller at the same instant: the report has an entry
    for the token on that network; if the request gets as far as the
    throttle, it passes exactly when the entry says "available"; and when
    the entry says otherwise, the request is refused with the hourly-limit
    answer, whose minutes count up to the entry's [next_request_at]. *)
Theorem quota_shows_the_request_throttle (h : Handler) (env : Env)
    (ip : string) (range_order : list string) (r : RedisClient)
    (q : Reports.QuotaResponse) (req : FaucetRequest) (chain : Chain)
    (provider : ChainProvider) :
  snd (Reports.GetQuota h env ip range_order (initial r)) = inr q ->
  List.NoDup range_order ->
  In (Network req) range_order ->
  Network req <> EmptyString ->
  getChain h (Network req) = inr (chain, provider) ->
  token_of req <> "BOTH" ->
  In (token_of req) (GetSupportedTokens chain) ->
  (forall t, In t (GetSupportedTokens chain) ->
             Strings.ToLower t = Strings.ToLower (token_of req) ->
             t = token_of req) ->
  redis_fails env (CCheckTokenHourlyThrottle (token_of req)) = false ->
  exists entry,
    Reports.shown_throttle q (Network req) (token_of req) = Some entry
    /\ ((exists t, In (CCheckTokenHourlyThrottle t)
                      (calls (fst (run (RequestTokens h env ip (Some req))
                                       (initial r))))) ->
        (Reports.available entry = true
         <-> passed_throttle_gate
               (calls (fst (run (RequestTokens h env ip (Some req)) (initial r))))
             = true)
        /\ (Reports.available entry = false ->
            exists next,
              Reports.next_request_at entry = Some next
              /\ snd (run (RequestTokens h env ip (Some req)) (initial r))
                 = ErrorResponse StatusTooManyRequests
                     (ErrHourlyLimit (token_of req) (Network req)
                        (Z.quot (next - now env) 60 + 1)))).
Proof.
  intros Hq Hnodup Hvisited Hnamed Hchain Hsingle Hlisted Huniq Hok.
  destruct (GetQuota_run h env ip range_order r) as (_ & _ & Hfailed & Hread).
  destruct (redis_fails env CGetIPDailyQuota) eqn:Hquota.
  { rewrite (Hfailed eq_refl) in Hq. discriminate Hq. }
  destruct (Hread eq_refl) as (q' & Hq' & _ & _ & _ & Hshown). clear Hfailed Hread.
  rewrite Hq' in Hq. injection Hq as ->.
  assert (Hregistered : chains h !! Network req = Some chain).
  { unfold getChain in Hchain.
    rewrite bool_decide_eq_false_2 in Hchain by exact Hnamed.
    destruct (chains h !! Network req) as [c|]; [|discriminate Hchain].
    destruct (providers h !! Network req); [|discriminate Hchain].
    now injection Hchain as -> _. }
  specialize (Hshown (Network req) chain (token_of req) Hvisited Hnodup
                Hregistered Hlisted Hok Huniq).
  eexists. split; [exact Hshown|].
  intros Hreached.
  assert (Htokens : throttle_tokens chain req = [token_of req]).
  { unfold throttle_tokens. now rewrite bool_decide_eq_false_2. }
  assert (Hnetwork : network_of h req = Network req).
  { unfold network_of. now rewrite bool_decide_eq_false_2. }
  destruct (throttle_gate h env ip req r chain provider Hchain) as [Hpass Hdeny];
    [rewrite Htokens; intros t [<-|[]]; exact Hok | exact Hreached |].
  rewrite Htokens, Hnetwork in Hpass, Hdeny.
  unfold Reports.throttle_entry, CheckTokenHourlyThrottle.
  unfold throttle_marker in Hpass, Hdeny.
  destruct (live_marker (now env)
              (token_throttle r !! (ip, Network req, token_of req)))
    as [next|] eqn:Hmarker; cbn [fst snd Reports.available Reports.next_request_at].
  - split.
    + split; [discriminate|]. intros Hp. apply Hpass in Hp.
      apply Forall_inv in Hp. cbv beta in Hp. congruence.
    + intros _. exists next. split; [reflexivity|].
      destruct (passed_throttle_gate _) eqn:Hp.
      * exfalso. apply proj1 in Hpass. specialize (Hpass eq_refl).
        apply Forall_inv in Hpass. cbv beta in Hpass. congruence.
      * destruct (Hdeny eq_refl) as (t & next' & [<-|[]] & Hnext & Hanswer).
        rewrite Hmarker in Hnext. injection Hnext as <-. exact Hanswer.
  - split; [|discriminate]. split; [|reflexivity].
    intros _. apply Hpass. constructor; [exact Hmarker | constructor].
Qed.

Lemma quota_shows_the_request_throttle_witness :
  exists q entry,
    snd (Reports.GetQuota (Sample.handler Sample.eth_ok Sample.sn_ok)
           (Sample.env_at Sample.t0 Sample.no_faults) Sample.caller
           ["ethereum"; "starknet"] (initial Sample.store2)) = inr q
    /\ Reports.shown_throttle q (Network Sample.req_eth2)
         (token_of Sample.req_eth2) = Some entry.
Proof.
  eexists ?[q].
  edestruct (quota_shows_the_request_throttle
               (Sample.handler Sample.eth_ok Sample.sn_ok)
               (Sample.env_at Sample.t0 Sample.no_faults) Sample.caller
               ["ethereum"; "starknet"] Sample.store2 ?q Sample.req_eth2
               Sample.eth_ok Sample.eth_provider)
    as (entry & Hentry & _).
  - vm_compute. reflexivity.
  - repeat constructor; cbn; intuition discriminate.
  - now left.
  - discriminate.
  - vm_compute. reflexivity.
  - vm_compute. discriminate.
  - now left.
  - intros t [<-|[]] _. reflexivity.
  - reflexivity.
  - exists entry. split; [reflexivity | exact Hentry].
Defined.
